(** * Lode Runner: the simulation core of [main.cpp], embedded and verified

    The development follows the source file function by function.  The
    global variables of the program become the fields of one [State]
    record that every operation takes and returns.  The C++ [float] is the
    IEEE-754 binary32 format, modelled bit-exactly with the executable
    specification of the Standard Library ([SpecFloat], precision 24,
    [emax] 128); [int] values are mathematical integers (signed overflow
    is undefined in C++ and none of the counters comes near it).
    Diagnostic output to [std::cout]/[std::cerr] and all drawing code are
    left out: they read the state and never write it. *)

From Stdlib Require Import ZArith Ascii String.
From Stdlib Require Import Floats.SpecFloat.
From stdpp Require Import base option list sorting gmap.

#[local] Open Scope Z_scope.

(** ** Single-precision arithmetic *)

Definition float : Type := spec_float.

Definition f32_prec : Z := 24.
Definition f32_emax : Z := 128.

Definition fadd (a b : float) : float := SFadd f32_prec f32_emax a b.
Definition fsub (a b : float) : float := SFsub f32_prec f32_emax a b.
Definition fmul (a b : float) : float := SFmul f32_prec f32_emax a b.
Definition fdiv (a b : float) : float := SFdiv f32_prec f32_emax a b.
Definition fneg (a : float) : float := SFopp a.
Definition fabs (a : float) : float := SFabs a.
Definition feqb (a b : float) : bool := SFeqb a b.
Definition fltb (a b : float) : bool := SFltb a b.
Definition fleb (a b : float) : bool := SFleb a b.

(** Conversion of an [int] to [float] (round to nearest even). *)
Definition i2f (n : Z) : float := binary_normalize f32_prec f32_emax n 0 false.

(** The literal [n/d] written in decimal in the source, e.g. [0.8f] is
    [flit 8 10]: a decimal literal denotes the float nearest to the
    rational, which is what a correctly rounded division of two exactly
    represented integers returns. *)
Definition flit (n d : Z) : float := fdiv (i2f n) (i2f d).

Definition INT_MIN : Z := - 2 ^ 31.
Definition INT_MAX : Z := 2 ^ 31 - 1.

(** [floor] as a mathematical integer, for finite arguments. *)
Definition ffloor (a : float) : option Z :=
  match a with
  | S754_zero _ => Some 0
  | S754_finite s m e => Some (Z.shiftl (if s then Z.neg m else Z.pos m) e)
  | S754_infinity _ | S754_nan => None
  end.

(** [static_cast<int>(floor(a))].  The conversion is undefined in C++ when
    the value does not fit an [int]; the model returns what the x86
    conversion instruction returns there, the "integer indefinite"
    [INT_MIN]. *)
Definition floor_to_int (a : float) : Z :=
  match ffloor a with
  | Some z => if (INT_MIN <=? z) && (z <=? INT_MAX) then z else INT_MIN
  | None => INT_MIN
  end.

Declare Scope f32_scope.
Delimit Scope f32_scope with f32.
Bind Scope f32_scope with float.

Infix "+" := fadd : f32_scope.
Infix "-" := fsub : f32_scope.
Infix "*" := fmul : f32_scope.
Infix "/" := fdiv : f32_scope.
Notation "- a" := (fneg a) : f32_scope.
Notation "a <? b" := (fltb a b) : f32_scope.
Notation "a <=? b" := (fleb a b) : f32_scope.
Notation "a >? b" := (fltb b a) : f32_scope.
Notation "a >=? b" := (fleb b a) : f32_scope.
Notation "a =? b" := (feqb a b) : f32_scope.
Notation "a <>? b" := (negb (feqb a b)) (at level 70) : f32_scope.

Arguments fadd : simpl never.
Arguments fsub : simpl never.
Arguments fmul : simpl never.
Arguments fdiv : simpl never.
Arguments fneg : simpl never.
Arguments fabs : simpl never.
Arguments feqb : simpl never.
Arguments fltb : simpl never.
Arguments fleb : simpl never.
Arguments i2f : simpl never.
Arguments flit : simpl never.
Arguments floor_to_int : simpl never.

(** ** Game constants *)

Definition WINDOW_WIDTH : Z := 800.
Definition WINDOW_HEIGHT : Z := 600.
Definition GRID_WIDTH : Z := 20.
Definition GRID_HEIGHT : Z := 15.
Definition TILE_SIZE : float := i2f 40.

Definition PLAYER_SPEED : float := i2f 150.
Definition ENEMY_SPEED : float := i2f 120.
Definition GRAVITY : float := i2f 500.
Definition JUMP_FORCE : float := i2f 10.
Definition CLIMB_SPEED : float := i2f 150.
Definition ROPE_SPEED : float := i2f 150.

Definition MAX_ENEMIES : nat := 3.
Definition INITIAL_LIVES : Z := 3.
Definition DIG_REFILL_TIME : float := i2f 7.
Definition POINTS_PER_COLLECTIBLE : Z := 100.
Definition ENEMY_RESPAWN_DELAY : float := i2f 3.

Definition numEnemies : nat := MAX_ENEMIES.

(** ** Data model *)

Inductive TileType : Type :=
  | EMPTY
  | BRICK
  | LADDER
  | ROPE
  | SOLID_BRICK
  | EXIT_LADDER.

(** The enumerators' integer values. *)
Definition tileCode (t : TileType) : Z :=
  match t with
  | EMPTY => 0
  | BRICK => 1
  | LADDER => 2
  | ROPE => 3
  | SOLID_BRICK => 4
  | EXIT_LADDER => 5
  end.

#[global] Instance TileType_eq_dec : EqDecision TileType.
Proof. solve_decision. Defined.

Definition tile_eqb (a b : TileType) : bool := tileCode a =? tileCode b.

Infix "==t" := tile_eqb (at level 70, no associativity).

(** Brick or solid brick: the two kinds every collision test looks for. *)
Definition isSolid (t : TileType) : bool := (t ==t BRICK) || (t ==t SOLID_BRICK).

(** [struct Entity].  The source's position fields [x] and [y] are
    [posX] and [posY] here. *)
Record Entity : Type := mkEntity {
  posX : float;
  posY : float;
  vx : float;
  vy : float;
  isJumping : bool;
  isClimbing : bool;
  isOnRope : bool;
  isFalling : bool;
  faceRight : bool;
  isTrapped : bool;
  trappedTimer : float;
  isAlive : bool;
  respawnTimer : float;
  startGridX : Z;
  startGridY : Z
}.

(** [struct DugHole]; its [gridX], [gridY] are [holeX], [holeY]. *)
Record DugHole : Type := mkDugHole {
  holeX : Z;
  holeY : Z;
  timer : float;
  originalType : TileType
}.

(** The global variables.  [level] and [collectibles] are lists of rows,
    row [y] first ([level[y][x]]); [dugHoles] is the [std::map] keyed by
    [(gridX, gridY)]; [randTape] and [randPos] stand for the hidden state
    of [rand()]: the sequence it will return and how much of it is used. *)
Record State : Type := mkState {
  player : Entity;
  enemies : list Entity;
  level : list (list TileType);
  dugHoles : gmap (Z * Z) DugHole;
  gameOver : bool;
  gameWon : bool;
  levelComplete : bool;
  keyStates : list bool;
  specialKeyStates : list bool;
  collectibles : list (list Z);
  collectiblesCollected : Z;
  totalCollectibles : Z;
  score : Z;
  lives : Z;
  gameTime : float;
  randTape : nat -> Z;
  randPos : nat
}.

(** *** Field assignment *)

Definition set_posX (v : float) (e : Entity) : Entity :=
  {| posX := v; posY := posY e; vx := vx e; vy := vy e;
     isJumping := isJumping e; isClimbing := isClimbing e;
     isOnRope := isOnRope e; isFalling := isFalling e;
     faceRight := faceRight e; isTrapped := isTrapped e;
     trappedTimer := trappedTimer e; isAlive := isAlive e;
     respawnTimer := respawnTimer e; startGridX := startGridX e;
     startGridY := startGridY e |}.

Definition set_posY (v : float) (e : Entity) : Entity :=
  {| posX := posX e; posY := v; vx := vx e; vy := vy e;
     isJumping := isJumping e; isClimbing := isClimbing e;
     isOnRope := isOnRope e; isFalling := isFalling e;
     faceRight := faceRight e; isTrapped := isTrapped e;
     trappedTimer := trappedTimer e; isAlive := isAlive e;
     respawnTimer := respawnTimer e; startGridX := startGridX e;
     startGridY := startGridY e |}.

Definition set_vx (v : float) (e : Entity) : Entity :=
  {| posX := posX e; posY := posY e; vx := v; vy := vy e;
     isJumping := isJumping e; isClimbing := isClimbing e;
     isOnRope := isOnRope e; isFalling := isFalling e;
     faceRight := faceRight e; isTrapped := isTrapped e;
     trappedTimer := trappedTimer e; isAlive := isAlive e;
     respawnTimer := respawnTimer e; startGridX := startGridX e;
     startGridY := startGridY e |}.

Definition set_vy (v : float) (e : Entity) : Entity :=
  {| posX := posX e; posY := posY e; vx := vx e; vy := v;
     isJumping := isJumping e; isClimbing := isClimbing e;
     isOnRope := isOnRope e; isFalling := isFalling e;
     faceRight := faceRight e; isTrapped := isTrapped e;
     trappedTimer := trappedTimer e; isAlive := isAlive e;
     respawnTimer := respawnTimer e; startGridX := startGridX e;
     startGridY := startGridY e |}.

Definition set_isJumping (v : bool) (e : Entity) : Entity :=
  {| posX := posX e; posY := posY e; vx := vx e; vy := vy e; isJumping := v;
     isClimbing := isClimbing e; isOnRope := isOnRope e;
     isFalling := isFalling e; faceRight := faceRight e;
     isTrapped := isTrapped e; trappedTimer := trappedTimer e;
     isAlive := isAlive e; respawnTimer := respawnTimer e;
     startGridX := startGridX e; startGridY := startGridY e |}.

Definition set_isClimbing (v : bool) (e : Entity) : Entity :=
  {| posX := posX e; posY := posY e; vx := vx e; vy := vy e;
     isJumping := isJumping e; isClimbing := v; isOnRope := isOnRope e;
     isFalling := isFalling e; faceRight := faceRight e;
     isTrapped := isTrapped e; trappedTimer := trappedTimer e;
     isAlive := isAlive e; respawnTimer := respawnTimer e;
     startGridX := startGridX e; startGridY := startGridY e |}.

Definition set_isOnRope (v : bool) (e : Entity) : Entity :=
  {| posX := posX e; posY := posY e; vx := vx e; vy := vy e;
     isJumping := isJumping e; isClimbing := isClimbing e; isOnRope := v;
     isFalling := isFalling e; faceRight := faceRight e;
     isTrapped := isTrapped e; trappedTimer := trappedTimer e;
     isAlive := isAlive e; respawnTimer := respawnTimer e;
     startGridX := startGridX e; startGridY := startGridY e |}.

Definition set_isFalling (v : bool) (e : Entity) : Entity :=
  {| posX := posX e; posY := posY e; vx := vx e; vy := vy e;
     isJumping := isJumping e; isClimbing := isClimbing e;
     isOnRope := isOnRope e; isFalling := v; faceRight := faceRight e;
     isTrapped := isTrapped e; trappedTimer := trappedTimer e;
     isAlive := isAlive e; respawnTimer := respawnTimer e;
     startGridX := startGridX e; startGridY := startGridY e |}.

Definition set_faceRight (v : bool) (e : Entity) : Entity :=
  {| posX := posX e; posY := posY e; vx := vx e; vy := vy e;
     isJumping := isJumping e; isClimbing := isClimbing e;
     isOnRope := isOnRope e; isFalling := isFalling e; faceRight := v;
     isTrapped := isTrapped e; trappedTimer := trappedTimer e;
     isAlive := isAlive e; respawnTimer := respawnTimer e;
     startGridX := startGridX e; startGridY := startGridY e |}.

Definition set_isTrapped (v : bool) (e : Entity) : Entity :=
  {| posX := posX e; posY := posY e; vx := vx e; vy := vy e;
     isJumping := isJumping e; isClimbing := isClimbing e;
     isOnRope := isOnRope e; isFalling := isFalling e;
     faceRight := faceRight e; isTrapped := v; trappedTimer := trappedTimer e;
     isAlive := isAlive e; respawnTimer := respawnTimer e;
     startGridX := startGridX e; startGridY := startGridY e |}.

Definition set_trappedTimer (v : float) (e : Entity) : Entity :=
  {| posX := posX e; posY := posY e; vx := vx e; vy := vy e;
     isJumping := isJumping e; isClimbing := isClimbing e;
     isOnRope := isOnRope e; isFalling := isFalling e;
     faceRight := faceRight e; isTrapped := isTrapped e; trappedTimer := v;
     isAlive := isAlive e; respawnTimer := respawnTimer e;
     startGridX := startGridX e; startGridY := startGridY e |}.

Definition set_isAlive (v : bool) (e : Entity) : Entity :=
  {| posX := posX e; posY := posY e; vx := vx e; vy := vy e;
     isJumping := isJumping e; isClimbing := isClimbing e;
     isOnRope := isOnRope e; isFalling := isFalling e;
     faceRight := faceRight e; isTrapped := isTrapped e;
     trappedTimer := trappedTimer e; isAlive := v;
     respawnTimer := respawnTimer e; startGridX := startGridX e;
     startGridY := startGridY e |}.

Definition set_respawnTimer (v : float) (e : Entity) : Entity :=
  {| posX := posX e; posY := posY e; vx := vx e; vy := vy e;
     isJumping := isJumping e; isClimbing := isClimbing e;
     isOnRope := isOnRope e; isFalling := isFalling e;
     faceRight := faceRight e; isTrapped := isTrapped e;
     trappedTimer := trappedTimer e; isAlive := isAlive e; respawnTimer := v;
     startGridX := startGridX e; startGridY := startGridY e |}.

Definition set_startGridX (v : Z) (e : Entity) : Entity :=
  {| posX := posX e; posY := posY e; vx := vx e; vy := vy e;
     isJumping := isJumping e; isClimbing := isClimbing e;
     isOnRope := isOnRope e; isFalling := isFalling e;
     faceRight := faceRight e; isTrapped := isTrapped e;
     trappedTimer := trappedTimer e; isAlive := isAlive e;
     respawnTimer := respawnTimer e; startGridX := v;
     startGridY := startGridY e |}.

Definition set_startGridY (v : Z) (e : Entity) : Entity :=
  {| posX := posX e; posY := posY e; vx := vx e; vy := vy e;
     isJumping := isJumping e; isClimbing := isClimbing e;
     isOnRope := isOnRope e; isFalling := isFalling e;
     faceRight := faceRight e; isTrapped := isTrapped e;
     trappedTimer := trappedTimer e; isAlive := isAlive e;
     respawnTimer := respawnTimer e; startGridX := startGridX e;
     startGridY := v |}.

Definition set_player (v : Entity) (s : State) : State :=
  {| player := v; enemies := enemies s; level := level s;
     dugHoles := dugHoles s; gameOver := gameOver s; gameWon := gameWon s;
     levelComplete := levelComplete s; keyStates := keyStates s;
     specialKeyStates := specialKeyStates s; collectibles := collectibles s;
     collectiblesCollected := collectiblesCollected s;
     totalCollectibles := totalCollectibles s; score := score s;
     lives := lives s; gameTime := gameTime s; randTape := randTape s;
     randPos := randPos s |}.

Definition set_enemies (v : list Entity) (s : State) : State :=
  {| player := player s; enemies := v; level := level s;
     dugHoles := dugHoles s; gameOver := gameOver s; gameWon := gameWon s;
     levelComplete := levelComplete s; keyStates := keyStates s;
     specialKeyStates := specialKeyStates s; collectibles := collectibles s;
     collectiblesCollected := collectiblesCollected s;
     totalCollectibles := totalCollectibles s; score := score s;
     lives := lives s; gameTime := gameTime s; randTape := randTape s;
     randPos := randPos s |}.

Definition set_level (v : list (list TileType)) (s : State) : State :=
  {| player := player s; enemies := enemies s; level := v;
     dugHoles := dugHoles s; gameOver := gameOver s; gameWon := gameWon s;
     levelComplete := levelComplete s; keyStates := keyStates s;
     specialKeyStates := specialKeyStates s; collectibles := collectibles s;
     collectiblesCollected := collectiblesCollected s;
     totalCollectibles := totalCollectibles s; score := score s;
     lives := lives s; gameTime := gameTime s; randTape := randTape s;
     randPos := randPos s |}.

Definition set_dugHoles (v : gmap (Z * Z) DugHole) (s : State) : State :=
  {| player := player s; enemies := enemies s; level := level s; dugHoles := v;
     gameOver := gameOver s; gameWon := gameWon s;
     levelComplete := levelComplete s; keyStates := keyStates s;
     specialKeyStates := specialKeyStates s; collectibles := collectibles s;
     collectiblesCollected := collectiblesCollected s;
     totalCollectibles := totalCollectibles s; score := score s;
     lives := lives s; gameTime := gameTime s; randTape := randTape s;
     randPos := randPos s |}.

Definition set_gameOver (v : bool) (s : State) : State :=
  {| player := player s; enemies := enemies s; level := level s;
     dugHoles := dugHoles s; gameOver := v; gameWon := gameWon s;
     levelComplete := levelComplete s; keyStates := keyStates s;
     specialKeyStates := specialKeyStates s; collectibles := collectibles s;
     collectiblesCollected := collectiblesCollected s;
     totalCollectibles := totalCollectibles s; score := score s;
     lives := lives s; gameTime := gameTime s; randTape := randTape s;
     randPos := randPos s |}.

Definition set_gameWon (v : bool) (s : State) : State :=
  {| player := player s; enemies := enemies s; level := level s;
     dugHoles := dugHoles s; gameOver := gameOver s; gameWon := v;
     levelComplete := levelComplete s; keyStates := keyStates s;
     specialKeyStates := specialKeyStates s; collectibles := collectibles s;
     collectiblesCollected := collectiblesCollected s;
     totalCollectibles := totalCollectibles s; score := score s;
     lives := lives s; gameTime := gameTime s; randTape := randTape s;
     randPos := randPos s |}.

Definition set_levelComplete (v : bool) (s : State) : State :=
  {| player := player s; enemies := enemies s; level := level s;
     dugHoles := dugHoles s; gameOver := gameOver s; gameWon := gameWon s;
     levelComplete := v; keyStates := keyStates s;
     specialKeyStates := specialKeyStates s; collectibles := collectibles s;
     collectiblesCollected := collectiblesCollected s;
     totalCollectibles := totalCollectibles s; score := score s;
     lives := lives s; gameTime := gameTime s; randTape := randTape s;
     randPos := randPos s |}.

Definition set_keyStates (v : list bool) (s : State) : State :=
  {| player := player s; enemies := enemies s; level := level s;
     dugHoles := dugHoles s; gameOver := gameOver s; gameWon := gameWon s;
     levelComplete := levelComplete s; keyStates := v;
     specialKeyStates := specialKeyStates s; collectibles := collectibles s;
     collectiblesCollected := collectiblesCollected s;
     totalCollectibles := totalCollectibles s; score := score s;
     lives := lives s; gameTime := gameTime s; randTape := randTape s;
     randPos := randPos s |}.

Definition set_specialKeyStates (v : list bool) (s : State) : State :=
  {| player := player s; enemies := enemies s; level := level s;
     dugHoles := dugHoles s; gameOver := gameOver s; gameWon := gameWon s;
     levelComplete := levelComplete s; keyStates := keyStates s;
     specialKeyStates := v; collectibles := collectibles s;
     collectiblesCollected := collectiblesCollected s;
     totalCollectibles := totalCollectibles s; score := score s;
     lives := lives s; gameTime := gameTime s; randTape := randTape s;
     randPos := randPos s |}.

Definition set_collectibles (v : list (list Z)) (s : State) : State :=
  {| player := player s; enemies := enemies s; level := level s;
     dugHoles := dugHoles s; gameOver := gameOver s; gameWon := gameWon s;
     levelComplete := levelComplete s; keyStates := keyStates s;
     specialKeyStates := specialKeyStates s; collectibles := v;
     collectiblesCollected := collectiblesCollected s;
     totalCollectibles := totalCollectibles s; score := score s;
     lives := lives s; gameTime := gameTime s; randTape := randTape s;
     randPos := randPos s |}.

Definition set_collectiblesCollected (v : Z) (s : State) : State :=
  {| player := player s; enemies := enemies s; level := level s;
     dugHoles := dugHoles s; gameOver := gameOver s; gameWon := gameWon s;
     levelComplete := levelComplete s; keyStates := keyStates s;
     specialKeyStates := specialKeyStates s; collectibles := collectibles s;
     collectiblesCollected := v; totalCollectibles := totalCollectibles s;
     score := score s; lives := lives s; gameTime := gameTime s;
     randTape := randTape s; randPos := randPos s |}.

Definition set_totalCollectibles (v : Z) (s : State) : State :=
  {| player := player s; enemies := enemies s; level := level s;
     dugHoles := dugHoles s; gameOver := gameOver s; gameWon := gameWon s;
     levelComplete := levelComplete s; keyStates := keyStates s;
     specialKeyStates := specialKeyStates s; collectibles := collectibles s;
     collectiblesCollected := collectiblesCollected s; totalCollectibles := v;
     score := score s; lives := lives s; gameTime := gameTime s;
     randTape := randTape s; randPos := randPos s |}.

Definition set_score (v : Z) (s : State) : State :=
  {| player := player s; enemies := enemies s; level := level s;
     dugHoles := dugHoles s; gameOver := gameOver s; gameWon := gameWon s;
     levelComplete := levelComplete s; keyStates := keyStates s;
     specialKeyStates := specialKeyStates s; collectibles := collectibles s;
     collectiblesCollected := collectiblesCollected s;
     totalCollectibles := totalCollectibles s; score := v; lives := lives s;
     gameTime := gameTime s; randTape := randTape s; randPos := randPos s |}.

Definition set_lives (v : Z) (s : State) : State :=
  {| player := player s; enemies := enemies s; level := level s;
     dugHoles := dugHoles s; gameOver := gameOver s; gameWon := gameWon s;
     levelComplete := levelComplete s; keyStates := keyStates s;
     specialKeyStates := specialKeyStates s; collectibles := collectibles s;
     collectiblesCollected := collectiblesCollected s;
     totalCollectibles := totalCollectibles s; score := score s; lives := v;
     gameTime := gameTime s; randTape := randTape s; randPos := randPos s |}.

Definition set_gameTime (v : float) (s : State) : State :=
  {| player := player s; enemies := enemies s; level := level s;
     dugHoles := dugHoles s; gameOver := gameOver s; gameWon := gameWon s;
     levelComplete := levelComplete s; keyStates := keyStates s;
     specialKeyStates := specialKeyStates s; collectibles := collectibles s;
     collectiblesCollected := collectiblesCollected s;
     totalCollectibles := totalCollectibles s; score := score s;
     lives := lives s; gameTime := v; randTape := randTape s;
     randPos := randPos s |}.

Definition set_randTape (v : nat -> Z) (s : State) : State :=
  {| player := player s; enemies := enemies s; level := level s;
     dugHoles := dugHoles s; gameOver := gameOver s; gameWon := gameWon s;
     levelComplete := levelComplete s; keyStates := keyStates s;
     specialKeyStates := specialKeyStates s; collectibles := collectibles s;
     collectiblesCollected := collectiblesCollected s;
     totalCollectibles := totalCollectibles s; score := score s;
     lives := lives s; gameTime := gameTime s; randTape := v;
     randPos := randPos s |}.

Definition set_randPos (v : nat) (s : State) : State :=
  {| player := player s; enemies := enemies s; level := level s;
     dugHoles := dugHoles s; gameOver := gameOver s; gameWon := gameWon s;
     levelComplete := levelComplete s; keyStates := keyStates s;
     specialKeyStates := specialKeyStates s; collectibles := collectibles s;
     collectiblesCollected := collectiblesCollected s;
     totalCollectibles := totalCollectibles s; score := score s;
     lives := lives s; gameTime := gameTime s; randTape := randTape s;
     randPos := v |}.

(** ** Grid access *)

(** [level[gy][gx]].  Every read of the source but two in [handleInput]
    is guarded by a bounds test; a read outside the array (undefined in
    C++) gives [EMPTY] here. *)
Definition levelAt (lvl : list (list TileType)) (gx gy : Z) : TileType :=
  if (0 <=? gx) && (0 <=? gy)
  then default EMPTY (lvl !! Z.to_nat gy ≫= (.!! Z.to_nat gx))
  else EMPTY.

(** [level[gy][gx] = t], for indices inside the array. *)
Definition setLevelAt (lvl : list (list TileType)) (gx gy : Z) (t : TileType)
  : list (list TileType) :=
  alter (<[Z.to_nat gx := t]>) (Z.to_nat gy) lvl.

Definition collectibleAt (c : list (list Z)) (gx gy : Z) : Z :=
  if (0 <=? gx) && (0 <=? gy)
  then default 0 (c !! Z.to_nat gy ≫= (.!! Z.to_nat gx))
  else 0.

Definition setCollectibleAt (c : list (list Z)) (gx gy : Z) (v : Z)
  : list (list Z) :=
  alter (<[Z.to_nat gx := v]>) (Z.to_nat gy) c.

(** The bounds test written out in [getTileAt] and [digHole]. *)
Definition outOfBounds (gridX gridY : Z) : bool :=
  (gridX <? 0) || (gridX >=? GRID_WIDTH) || (gridY <? 0) || (gridY >=? GRID_HEIGHT).

(** The test in the positive form used by the other functions. *)
Definition inBounds (gridX gridY : Z) : bool :=
  (gridX >=? 0) && (gridX <? GRID_WIDTH) && (gridY >=? 0) && (gridY <? GRID_HEIGHT).

Definition getGridX (x : float) : Z := floor_to_int (x / TILE_SIZE).
Definition getGridY (y : float) : Z := floor_to_int (y / TILE_SIZE).

Definition getTileAt (s : State) (x y : float) : TileType :=
  let gridX := floor_to_int (x / TILE_SIZE) in
  let gridY := floor_to_int (y / TILE_SIZE) in
  if outOfBounds gridX gridY then SOLID_BRICK
  else match dugHoles s !! (gridX, gridY) with
       | Some _ => EMPTY
       | None => levelAt (level s) gridX gridY
       end.

(** ** Entities *)

(** Which of the global entities a reference parameter [Entity&] is bound
    to: the source tells them apart by comparing addresses. *)
Inductive EntityRef : Type :=
  | ThePlayer
  | TheEnemy (i : nat).

Definition isPlayerRef (r : EntityRef) : bool :=
  match r with ThePlayer => true | TheEnemy _ => false end.

Definition isEnemyRef (r : EntityRef) (i : nat) : bool :=
  match r with ThePlayer => false | TheEnemy j => Nat.eqb j i end.

(** An entity slot outside the array; never read when [enemies] has its
    [MAX_ENEMIES] elements. *)
Definition noEntity : Entity :=
  {| posX := i2f 0; posY := i2f 0; vx := i2f 0; vy := i2f 0;
     isJumping := false; isClimbing := false; isOnRope := false;
     isFalling := false; faceRight := false; isTrapped := false;
     trappedTimer := i2f 0; isAlive := false; respawnTimer := i2f 0;
     startGridX := 0; startGridY := 0 |}.

Definition getEntity (r : EntityRef) (s : State) : Entity :=
  match r with
  | ThePlayer => player s
  | TheEnemy i => default noEntity (enemies s !! i)
  end.

Definition setEntity (r : EntityRef) (e : Entity) (s : State) : State :=
  match r with
  | ThePlayer => set_player e s
  | TheEnemy i => set_enemies (<[i := e]> (enemies s)) s
  end.

(** First element, with its index, that satisfies [p]: a [for] loop over
    the enemy array that stops at its first hit. *)
Fixpoint findFrom (p : nat -> Entity -> bool) (i : nat) (l : list Entity)
  : option (nat * Entity) :=
  match l with
  | [] => None
  | en :: l' => if p i en then Some (i, en) else findFrom p (S i) l'
  end.

Definition findEnemy (p : nat -> Entity -> bool) (l : list Entity)
  : option (nat * Entity) := findFrom p 0%nat l.

Definition isSome {A : Type} (o : option A) : bool :=
  match o with Some _ => true | None => false end.

Definition killEnemy (enemy : Entity) : Entity :=
  if negb (isAlive enemy) then enemy
  else set_vy (i2f 0) (set_vx (i2f 0)
         (set_respawnTimer ENEMY_RESPAWN_DELAY
           (set_isTrapped false (set_isAlive false enemy)))).

(** ** Collision queries *)

Definition isColliding (x1 y1 w1 h1 x2 y2 w2 h2 : float) : bool :=
  (x1 <? x2 + w2)%f32 && (x1 + w1 >? x2)%f32 &&
  (y1 <? y2 + h2)%f32 && (y1 + h1 >? y2)%f32.

Definition canMoveTo (s : State) (x y width height : float)
    (onRope climbing : bool) : bool :=
  let checkPointsX := [x; x + width / i2f 2; x + width]%f32 in
  let checkPointsY := [y; y + height / i2f 2; y + height]%f32 in
  forallb (fun checkX =>
    forallb (fun checkY =>
      match getTileAt s checkX checkY with
      | BRICK | SOLID_BRICK => false
      | _ => true
      end) checkPointsY) checkPointsX.

Definition isOnGround (s : State) (r : EntityRef) (entity : Entity) : bool :=
  let entityWidth := (TILE_SIZE * flit 8 10)%f32 in
  let checkXLeft := (posX entity + entityWidth * flit 1 10)%f32 in
  let checkXCenter := (posX entity + entityWidth * flit 5 10)%f32 in
  let checkXRight := (posX entity + entityWidth * flit 9 10)%f32 in
  let checkY := (posY entity - i2f 1)%f32 in
  let tileLeft := getTileAt s checkXLeft checkY in
  let tileCenter := getTileAt s checkXCenter checkY in
  let tileRight := getTileAt s checkXRight checkY in
  let onSolidTile := isSolid tileLeft || isSolid tileCenter || isSolid tileRight in
  if onSolidTile then true
  else
    isSome (findEnemy (fun i en =>
      negb (isEnemyRef r i) && isTrapped en &&
      (let enemyHeadY := (posY en + TILE_SIZE * flit 9 10)%f32 in
       (fabs (posY entity - enemyHeadY) <? i2f 5)%f32 &&
       (posX entity + entityWidth >? posX en)%f32 &&
       (posX entity <? posX en + TILE_SIZE * flit 8 10)%f32))
      (enemies s)).

Definition isOnLadder (s : State) (entity : Entity) : bool :=
  let entityWidth := (TILE_SIZE * flit 8 10)%f32 in
  let entityHeight := (TILE_SIZE * flit 95 100)%f32 in
  let checkX := (posX entity + entityWidth / i2f 2)%f32 in
  let checkYBottom := (posY entity + entityHeight * flit 1 10)%f32 in
  let checkYMiddle := (posY entity + entityHeight * flit 5 10)%f32 in
  let checkYTop := (posY entity + entityHeight * flit 9 10)%f32 in
  let tileBottom := getTileAt s checkX checkYBottom in
  let tileMiddle := getTileAt s checkX checkYMiddle in
  let tileTop := getTileAt s checkX checkYTop in
  (tileBottom ==t LADDER) || (tileBottom ==t EXIT_LADDER) ||
  (tileMiddle ==t LADDER) || (tileMiddle ==t EXIT_LADDER) ||
  (tileTop ==t LADDER) || (tileTop ==t EXIT_LADDER).

Definition checkOnRope (s : State) (entity : Entity) : bool :=
  let entityWidth := (TILE_SIZE * flit 8 10)%f32 in
  let entityHeight := (TILE_SIZE * flit 95 100)%f32 in
  let checkX := (posX entity + entityWidth / i2f 2)%f32 in
  let checkY := (posY entity + entityHeight * flit 5 10)%f32 in
  let tileCenter := getTileAt s checkX checkY in
  if tileCenter ==t ROPE then
    let ropeGridY := getGridY checkY in
    if (fabs (posY entity - i2f ropeGridY * TILE_SIZE) <? TILE_SIZE * flit 3 10)%f32
    then true else false
  else false.

(** ** Digging *)

Definition digHole (gridX gridY : Z) (s : State) : State :=
  if outOfBounds gridX gridY then s
  else if levelAt (level s) gridX gridY ==t BRICK then
    match dugHoles s !! (gridX, gridY) with
    | None =>
        let hole := {| holeX := gridX; holeY := gridY;
                       timer := DIG_REFILL_TIME; originalType := BRICK |} in
        set_dugHoles (<[(gridX, gridY) := hole]> (dugHoles s)) s
    | Some _ => s
    end
  else s.

(** ** Physics *)

(** The branch of [updatePhysics] taken by a trapped entity. *)
Definition updateTrapped (s : State) (r : EntityRef) (entity : Entity)
    (deltaTime : float) : Entity :=
  let entity := set_trappedTimer (trappedTimer entity - deltaTime)%f32 entity in
  let entity := set_vx (i2f 0) entity in
  let entity := set_vy (i2f 0) entity in
  let gridX := getGridX (posX entity + TILE_SIZE * flit 4 10)%f32 in
  let gridY := getGridY (posY entity) in
  if (trappedTimer entity <=? i2f 0)%f32 then
    match dugHoles s !! (gridX, gridY) with
    | None =>
        if negb (isPlayerRef r) then killEnemy entity
        else
          let entity := set_isTrapped false entity in
          let entity := set_posY (posY entity + i2f 5)%f32 entity in
          set_isFalling true entity
    | Some _ => set_trappedTimer (flit 1 100) entity
    end
  else entity.

(** "Apply Gravity". *)
Definition applyGravity (entity : Entity) (deltaTime : float) : Entity :=
  if negb (isClimbing entity) && negb (isOnRope entity)
  then set_vy (vy entity - GRAVITY * deltaTime)%f32 entity
  else if isClimbing entity && (vy entity =? i2f 0)%f32
       then set_vy (i2f 0) entity
       else entity.

(** The test of the landing loop for enemy [i]: the entity crosses the
    head level of another, trapped enemy and overlaps it horizontally. *)
Definition landsOnHead (r : EntityRef) (oldY nextLeft nextRight nextBottom : float)
    (i : nat) (en : Entity) : bool :=
  negb (isEnemyRef r i) && isTrapped en &&
  (let enemyHeadY := (posY en + TILE_SIZE * flit 9 10)%f32 in
   (nextBottom <=? enemyHeadY)%f32 && (oldY >=? enemyHeadY)%f32 &&
   (nextRight >? posX en)%f32 && (nextLeft <? posX en + TILE_SIZE * flit 8 10)%f32).

(** "Vertical Collision": returns the entity and the local [newY]. *)
Definition verticalCollision (s : State) (r : EntityRef) (entity : Entity)
    (oldY newX newY : float) : Entity * float :=
  let entityWidth := (TILE_SIZE * flit 8 10)%f32 in
  let entityHeight := (TILE_SIZE * flit 95 100)%f32 in
  let nextLeft := newX in
  let nextRight := (newX + entityWidth)%f32 in
  let nextBottom := newY in
  let nextTop := (newY + entityHeight)%f32 in
  if (vy entity <>? i2f 0)%f32 then
    let checkXLeft := (nextLeft + TILE_SIZE * flit 1 10)%f32 in
    let checkXRight := (nextRight - TILE_SIZE * flit 1 10)%f32 in
    let checkY := if (vy entity <? i2f 0)%f32 then nextBottom else nextTop in
    let tileLeft := getTileAt s checkXLeft checkY in
    let tileRight := getTileAt s checkXRight checkY in
    if (vy entity <? i2f 0)%f32 then
      let collision := isSolid tileLeft || isSolid tileRight in
      let '(collision, newY) :=
        match findEnemy (landsOnHead r oldY nextLeft nextRight nextBottom)
                        (enemies s) with
        | Some (_, en) => (true, (posY en + TILE_SIZE * flit 9 10)%f32)
        | None => (collision, newY)
        end in
      if collision then
        let gridY := getGridY checkY in
        let newY := (i2f (gridY + 1) * TILE_SIZE)%f32 in
        let entity := set_vy (i2f 0) entity in
        let entity := set_isFalling false entity in
        let entity := if isPlayerRef r then set_isJumping false entity
                      else entity in
        (entity, newY)
      else if negb (isClimbing entity) && negb (isOnRope entity)
           then (set_isFalling true entity, newY)
           else (entity, newY)
    else
      if isSolid tileLeft || isSolid tileRight then
        let gridY := getGridY checkY in
        let newY := (i2f gridY * TILE_SIZE - entityHeight)%f32 in
        (set_vy (i2f 0) entity, newY)
      else (entity, newY)
  else (entity, newY).

(** The three tiles sampled at the leading edge by the horizontal test. *)
Definition horizontalSamples (s : State) (entity : Entity) (newX newY : float)
  : TileType * TileType * TileType :=
  let entityWidth := (TILE_SIZE * flit 8 10)%f32 in
  let entityHeight := (TILE_SIZE * flit 95 100)%f32 in
  let nextLeft := newX in
  let nextRight := (newX + entityWidth)%f32 in
  let checkYBottom := (newY + TILE_SIZE * flit 1 10)%f32 in
  let checkYMiddle := (newY + entityHeight * flit 5 10)%f32 in
  let checkYTop := (newY + entityHeight * flit 9 10)%f32 in
  let checkX := if (vx entity <? i2f 0)%f32 then nextLeft else nextRight in
  (getTileAt s checkX checkYBottom,
   getTileAt s checkX checkYMiddle,
   getTileAt s checkX checkYTop).

Definition isLadderOrRope (t : TileType) : bool := (t ==t LADDER) || (t ==t ROPE).

(** The condition under which the horizontal test sets [collision]. *)
Definition horizontalBlocked (entity : Entity)
    (tiles : TileType * TileType * TileType) : bool :=
  let '(tileBottom, tileMiddle, tileTop) := tiles in
  if isSolid tileBottom || isSolid tileMiddle || isSolid tileTop then
    let onValidTraversal := isClimbing entity || isOnRope entity in
    negb onValidTraversal ||
    (negb (tileBottom ==t LADDER) && negb (tileBottom ==t ROPE) &&
     negb (tileMiddle ==t LADDER) && negb (tileMiddle ==t ROPE) &&
     negb (tileTop ==t LADDER) && negb (tileTop ==t ROPE))
  else false.

(** "Horizontal Collision": returns the entity and the local [newX].
    [newX] is the tentative position, [newY] the one left by the vertical
    test. *)
Definition horizontalCollision (s : State) (entity : Entity)
    (newX newY : float) : Entity * float :=
  let entityWidth := (TILE_SIZE * flit 8 10)%f32 in
  let nextLeft := newX in
  let nextRight := (newX + entityWidth)%f32 in
  if (vx entity <>? i2f 0)%f32 then
    let checkX := if (vx entity <? i2f 0)%f32 then nextLeft else nextRight in
    if horizontalBlocked entity (horizontalSamples s entity newX newY) then
      let gridX := getGridX checkX in
      let newX := if (vx entity <? i2f 0)%f32
                  then (i2f (gridX + 1) * TILE_SIZE)%f32
                  else (i2f gridX * TILE_SIZE - entityWidth)%f32 in
      (set_vx (i2f 0) entity, newX)
    else (entity, newX)
  else (entity, newX).

(** "Boundary Checks": the window edges and the fall below the floor.
    Returns the entity with the new [lives] and [gameOver]. *)
Definition boundaryChecks (r : EntityRef) (entity : Entity)
    (lives0 : Z) (gameOver0 : bool) : Entity * Z * bool :=
  let entityWidth := (TILE_SIZE * flit 8 10)%f32 in
  let entity := if (posX entity <? i2f 0)%f32 then set_posX (i2f 0) entity
                else entity in
  let entity := if (posX entity + entityWidth >? i2f WINDOW_WIDTH)%f32
                then set_posX (i2f WINDOW_WIDTH - entityWidth)%f32 entity
                else entity in
  if (posY entity <? - TILE_SIZE)%f32 then
    let entity := set_posY (i2f 0) entity in
    let entity := set_vy (i2f 0) entity in
    if isPlayerRef r then
      let lives1 := lives0 - 1 in
      if lives1 <=? 0 then (entity, lives1, true)
      else
        let entity := set_posX (i2f (startGridX entity) * TILE_SIZE
                                + TILE_SIZE * flit 1 10)%f32 entity in
        let entity := set_posY (i2f (startGridY entity) * TILE_SIZE)%f32 entity in
        let entity := set_vx (i2f 0) entity in
        let entity := set_vy (i2f 0) entity in
        let entity := set_isFalling false entity in
        (entity, lives1, gameOver0)
    else (killEnemy entity, lives0, gameOver0)
  else (entity, lives0, gameOver0).

(** What the capture by a hole assigns to the entity; [gridX], [gridYFeet]
    is the cell of its feet and [hole] the registry entry of that cell. *)
Definition trapInHole (entity : Entity) (gridX gridYFeet : Z) (hole : DugHole)
  : Entity :=
  let entityWidth := (TILE_SIZE * flit 8 10)%f32 in
  let entity := set_isTrapped true entity in
  let entity := set_trappedTimer (timer hole - flit 1 10)%f32 entity in
  let entity := if (trappedTimer entity <? i2f 0)%f32
                then set_trappedTimer (flit 1 100) entity else entity in
  let entity := set_posX (i2f gridX * TILE_SIZE
                          + (TILE_SIZE - entityWidth) / i2f 2)%f32 entity in
  let entity := set_posY (i2f gridYFeet * TILE_SIZE)%f32 entity in
  let entity := set_vx (i2f 0) entity in
  let entity := set_vy (i2f 0) entity in
  let entity := set_isFalling false entity in
  set_isClimbing false entity.

(** "Check if falling into a dug hole". *)
Definition holeCheck (s : State) (r : EntityRef) (entity : Entity) : Entity :=
  let entityWidth := (TILE_SIZE * flit 8 10)%f32 in
  let gridX := getGridX (posX entity + entityWidth / i2f 2)%f32 in
  let gridYFeet := getGridY (posY entity + i2f 1)%f32 in
  let entity :=
    if isFalling entity && (vy entity =? i2f 0)%f32 && isOnGround s r entity then
      let entity := set_isFalling false entity in
      if isPlayerRef r then set_isJumping false entity else entity
    else entity in
  if inBounds gridX gridYFeet then
    match dugHoles s !! (gridX, gridYFeet) with
    | Some hole =>
        if isFalling entity then
          if negb (isTrapped entity) then trapInHole entity gridX gridYFeet hole
          else entity
        else entity
    | None => entity
    end
  else entity.

(** The entity as it stands after the collision tests, its position
    assigned ("Update final position"), and before the boundary checks. *)
Definition moveEntity (s : State) (r : EntityRef) (entity : Entity)
    (deltaTime : float) : Entity :=
  let entity := applyGravity entity deltaTime in
  let oldY := posY entity in
  let newX := (posX entity + vx entity * deltaTime)%f32 in
  let newY := (posY entity + vy entity * deltaTime)%f32 in
  let '(entity, newY) := verticalCollision s r entity oldY newX newY in
  let '(entity, newX) := horizontalCollision s entity newX newY in
  set_posY newY (set_posX newX entity).

Definition updatePhysics (r : EntityRef) (deltaTime : float) (s : State) : State :=
  let entity := getEntity r s in
  if isTrapped entity then
    setEntity r (updateTrapped s r entity deltaTime) s
  else
    let entity := moveEntity s r entity deltaTime in
    let '(entity, lives1, gameOver1) :=
      boundaryChecks r entity (lives s) (gameOver s) in
    let entity := holeCheck s r entity in
    setEntity r entity (set_gameOver gameOver1 (set_lives lives1 s)).

(** ** Input *)

(** [keyStates[c]] and [specialKeyStates[c]]. *)
Definition keyDown (keys : list bool) (c : nat) : bool := default false (keys !! c).

Definition KEY_SPACE : nat := 32.
Definition KEY_A : nat := 97.
Definition KEY_D : nat := 100.
Definition KEY_E : nat := 101.
Definition KEY_Q : nat := 113.
Definition KEY_R : nat := 114.
Definition KEY_S : nat := 115.
Definition KEY_W : nat := 119.

(** The arrow-key codes of the GLUT header. *)
Definition GLUT_KEY_LEFT : nat := 100.
Definition GLUT_KEY_UP : nat := 101.
Definition GLUT_KEY_RIGHT : nat := 102.
Definition GLUT_KEY_DOWN : nat := 103.

(** The horizontal-key block of [handleInput], the same for both
    directions but for the sign of the speed and the facing. *)
Definition moveSideways (right : bool) (p : Entity) : Entity :=
  let sign (v : float) := if right then v else (- v)%f32 in
  let p := if isOnRope p then set_vx (sign ROPE_SPEED) p
           else if negb (isClimbing p) then set_vx (sign PLAYER_SPEED) p
           else p in
  let p := set_faceRight right p in
  if negb (isOnRope p) then set_isClimbing false p else p.

(** The movement part of [handleInput]: what it assigns to [player]
    before the jump and dig blocks. *)
Definition handleMovement (s : State) : Entity :=
  let left := keyDown (keyStates s) KEY_A || keyDown (specialKeyStates s) GLUT_KEY_LEFT in
  let right := keyDown (keyStates s) KEY_D || keyDown (specialKeyStates s) GLUT_KEY_RIGHT in
  let up := keyDown (keyStates s) KEY_W || keyDown (specialKeyStates s) GLUT_KEY_UP in
  let down := keyDown (keyStates s) KEY_S || keyDown (specialKeyStates s) GLUT_KEY_DOWN in
  let p := set_vx (i2f 0) (player s) in
  let onLadder := isOnLadder s p in
  let p := set_isOnRope (checkOnRope s p) p in
  let p := if left then moveSideways false p else p in
  let p := if right then moveSideways true p else p in
  let p :=
    if onLadder then
      let p := set_isFalling false p in
      let p := set_isOnRope false p in
      if up then set_isClimbing true (set_vy CLIMB_SPEED p)
      else if down then set_isClimbing true (set_vy (- CLIMB_SPEED)%f32 p)
      else set_isClimbing false (set_vy (i2f 0) p)
    else set_isClimbing false p in
  if isOnRope p then
    let playerGridY := getGridY (posY p + TILE_SIZE * flit 1 10)%f32 in
    let playerGridX := getGridX (posX p + TILE_SIZE * flit 4 10)%f32 in
    if levelAt (level s) playerGridX playerGridY ==t ROPE then
      set_isFalling false (set_isClimbing false (set_vy (i2f 0) p))
    else p
  else p.

(** The guarded call of [digHole] made for a dig key. *)
Definition tryDig (targetX targetY : Z) (s : State) : State :=
  if (levelAt (level s) targetX targetY ==t BRICK)
     && negb (isSome (dugHoles s !! (targetX, targetY)))
  then digHole targetX targetY s
  else s.

Definition handleInput (deltaTime : float) (s : State) : State :=
  if gameOver s || gameWon s || isTrapped (player s) || negb (isAlive (player s))
  then s
  else
    let s := set_player (handleMovement s) s in
    let groundCheck := isOnGround s ThePlayer (player s) in
    let s :=
      if keyDown (keyStates s) KEY_SPACE && groundCheck
         && negb (isClimbing (player s)) && negb (isOnRope (player s))
         && negb (isFalling (player s))
      then
        let p := set_vy JUMP_FORCE (player s) in
        let p := set_isJumping true p in
        let p := set_isFalling false p in
        set_keyStates (<[KEY_SPACE := false]> (keyStates s)) (set_player p s)
      else s in
    let p := player s in
    let playerGridX := getGridX (posX p + TILE_SIZE * flit 4 10)%f32 in
    let playerGridY := getGridY (posY p) in
    let checkYBelow := (posY p - i2f 1)%f32 in
    let tileBelow := getTileAt s (posX p + TILE_SIZE * flit 4 10)%f32 checkYBelow in
    let canStand :=
      (tileBelow ==t BRICK) || (tileBelow ==t SOLID_BRICK) ||
      (tileBelow ==t LADDER) || (tileBelow ==t ROPE) ||
      isOnLadder s p || checkOnRope s p in
    if canStand && negb (isFalling p) && negb (isClimbing p) then
      let targetY := playerGridY - 1 in
      if keyDown (keyStates s) KEY_Q then
        let targetX := playerGridX - 1 in
        let s := if (targetX >=? 0) && (targetY >=? 0)
                 then tryDig targetX targetY s else s in
        set_keyStates (<[KEY_Q := false]> (keyStates s)) s
      else if keyDown (keyStates s) KEY_E then
        let targetX := playerGridX + 1 in
        let s := if (targetX <? GRID_WIDTH) && (targetY >=? 0)
                 then tryDig targetX targetY s else s in
        set_keyStates (<[KEY_E := false]> (keyStates s)) s
      else s
    else s.

(** ** The player's tick *)

(** One step of the pick-up loop, at offset [(dx, dy)] from the centre
    cell. *)
Definition collectAt (centerGridX centerGridY : Z) (s : State) (d : Z * Z)
  : State :=
  let '(dx, dy) := d in
  let checkX := centerGridX + dx in
  let checkY := centerGridY + dy in
  if inBounds checkX checkY then
    if collectibleAt (collectibles s) checkX checkY =? 1 then
      let collectibleX := (i2f checkX * TILE_SIZE + TILE_SIZE * flit 2 10)%f32 in
      let collectibleY := (i2f checkY * TILE_SIZE + TILE_SIZE * flit 2 10)%f32 in
      let collectibleSize := (TILE_SIZE * flit 6 10)%f32 in
      if isColliding (posX (player s)) (posY (player s))
           (TILE_SIZE * flit 8 10)%f32 (TILE_SIZE * flit 95 100)%f32
           collectibleX collectibleY collectibleSize collectibleSize
      then
        set_score (score s + POINTS_PER_COLLECTIBLE)
          (set_collectiblesCollected (collectiblesCollected s + 1)
            (set_collectibles
               (setCollectibleAt (collectibles s) checkX checkY 0) s))
      else s
    else s
  else s.

(** The offsets in the order of the two nested loops, [dx] outermost. *)
Definition pickupOffsets : list (Z * Z) :=
  [(-1, -1); (-1, 0); (-1, 1); (0, -1); (0, 0); (0, 1); (1, -1); (1, 0); (1, 1)].

(** "Check Win Condition". *)
Definition checkExitReached (s : State) : State :=
  let p := player s in
  let playerCenterX := (posX p + (TILE_SIZE * flit 8 10) / i2f 2)%f32 in
  if levelComplete s && negb (gameWon s) then
    let topGridY := GRID_HEIGHT - 1 in
    let playerHeadGridY := getGridY (posY p + TILE_SIZE * flit 9 10)%f32 in
    if playerHeadGridY >=? topGridY - 1 then
      let tileAtHead := getTileAt s playerCenterX (posY p + TILE_SIZE * flit 9 10)%f32 in
      let tileAtFeet := getTileAt s playerCenterX (posY p + i2f 1)%f32 in
      if (tileAtHead ==t EXIT_LADDER) || (tileAtFeet ==t EXIT_LADDER)
      then set_gameWon true s
      else s
    else s
  else s.

Definition updatePlayer (deltaTime : float) (s : State) : State :=
  if negb (isAlive (player s)) then s
  else
    let s := updatePhysics ThePlayer deltaTime s in
    let p := player s in
    let playerCenterX := (posX p + (TILE_SIZE * flit 8 10) / i2f 2)%f32 in
    let playerCenterY := (posY p + (TILE_SIZE * flit 95 100) / i2f 2)%f32 in
    let centerGridX := getGridX playerCenterX in
    let centerGridY := getGridY playerCenterY in
    let s := foldl (collectAt centerGridX centerGridY) s pickupOffsets in
    checkExitReached s.

(** ** Enemies *)

(** [rand()]: the next value of the tape. *)
Definition rand (s : State) : Z * State :=
  (randTape s (randPos s), set_randPos (S (randPos s)) s).

(** [(rand() % 2 == 0 ? 1 : -1) * ENEMY_SPEED / 2.0f] for a drawn value. *)
Definition randomStartVx (drawn : Z) : float :=
  let sign : Z := if Z.rem drawn 2 =? 0 then 1 else -1 in
  (i2f sign * ENEMY_SPEED / i2f 2)%f32.

(** The respawn of a dead enemy whose timer has run out. *)
Definition respawnEnemy (drawn : Z) (en : Entity) : Entity :=
  let en := set_posX (i2f (startGridX en) * TILE_SIZE + TILE_SIZE * flit 1 10)%f32 en in
  let en := set_posY (i2f (startGridY en) * TILE_SIZE)%f32 en in
  let en := set_vx (randomStartVx drawn) en in
  let en := set_vy (i2f 0) en in
  let en := set_isClimbing false en in
  let en := set_isOnRope false en in
  let en := set_isFalling false en in
  let en := set_faceRight (vx en >? i2f 0)%f32 en in
  let en := set_isTrapped false en in
  let en := set_trappedTimer (i2f 0) en in
  let en := set_isAlive true en in
  set_respawnTimer (i2f 0) en.

(** The scan for a ladder above the head: rows [y], [y+1], ... below
    [GRID_HEIGHT], [n] of them, stopping at a ladder or at a brick. *)
Fixpoint ladderAboveFrom (s : State) (enemyCenterX : float) (y : Z) (n : nat)
  : bool :=
  match n with
  | O => false
  | S n' =>
      let t := getTileAt s enemyCenterX (i2f y * TILE_SIZE + i2f 1)%f32 in
      if t ==t LADDER then true
      else if isSolid t then false
      else ladderAboveFrom s enemyCenterX (y + 1) n'
  end.

(** What the AI decides for one enemy: the desired velocity and whether it
    wants to climb. *)
Record Intent : Type := mkIntent {
  desiredVX : float;
  desiredVY : float;
  wantsToClimb : bool
}.

(** The pursuit step that every horizontal branch repeats with its own
    speed: towards the player if the way is free, else [desiredVX] keeps
    its initial 0. *)
Definition chase (diffX speed : float) (canMoveLeft canMoveRight : bool) : float :=
  if (diffX >? TILE_SIZE * flit 2 10)%f32 && canMoveRight then speed
  else if (diffX <? (- TILE_SIZE) * flit 2 10)%f32 && canMoveLeft then (- speed)%f32
  else i2f 0.

(** "AI Decision Making" up to the hazard test.  [en] is [enemies[i]]
    with [isOnRope] already updated; the result carries the entity
    because the rope branch writes its position.  The two thresholds
    [TILE_SIZE * 0.75] and [TILE_SIZE * 1.5] are computed in [double] by
    the source; both products (30 and 60) are exact in either format, so
    the comparisons agree with the single-precision ones. *)
Definition decideEnemy (s : State) (en : Entity) : Intent * Entity :=
  let targetX := posX (player s) in
  let targetY := posY (player s) in
  let enemyX := posX en in
  let enemyY := posY en in
  let diffX := (targetX - enemyX)%f32 in
  let diffY := (targetY - enemyY)%f32 in
  let enemyWidth := (TILE_SIZE * flit 8 10)%f32 in
  let enemyHeight := (TILE_SIZE * flit 95 100)%f32 in
  let enemyCenterX := (enemyX + enemyWidth / i2f 2)%f32 in
  let enemyFeetY := enemyY in
  let enemyHeadY := (enemyY + enemyHeight)%f32 in
  let enemyHeadGridY := getGridY enemyHeadY in
  let enemyOnLadder := isOnLadder s en in
  let enemyOnRope := isOnRope en in
  let ladderAtFeet := getTileAt s enemyCenterX enemyFeetY ==t LADDER in
  let ladderBelow :=
    (getTileAt s enemyCenterX (enemyFeetY - i2f 1)%f32 ==t LADDER) || ladderAtFeet in
  let ladderAbove :=
    ladderAboveFrom s enemyCenterX enemyHeadGridY
      (Z.to_nat (GRID_HEIGHT - enemyHeadGridY)) in
  let ropeAtLevel :=
    getTileAt s enemyCenterX (enemyY + enemyHeight * flit 5 10)%f32 ==t ROPE in
  let canMoveLeft :=
    canMoveTo s (enemyX - i2f 1)%f32 enemyY enemyWidth enemyHeight
      enemyOnRope enemyOnLadder in
  let canMoveRight :=
    canMoveTo s (enemyX + i2f 1)%f32 enemyY enemyWidth enemyHeight
      enemyOnRope enemyOnLadder in
  if (fabs diffY >? TILE_SIZE * flit 75 100)%f32 then
    if (diffY >? i2f 0)%f32 && ladderAbove then
      (mkIntent (i2f 0) CLIMB_SPEED true, en)
    else if (diffY <? i2f 0)%f32 && ladderBelow then
      (mkIntent (i2f 0) (- CLIMB_SPEED)%f32 true, en)
    else if ropeAtLevel && (fabs diffY <? TILE_SIZE * flit 15 10)%f32 then
      (mkIntent (chase diffX ROPE_SPEED canMoveLeft canMoveRight) (i2f 0) false, en)
    else
      (mkIntent (chase diffX ENEMY_SPEED canMoveLeft canMoveRight) (i2f 0) false, en)
  else
    if enemyOnRope then
      let ropeGridY := getGridY (enemyY + enemyHeight * flit 5 10)%f32 in
      let en :=
        if (ropeGridY >=? 0) && (ropeGridY <? GRID_HEIGHT) then
          let targetRopeY := (i2f ropeGridY * TILE_SIZE)%f32 in
          let en :=
            if (fabs (posY en - targetRopeY) >? i2f 1)%f32
            then set_posY (posY en + (targetRopeY - posY en) * flit 1 10)%f32 en
            else en in
          set_isFalling false (set_vy (i2f 0) en)
        else en in
      (mkIntent (chase diffX ROPE_SPEED canMoveLeft canMoveRight) (i2f 0) false, en)
    else if ladderAtFeet && (fabs diffX <? TILE_SIZE * flit 6 10)%f32 then
      (mkIntent (chase diffX (ENEMY_SPEED / i2f 2)%f32 canMoveLeft canMoveRight)
                (i2f 0) false, en)
    else
      (mkIntent (chase diffX ENEMY_SPEED canMoveLeft canMoveRight) (i2f 0) false, en).

(** "Hazard Avoidance": the horizontal velocity the enemy ends up with.
    [enemyX], [enemyY] and [enemyOnRope] are the locals read at the top
    of the loop body, [en] is the enemy after the decision. *)
Definition avoidHazard (s : State) (enemyX enemyY : float) (enemyOnRope : bool)
    (en : Entity) (it : Intent) : float :=
  let enemyWidth := (TILE_SIZE * flit 8 10)%f32 in
  let enemyCenterX := (enemyX + enemyWidth / i2f 2)%f32 in
  let enemyFeetY := enemyY in
  let enemyGridY := getGridY enemyFeetY in
  let diffY := (posY (player s) - enemyY)%f32 in
  if negb (wantsToClimb it) && negb enemyOnRope
     && (desiredVX it <>? i2f 0)%f32 && negb (isFalling en) then
    let nextX := (enemyCenterX + (if (desiredVX it >? i2f 0)%f32
                                  then TILE_SIZE * flit 6 10
                                  else (- TILE_SIZE) * flit 6 10))%f32 in
    let checkYBelowNext := (enemyFeetY - i2f 1)%f32 in
    let tileBelowNext := getTileAt s nextX checkYBelowNext in
    let tileAtNextFeet := getTileAt s nextX enemyFeetY in
    let holeBelowNext :=
      isSome (dugHoles s !! (getGridX nextX, getGridY checkYBelowNext)) in
    let emptyBelowNext := (tileBelowNext ==t EMPTY) && negb holeBelowNext in
    let vx1 :=
      if emptyBelowNext && negb (tileAtNextFeet ==t LADDER)
         && negb (tileAtNextFeet ==t ROPE)
      then if (diffY >? - TILE_SIZE)%f32 then i2f 0 else desiredVX it
      else desiredVX it in
    let holeAtNextFeet := isSome (dugHoles s !! (getGridX nextX, enemyGridY)) in
    if holeAtNextFeet && negb (tileAtNextFeet ==t LADDER)
       && negb (tileAtNextFeet ==t ROPE)
    then i2f 0 else vx1
  else desiredVX it.

(** The enemy handed to [updatePhysics]: decision, hazard test and the
    assignments of "Set final velocities". *)
Definition steerEnemy (s : State) (en0 : Entity) : Entity :=
  let enemyX := posX en0 in
  let enemyY := posY en0 in
  let enemyOnRope := checkOnRope s en0 in
  let en := set_isOnRope enemyOnRope en0 in
  let '(it, en) := decideEnemy s en in
  let finalVX := avoidHazard s enemyX enemyY enemyOnRope en it in
  let en := set_vx finalVX en in
  let en := set_vy (desiredVY it) en in
  let en := set_isClimbing (wantsToClimb it) en in
  if (finalVX <>? i2f 0)%f32 then set_faceRight (finalVX >? i2f 0)%f32 en else en.

(** The test of "Check Collision with Player", after the physics of
    enemy [i]. *)
Definition touchesPlayer (s : State) (i : nat) : bool :=
  let p := player s in
  let en := getEntity (TheEnemy i) s in
  negb (isTrapped p) &&
  isColliding (posX p) (posY p) (TILE_SIZE * flit 8 10)%f32 (TILE_SIZE * flit 95 100)%f32
    (posX en) (posY en) (TILE_SIZE * flit 8 10)%f32 (TILE_SIZE * flit 95 100)%f32.

(** The player is caught by enemy [i]: a life is lost and, unless it was
    the last, both go back to their start cells. *)
Definition catchPlayer (i : nat) (s : State) : State :=
  let s := set_lives (lives s - 1) s in
  if lives s <=? 0 then set_gameOver true s
  else
    let p := player s in
    let p := set_posX (i2f (startGridX p) * TILE_SIZE + TILE_SIZE * flit 1 10)%f32 p in
    let p := set_posY (i2f (startGridY p) * TILE_SIZE)%f32 p in
    let p := set_vx (i2f 0) p in
    let p := set_vy (i2f 0) p in
    let p := set_isFalling false p in
    let p := set_isTrapped false p in
    let p := set_isJumping false p in
    let s := set_player p s in
    let '(drawn, s) := rand s in
    let en := getEntity (TheEnemy i) s in
    let en := set_posX (i2f (startGridX en) * TILE_SIZE + TILE_SIZE * flit 1 10)%f32 en in
    let en := set_posY (i2f (startGridY en) * TILE_SIZE)%f32 en in
    let en := set_vx (randomStartVx drawn) en in
    let en := set_isAlive true en in
    let en := set_isTrapped false en in
    let en := set_vy (i2f 0) en in
    let en := set_isClimbing false en in
    let en := set_isOnRope false en in
    let en := set_isFalling false en in
    let en := set_faceRight (vx en >? i2f 0)%f32 en in
    setEntity (TheEnemy i) en s.

(** The body of the loop of [updateEnemies] for index [i]. *)
Definition updateEnemy (deltaTime : float) (s : State) (i : nat) : State :=
  let en := getEntity (TheEnemy i) s in
  if negb (isAlive en) then
    let en := set_respawnTimer (respawnTimer en - deltaTime)%f32 en in
    if (respawnTimer en <=? i2f 0)%f32 then
      let '(drawn, s) := rand s in
      setEntity (TheEnemy i) (respawnEnemy drawn en) s
    else setEntity (TheEnemy i) en s
  else if isTrapped en then updatePhysics (TheEnemy i) deltaTime s
  else
    let s := setEntity (TheEnemy i) (steerEnemy s en) s in
    let s := updatePhysics (TheEnemy i) deltaTime s in
    if touchesPlayer s i then
      if negb (gameOver s) && negb (gameWon s) then catchPlayer i s else s
    else s.

Definition updateEnemies (deltaTime : float) (s : State) : State :=
  foldl (updateEnemy deltaTime) s (seq 0 numEnemies).

(** ** Hole refill *)

(** [std::pair]'s ordering of the map keys. *)
Definition keyLeb (a b : Z * Z) : bool :=
  (a.1 <? b.1) || ((a.1 =? b.1) && (a.2 <=? b.2)).

Definition entryLe (a b : Z * Z * DugHole) : Prop := keyLeb a.1 b.1 = true.

#[global] Instance entryLe_dec : RelDecision entryLe.
Proof. intros a b. unfold entryLe. apply _. Defined.

(** The entries of the registry in the order an iterator visits them. *)
Definition holeEntries (m : gmap (Z * Z) DugHole) : list (Z * Z * DugHole) :=
  merge_sort entryLe (map_to_list m).

(** The entity stands, trapped, in cell [(x, y)]: the test the refill
    makes for the player and for each enemy. *)
Definition trappedAt (x y : Z) (e : Entity) : bool :=
  isTrapped e && (getGridX (posX e + TILE_SIZE * flit 4 10)%f32 =? x)
              && (getGridY (posY e) =? y).

Definition freePlayer (p : Entity) : Entity :=
  let p := set_isTrapped false p in
  let p := set_posY (posY p + i2f 5)%f32 p in
  set_isFalling true p.

(** The refill of an expired hole whose cell is inside the grid. *)
Definition refillHole (hole : DugHole) (s : State) : State :=
  let x := holeX hole in
  let y := holeY hole in
  let s := set_level (setLevelAt (level s) x y (originalType hole)) s in
  let s := if trappedAt x y (player s)
           then set_player (freePlayer (player s)) s else s in
  set_enemies
    (map (fun en => if isAlive en && trappedAt x y en then killEnemy en else en)
         (enemies s)) s.

(** The body of the loop of [updateDigging] for one entry. *)
Definition updateHole (deltaTime : float) (s : State) (entry : Z * Z * DugHole)
  : State :=
  let '(key, hole) := entry in
  let hole := {| holeX := holeX hole; holeY := holeY hole;
                 timer := (timer hole - deltaTime)%f32;
                 originalType := originalType hole |} in
  if (timer hole <=? i2f 0)%f32 then
    let s := if inBounds (holeX hole) (holeY hole) then refillHole hole s
             else s in
    set_dugHoles (delete key (dugHoles s)) s
  else set_dugHoles (<[key := hole]> (dugHoles s)) s.

Definition updateDigging (deltaTime : float) (s : State) : State :=
  foldl (updateHole deltaTime) s (holeEntries (dugHoles s)).

(** ** Level completion *)

(** The first loop of [revealExitLadder], for column [x]. *)
Definition revealAbove (lvl : list (list TileType)) (x : Z)
  : list (list TileType) :=
  if levelAt lvl x (GRID_HEIGHT - 2) ==t LADDER then
    if (levelAt lvl x (GRID_HEIGHT - 1) ==t EMPTY)
       || (levelAt lvl x (GRID_HEIGHT - 1) ==t LADDER)
    then setLevelAt lvl x (GRID_HEIGHT - 1) EXIT_LADDER
    else lvl
  else lvl.

(** The columns [0 .. GRID_WIDTH-1]. *)
Definition columns : list Z := map Z.of_nat (seq 0 (Z.to_nat GRID_WIDTH)).

Definition revealExitLadder (s : State) : State :=
  let lvl := foldl revealAbove (level s) columns in
  let foundExit :=
    existsb (fun x => levelAt lvl x (GRID_HEIGHT - 1) ==t EXIT_LADDER) columns in
  let lvl :=
    if negb foundExit then
      let centerX := GRID_WIDTH / 2 in
      if (levelAt lvl centerX (GRID_HEIGHT - 2) ==t LADDER)
         || (levelAt lvl centerX (GRID_HEIGHT - 2) ==t EMPTY)
      then setLevelAt lvl centerX (GRID_HEIGHT - 1) EXIT_LADDER
      else lvl
    else lvl in
  set_level lvl s.

Definition checkLevelCompletion (s : State) : State :=
  if negb (levelComplete s)
     && (collectiblesCollected s >=? totalCollectibles s)
     && (totalCollectibles s >? 0)
  then revealExitLadder (set_levelComplete true s)
  else s.

(** ** Initialisation *)

(** The strings of [levelLayout]; the first is the top row. *)
Definition levelLayout : list string :=
  [ "SSSSSSSSSSSSSSSSSSSS";
    "SEEEEEEEEEEEEEEEEEES";
    "SCBBCBBLBBBBBLBBCBCS";
    "SLRRRRRLRRRRRLRRRRRS";
    "SL C C L C C L C C LS";
    "SCBBLBBBLELBBBBLBBBS";
    "SRRRRR C L C C RRCRRS";
    "SE E E B L B E E E ES";
    "SBBBEBBBLBLBBBBBBBBS";
    "SC RRRR L L RRRRR CS";
    "SE E E B L B E E E ES";
    "SBCBEBBBLBLBBBEBBEBS";
    "SXXXXXXELPBLXXXXXXBS";
    "SEEEEE B B B EEEEEES";
    "SSSSSSSSSSSSSSSSSSSS" ]%string.

(** What the scan of the layout accumulates. *)
Record LayoutScan : Type := mkLayoutScan {
  scanLevel : list (list TileType);
  scanCollectibles : list (list Z);
  scanTotal : Z;
  scanPlayerStart : Z * Z;
  scanEnemyStarts : list (Z * Z)
}.

(** The [switch] on the layout character of cell [(x, y)]. *)
Definition placeTile (x y : Z) (tileChar : ascii) (a : LayoutScan) : LayoutScan :=
  let put t := setLevelAt (scanLevel a) x y t in
  match tileChar with
  | "S"%char => mkLayoutScan (put SOLID_BRICK) (scanCollectibles a) (scanTotal a)
                  (scanPlayerStart a) (scanEnemyStarts a)
  | "B"%char => mkLayoutScan (put BRICK) (scanCollectibles a) (scanTotal a)
                  (scanPlayerStart a) (scanEnemyStarts a)
  | "L"%char => mkLayoutScan (put LADDER) (scanCollectibles a) (scanTotal a)
                  (scanPlayerStart a) (scanEnemyStarts a)
  | "R"%char => mkLayoutScan (put ROPE) (scanCollectibles a) (scanTotal a)
                  (scanPlayerStart a) (scanEnemyStarts a)
  | "C"%char =>
      let cy := if y + 1 <? GRID_HEIGHT then y + 1 else y in
      mkLayoutScan (put BRICK) (setCollectibleAt (scanCollectibles a) x cy 1)
        (scanTotal a + 1) (scanPlayerStart a) (scanEnemyStarts a)
  | "P"%char => mkLayoutScan (put EMPTY) (scanCollectibles a) (scanTotal a)
                  (x, y) (scanEnemyStarts a)
  | "X"%char => mkLayoutScan (put EMPTY) (scanCollectibles a) (scanTotal a)
                  (scanPlayerStart a) (scanEnemyStarts a ++ [(x, y)])
  | _ => mkLayoutScan (put EMPTY) (scanCollectibles a) (scanTotal a)
           (scanPlayerStart a) (scanEnemyStarts a)
  end.

(** The rows [0 .. GRID_HEIGHT-1]. *)
Definition rows : list Z := map Z.of_nat (seq 0 (Z.to_nat GRID_HEIGHT)).

Definition scanRow (layout : list string) (a : LayoutScan) (y : Z) : LayoutScan :=
  let layoutHeight := Z.of_nat (length layout) in
  let layoutY := layoutHeight - 1 - y in
  if (layoutY <? 0) || (layoutY >=? layoutHeight) then a
  else
    let row := default EmptyString (layout !! Z.to_nat layoutY) in
    foldl (fun a x =>
             match String.get (Z.to_nat x) row with
             | Some tileChar => placeTile x y tileChar a
             | None => a
             end) a columns.

Definition scanLayout (layout : list string) : LayoutScan :=
  let start :=
    {| scanLevel := replicate (Z.to_nat GRID_HEIGHT)
                      (replicate (Z.to_nat GRID_WIDTH) EMPTY);
       scanCollectibles := replicate (Z.to_nat GRID_HEIGHT)
                             (replicate (Z.to_nat GRID_WIDTH) 0);
       scanTotal := 0;
       scanPlayerStart := (1, 3);
       scanEnemyStarts := [] |} in
  foldl (scanRow layout) start rows.

(** The start cell [initLevel] gives enemy [i]. *)
Definition enemyStart (starts : list (Z * Z)) (i : nat) : Z * Z :=
  match starts with
  | [] => (GRID_WIDTH - 2 - Z.of_nat i, 2)
  | _ => default (0, 0) (starts !! (i mod length starts)%nat)
  end.

Definition initLevel (s : State) : State :=
  let a := scanLayout levelLayout in
  let s := set_totalCollectibles (scanTotal a) s in
  let s := set_levelComplete false s in
  let s := set_level (scanLevel a) s in
  let s := set_collectibles (scanCollectibles a) s in
  let p := set_startGridY (scanPlayerStart a).2
             (set_startGridX (scanPlayerStart a).1 (player s)) in
  let s := set_player p s in
  set_enemies
    (imap (fun i en =>
             set_startGridY (enemyStart (scanEnemyStarts a) i).2
               (set_startGridX (enemyStart (scanEnemyStarts a) i).1 en))
          (enemies s)) s.

Definition initPlayer (p : Entity) : Entity :=
  let p := set_posX (i2f (startGridX p) * TILE_SIZE + TILE_SIZE * flit 1 10)%f32 p in
  let p := set_posY (i2f (startGridY p) * TILE_SIZE)%f32 p in
  let p := set_vx (i2f 0) p in
  let p := set_vy (i2f 0) p in
  let p := set_isJumping false p in
  let p := set_isClimbing false p in
  let p := set_isOnRope false p in
  let p := set_isFalling false p in
  let p := set_faceRight true p in
  let p := set_isTrapped false p in
  let p := set_trappedTimer (i2f 0) p in
  let p := set_isAlive true p in
  set_respawnTimer (i2f 0) p.

(** The body of the enemy loop of [initEntities]; the assignments are
    those of a respawn. *)
Definition initEnemy (s : State) (i : nat) : State :=
  let '(drawn, s) := rand s in
  setEntity (TheEnemy i) (respawnEnemy drawn (getEntity (TheEnemy i) s)) s.

Definition initEntities (s : State) : State :=
  let s := set_player (initPlayer (player s)) s in
  foldl initEnemy s (seq 0 numEnemies).

(** [init()].  [srand(time(0))] starts a new random sequence: [tape]. *)
Definition init (tape : nat -> Z) (s : State) : State :=
  let s := set_randPos 0%nat (set_randTape tape s) in
  let s := initLevel s in
  let s := initEntities s in
  let s := set_score 0 s in
  let s := set_lives INITIAL_LIVES s in
  let s := set_collectiblesCollected 0 s in
  let s := set_gameOver false s in
  let s := set_gameWon false s in
  let s := set_levelComplete false s in
  let s := set_dugHoles ∅ s in
  set_gameTime (i2f 0) s.

Definition resetGame (tape : nat -> Z) (s : State) : State := init tape s.

(** The globals as the program starts, before [init()]. *)
Definition bootState : State :=
  {| player := noEntity;
     enemies := replicate MAX_ENEMIES noEntity;
     level := replicate (Z.to_nat GRID_HEIGHT) (replicate (Z.to_nat GRID_WIDTH) EMPTY);
     dugHoles := ∅;
     gameOver := false;
     gameWon := false;
     levelComplete := false;
     keyStates := replicate 256 false;
     specialKeyStates := replicate 256 false;
     collectibles := replicate (Z.to_nat GRID_HEIGHT) (replicate (Z.to_nat GRID_WIDTH) 0);
     collectiblesCollected := 0;
     totalCollectibles := 0;
     score := 0;
     lives := INITIAL_LIVES;
     gameTime := i2f 0;
     randTape := fun _ => 0;
     randPos := 0%nat |}.

(** ** The tick *)

(** [update]: [elapsed] is the wall-clock time since the last call. *)
Definition update (elapsed : float) (s : State) : State :=
  let maxDeltaTime := flit 1 10 in
  let deltaTime := if (elapsed >? maxDeltaTime)%f32 then maxDeltaTime else elapsed in
  let s := set_gameTime (gameTime s + deltaTime)%f32 s in
  if negb (gameOver s) && negb (gameWon s) then
    let s := handleInput deltaTime s in
    let s := updatePlayer deltaTime s in
    let s := updateEnemies deltaTime s in
    let s := updateDigging deltaTime s in
    checkLevelCompletion s
  else s.

(** [tolower] on a key code, in the C locale. *)
Definition tolower (key : nat) : nat :=
  if (65 <=? key)%nat && (key <=? 90)%nat then (key + 32)%nat else key.

(** [keyboardDown]; [None] is the call of [exit(0)] on ESC.  [tape] is the
    random sequence a reset would start. *)
Definition keyboardDown (key : nat) (tape : nat -> Z) (s : State) : option State :=
  let s := set_keyStates (<[tolower key := true]> (keyStates s)) s in
  if (key =? 27)%nat then None
  else if (gameOver s || gameWon s) && keyDown (keyStates s) KEY_R
       then Some (resetGame tape s)
       else Some s.


Definition keyboardUp (key : nat) (s : State) : State :=
  set_keyStates (<[tolower key := false]> (keyStates s)) s.

Definition specialKeyDown (key : nat) (s : State) : State :=
  set_specialKeyStates (<[key := true]> (specialKeyStates s)) s.

Definition specialKeyUp (key : nat) (s : State) : State :=
  set_specialKeyStates (<[key := false]> (specialKeyStates s)) s.

(** ** The program as a sequence of callbacks *)

(** What the GLUT main loop delivers: a timer callback with the time
    elapsed since the last one, or a key event.  A key press carries the
    random sequence a reset triggered by it would start. *)
Inductive Event : Type :=
  | Tick (elapsed : float)
  | KeyDown (key : nat) (tape : nat -> Z)
  | KeyUp (key : nat)
  | SpecialDown (key : nat)
  | SpecialUp (key : nat).

(** One callback; [None] when the program exits. *)
Definition step (ev : Event) (s : State) : option State :=
  match ev with
  | Tick elapsed => Some (update elapsed s)
  | KeyDown key tape => keyboardDown key tape s
  | KeyUp key => Some (keyboardUp key s)
  | SpecialDown key => Some (specialKeyDown key s)
  | SpecialUp key => Some (specialKeyUp key s)
  end.

(** A run of callbacks from [s]. *)
Fixpoint run (evs : list Event) (s : State) : option State :=
  match evs with
  | [] => Some s
  | ev :: evs' =>
      match step ev s with
      | Some s' => run evs' s'
      | None => None
      end
  end.

(** * Specification vocabulary *)

(** ** Well-formed states *)

(** An entry of the registry as [digHole] makes it: filed under its own
    cell, inside the grid, and recording a brick. *)
Definition holeOk (k : Z * Z) (h : DugHole) : bool :=
  (holeX h =? k.1) && (holeY h =? k.2) && inBounds k.1 k.2
  && (originalType h ==t BRICK).

Definition holesWf (m : gmap (Z * Z) DugHole) : Prop :=
  map_Forall (fun k h => holeOk k h = true) m.

(** The grid has its [GRID_HEIGHT] rows of [GRID_WIDTH] tiles. *)
Definition levelWf (lvl : list (list TileType)) : Prop :=
  length lvl = Z.to_nat GRID_HEIGHT /\
  Forall (fun row => length row = Z.to_nat GRID_WIDTH) lvl.


(** ** Concrete states used as examples *)

(** The game as [init()] leaves it, every [rand()] returning 0. *)
Definition startState : State := init (fun _ => 0) bootState.

(** The start state after a dig at the brick of cell (7, 1). *)
Definition dugState : State := digHole 7 1 startState.

(** ** Vocabulary of the physics claims *)

(** The entity [r] of [s] as [updatePhysics] has it when it reaches the
    hole test: moved, collided and clamped to the window. *)
Definition beforeHoleCheck (r : EntityRef) (deltaTime : float) (s : State) : Entity :=
  (boundaryChecks r (moveEntity s r (getEntity r s) deltaTime)
     (lives s) (gameOver s)).1.1.

(** The cell of the entity's feet, as the hole test computes it. *)
Definition feetCell (e : Entity) : Z * Z :=
  (getGridX (posX e + (TILE_SIZE * flit 8 10) / i2f 2)%f32,
   getGridY (posY e + i2f 1)%f32).

(** The entity is still falling when the hole test looks at it: its flag
    is set and the landing reset just before the test does not clear
    it. *)
Definition fallingInto (s : State) (r : EntityRef) (e : Entity) : bool :=
  isFalling e && negb ((vy e =? i2f 0)%f32 && isOnGround s r e).

(** The cell a trapped entity occupies, as the trapped branch and the
    refill compute it. *)
Definition trapCell (e : Entity) : Z * Z :=
  (getGridX (posX e + TILE_SIZE * flit 4 10)%f32, getGridY (posY e)).

(** The frame time of the examples, 16 ms. *)
Definition frameTime : float := flit 16 1000.

(** The dug state with the player dropped over the hole of cell (7, 1),
    a little above the floor of row 2 and moving down. *)
Definition fallingState : State :=
  let p := player dugState in
  let p := set_posX (i2f 284) p in
  let p := set_posY (flit 805 10) p in
  let p := set_vy (i2f (-100)) p in
  let p := set_isFalling true p in
  set_player p dugState.

(** One physics step later the player sits in the hole. *)
Definition trappedState : State := updatePhysics ThePlayer frameTime fallingState.

(** The trapped player with 10 ms left on its own timer while the hole
    still has most of its seven seconds. *)
Definition expiringState : State :=
  set_player (set_trappedTimer (flit 1 100) (player trappedState)) trappedState.

(** ** Vocabulary of the horizontal collision claim *)

(** The position the horizontal test snaps to: the right edge of the
    tile hit when moving left, the left edge less the box width when
    moving right. *)
Definition snapX (e : Entity) (newX : float) : float :=
  let entityWidth := (TILE_SIZE * flit 8 10)%f32 in
  if (vx e <? i2f 0)%f32
  then (i2f (getGridX newX + 1) * TILE_SIZE)%f32
  else (i2f (getGridX (newX + entityWidth)%f32) * TILE_SIZE - entityWidth)%f32.

(** The start state with the player hanging on the rope of row 11, six
    pixels above the row's base, in column 2.5 and sliding left. *)
Definition ropeState : State :=
  let p := player startState in
  let p := set_posX (i2f 100) p in
  let p := set_posY (i2f 446) p in
  let p := set_vx (- ROPE_SPEED)%f32 p in
  let p := set_isOnRope true p in
  set_player p startState.

(** ** Vocabulary of the refill claim *)

(** The entry's timer, decremented by the tick, has run out. *)
Definition expired (deltaTime : float) (h : DugHole) : bool :=
  (timer h - deltaTime <=? i2f 0)%f32.

(** The entry with its timer decremented. *)
Definition tickHole (deltaTime : float) (h : DugHole) : DugHole :=
  {| holeX := holeX h; holeY := holeY h;
     timer := (timer h - deltaTime)%f32; originalType := originalType h |}.

(** What one visited entry does to one entity: [release] is applied if
    the entry has expired, lies in the grid, and the entity is
    [eligible] and trapped in the entry's cell.  For the player
    [release] is [freePlayer] and every state is eligible; for an enemy
    it is [killEnemy] and the enemy must be alive. *)
Definition releaseBy (release : Entity -> Entity) (eligible : Entity -> bool)
    (deltaTime : float) (e : Entity) (entry : Z * Z * DugHole) : Entity :=
  if expired deltaTime entry.2 && inBounds (holeX entry.2) (holeY entry.2)
     && eligible e && trappedAt (holeX entry.2) (holeY entry.2) e
  then release e else e.

(** A trapped enemy standing in cell [(gx, gy)]. *)
Definition trappedEnemyAt (gx gy : Z) (en : Entity) : Entity :=
  let en := set_posX (i2f gx * TILE_SIZE + (TILE_SIZE - TILE_SIZE * flit 8 10) / i2f 2)%f32 en in
  let en := set_posY (i2f gy * TILE_SIZE)%f32 en in
  let en := set_vx (i2f 0) en in
  let en := set_isFalling false en in
  set_isTrapped true en.

(** The last moment of two holes: the player sits trapped in the hole of
    cell (7, 1) and enemy 0 in that of cell (9, 1), both holes with 10 ms
    left; a third hole, at (11, 1), is fresh. *)
Definition refillState : State :=
  let hole gx t := {| holeX := gx; holeY := 1; timer := t; originalType := BRICK |} in
  let s := set_dugHoles
             (<[(7, 1) := hole 7 (flit 1 100)]>
                (<[(9, 1) := hole 9 (flit 1 100)]>
                   (<[(11, 1) := hole 11 (i2f 7)]> ∅))) trappedState in
  setEntity (TheEnemy 0) (trappedEnemyAt 9 1 (getEntity (TheEnemy 0) s)) s.

(** The registry entries of [refillState]. *)
Definition expiringHole (gx : Z) : DugHole :=
  {| holeX := gx; holeY := 1; timer := flit 1 100; originalType := BRICK |}.

Definition freshHole (gx : Z) : DugHole :=
  {| holeX := gx; holeY := 1; timer := i2f 7; originalType := BRICK |}.

(** ** Vocabulary of the tick-level claims *)

(** The time step [update] uses for a wall-clock delta: clamped to
    100 ms. *)
Definition clampDelta (elapsed : float) : float :=
  if (elapsed >? flit 1 10)%f32 then flit 1 10 else elapsed.

(** Every registry entry lies over a cell that stores Brick. *)
Definition holesOverBrick (s : State) : Prop :=
  forall k h, dugHoles s !! k = Some h -> levelAt (level s) k.1 k.2 = BRICK.

(** The start state with every collectible counted as collected. *)
Definition allCollectedState : State :=
  set_collectibles
    (replicate (Z.to_nat GRID_HEIGHT) (replicate (Z.to_nat GRID_WIDTH) 0))
    (set_collectiblesCollected (totalCollectibles startState) startState).

(** A grid like the start level but with a ladder in column 3 of the two
    top rows. *)
Definition ladderTopState : State :=
  set_level (setLevelAt (setLevelAt (level allCollectedState) 3 13 LADDER)
                        3 14 LADDER) allCollectedState.

(** The fields no stage between the input and the refill writes. *)
Definition sameGrid (s s' : State) : Prop :=
  level s' = level s /\ dugHoles s' = dugHoles s
  /\ levelComplete s' = levelComplete s
  /\ totalCollectibles s' = totalCollectibles s.

(** What the first loop of the reveal has done to cell [(x, y)] of the
    grid [lvl0] it started from. *)
Definition revealedAbove (lvl0 lvl : list (list TileType)) : Prop :=
  levelWf lvl /\
  forall x y, levelAt lvl x y <> levelAt lvl0 x y ->
    y = GRID_HEIGHT - 1 /\ levelAt lvl x y = EXIT_LADDER
    /\ levelAt lvl0 x (GRID_HEIGHT - 2) = LADDER
    /\ (levelAt lvl0 x (GRID_HEIGHT - 1) = EMPTY
        \/ levelAt lvl0 x (GRID_HEIGHT - 1) = LADDER).

(** ** Vocabulary of the lives claim *)

(** Lives and game-over agree: lives are never negative and the game is
    over exactly when none is left. *)
Definition sessionOk (s : State) : Prop :=
  0 <= lives s /\ gameOver s = (lives s <=? 0).

(** The player's physics step ends below the floor threshold: the
    off-screen fall. *)
Definition playerFallsOff (deltaTime : float) (s : State) : bool :=
  isAlive (player s) && negb (isTrapped (player s))
  && (posY (moveEntity s ThePlayer (player s) deltaTime) <? - TILE_SIZE)%f32.

(** Enemy contact: enemy [i], alive and free, is steered and moved, then
    overlaps the untrapped player while the game is neither over nor
    won. *)
Definition enemyCatches (deltaTime : float) (s : State) (i : nat) : bool :=
  let en := getEntity (TheEnemy i) s in
  isAlive en && negb (isTrapped en)
  && (let s2 := updatePhysics (TheEnemy i) deltaTime
                  (setEntity (TheEnemy i) (steerEnemy s en) s) in
      touchesPlayer s2 i && negb (gameOver s2) && negb (gameWon s2)).

(** The state in which the loop of [updateEnemies] reaches enemy [i]. *)
Definition stateBeforeEnemy (deltaTime : float) (s : State) (i : nat) : State :=
  foldl (updateEnemy deltaTime) s (seq 0 i).

(** 1 for an event that happened, 0 otherwise. *)
Definition lifeLost (event : bool) : Z := if event then 1 else 0.

(** Nothing but lives and game-over separates two states. *)
Definition sameSession (s s' : State) : Prop :=
  lives s' = lives s /\ gameOver s' = gameOver s.

(** The lives lost to enemies in one run of [updateEnemies] from [s]:
    one for each enemy that catches the player when its turn comes. *)
Definition livesLostToEnemies (deltaTime : float) (s : State) (n : nat) : Z :=
  foldr Z.add 0
    (map (fun i => lifeLost (enemyCatches deltaTime (stateBeforeEnemy deltaTime s i) i))
         (seq 0 n)).

(** The start state with one life left and enemy 0 standing where the
    player stands. *)
Definition caughtState : State :=
  let s := set_lives 1 startState in
  let en := getEntity (TheEnemy 0) s in
  let en := set_posX (posX (player s)) en in
  let en := set_posY (posY (player s)) en in
  let en := set_vx (i2f 0) en in
  setEntity (TheEnemy 0) en s.

(** The state one tick after [caughtState]: the game is over. *)
Definition gameOverState : State := update frameTime caughtState.

(** The invariant of the grid and the registry: both well formed, every
    registry entry over a cell that stores Brick, and the top-centre
    cell, which the reveal may overwrite, not a Brick. *)
Definition gridInv (s : State) : Prop :=
  holesWf (dugHoles s) /\ levelWf (level s) /\ holesOverBrick s
  /\ levelAt (level s) (GRID_WIDTH / 2) (GRID_HEIGHT - 1) <> BRICK.


(** ** Vocabulary of the session invariants *)

(** The movement modes of an entity that exclude each other: one that
    sits trapped in a hole is not falling. *)
Definition entityOk (e : Entity) : bool := negb (isTrapped e && isFalling e).

(** For the player, moreover, climbing and hanging on a rope exclude
    each other. *)
Definition playerOk (p : Entity) : bool :=
  entityOk p && negb (isClimbing p && isOnRope p).

Definition modesOk (s : State) : Prop :=
  playerOk (player s) = true
  /\ Forall (fun en => entityOk en = true) (enemies s).

(** The collectibles still lying in a row, and in the grid. *)
Definition rowCount (row : list Z) : Z :=
  foldr (fun v n => (if v =? 1 then 1 else 0) + n) 0 row.

Definition remaining (c : list (list Z)) : Z :=
  foldr (fun row n => rowCount row + n) 0 c.

(** The books of the collectibles are balanced: the score is the price
    of the collected ones, and collected and remaining ones add up to
    the total of the level. *)
Definition accountOk (s : State) : Prop :=
  score s = POINTS_PER_COLLECTIBLE * collectiblesCollected s
  /\ collectiblesCollected s + remaining (collectibles s) = totalCollectibles s
  /\ 0 <= collectiblesCollected s.

(** Level-complete says that nothing remains to collect. *)
Definition completionOk (s : State) : Prop :=
  levelComplete s = true <->
  remaining (collectibles s) = 0 /\ 0 < totalCollectibles s.

(** The session flags: a game is not both lost and won, and it is won
    only after the level was completed. *)
Definition flagsOk (s : State) : Prop :=
  gameOver s && gameWon s = false
  /\ (gameWon s = true -> levelComplete s = true).

(** The spawn cell of an entity. *)
Definition startCell (e : Entity) : Z * Z := (startGridX e, startGridY e).

(** The cell the dig keys aim from: the one [handleInput] computes from
    the player's position. *)
Definition digCell (p : Entity) : Z * Z :=
  (getGridX (posX p + TILE_SIZE * flit 4 10)%f32, getGridY (posY p)).

(** The registry entry of a fresh hole at [k]. *)
Definition newHole (k : Z * Z) : DugHole :=
  {| holeX := k.1; holeY := k.2; timer := DIG_REFILL_TIME; originalType := BRICK |}.

(** What the physics and the refill leave of an entity: its spawn cell
    and its on-rope flag; and they never set its climbing or jumping
    flag. *)
Definition sameRole (e e' : Entity) : Prop :=
  startCell e' = startCell e /\ isOnRope e' = isOnRope e
  /\ (isClimbing e' = true -> isClimbing e = true)
  /\ (isJumping e' = true -> isJumping e = true).

(** The entity [updatePhysics] writes back. *)
Definition physicsEntity (r : EntityRef) (deltaTime : float) (s : State) : Entity :=
  let e := getEntity r s in
  if isTrapped e then updateTrapped s r e deltaTime
  else holeCheck s r (beforeHoleCheck r deltaTime s).

(** The fields that only the pick-up, the exit test and the completion
    test write, and those nothing in a tick writes. *)
Definition sameBoard (s s' : State) : Prop :=
  gameWon s' = gameWon s /\ levelComplete s' = levelComplete s
  /\ collectibles s' = collectibles s
  /\ collectiblesCollected s' = collectiblesCollected s
  /\ totalCollectibles s' = totalCollectibles s
  /\ score s' = score s
  /\ specialKeyStates s' = specialKeyStates s
  /\ randTape s' = randTape s.

(** The books in the middle of a tick: balanced, and nothing remains
    once the level is complete. *)
Definition booksOk (s : State) : Prop :=
  accountOk s
  /\ (levelComplete s = true ->
      remaining (collectibles s) = 0 /\ 0 < totalCollectibles s).

(** ** Further example states *)

(** The start state with the player standing on the brick of cell (2, 3),
    inside the collectible of cell (2, 4). *)
Definition collectState : State :=
  set_player (set_posY (i2f 160) (set_posX (i2f 84) (player startState))) startState.

(** A short session: two frames, a dig to the left, a step to the right
    and two more frames. *)
Definition sampleRun : list Event :=
  [Tick frameTime; Tick frameTime; KeyDown KEY_Q (fun _ => 0); Tick frameTime;
   KeyUp KEY_Q; SpecialDown GLUT_KEY_RIGHT; Tick frameTime; Tick frameTime].

(** The state at the end of that session. *)
Definition playedState : State := default startState (run sampleRun startState).

(** The level completed, the exit ladder revealed in the top-centre
    cell, and the player with its head inside that cell. *)
Definition exitState : State :=
  let s := update frameTime allCollectedState in
  set_player (set_posY (i2f 530) (set_posX (i2f 404) (player s))) s.

(** ** Vocabulary of the cast of entities *)

(** The array of enemies has its [numEnemies] elements, none of which
    jumps. *)
Definition shapeOk (s : State) : Prop :=
  length (enemies s) = numEnemies
  /\ Forall (fun en => isJumping en = false) (enemies s).

(** The spawn cells of the player and of the enemies. *)
Definition spawnCells (s : State) : (Z * Z) * list (Z * Z) :=
  (startCell (player s), map startCell (enemies s)).

(** The entity keeps its spawn cell and does not start to jump. *)
Definition sameSpawn (e e' : Entity) : Prop :=
  startCell e' = startCell e /\ (isJumping e' = true -> isJumping e = true).

(** The cast is the same: the spawn cells are, and no enemy started to
    jump. *)
Definition sameCast (s s' : State) : Prop :=
  spawnCells s' = spawnCells s
  /\ (Forall (fun en => isJumping en = false) (enemies s) ->
      Forall (fun en => isJumping en = false) (enemies s')).

(** A lost game: the left arrow held down for thirty frames of 100 ms
    walks the player into the pit of the enemies three times. *)
Definition lostRun : list Event :=
  SpecialDown GLUT_KEY_LEFT :: repeat (Tick (flit 1 10)) 30.

Definition lostState : State := default startState (run lostRun startState).

(** ** Vocabulary of the window bounds *)

(** The box of the entity lies between the left and the right edge of
    the window. *)
Definition inWindow (e : Entity) : bool :=
  negb (posX e <? i2f 0)%f32
  && negb (posX e + TILE_SIZE * flit 8 10 >? i2f WINDOW_WIDTH)%f32.

(** The entity is inside the window and its spawn cell inside the grid. *)
Definition staged (e : Entity) : bool :=
  inWindow e && inBounds (startGridX e) (startGridY e).

Definition stageOk (s : State) : Prop :=
  staged (player s) = true /\ Forall (fun en => staged en = true) (enemies s).

(** The reference names an entity of the state. *)
Definition validRef (r : EntityRef) (s : State) : Prop :=
  match r with
  | ThePlayer => True
  | TheEnemy i => (i < length (enemies s))%nat
  end.

(** ** Vocabulary of the level over a session *)

(** The tile the grid stores at [(x, y)] during a session: the one of
    the start level, but for the exit ladder in the top-centre cell once
    the level is complete. *)
Definition shownLevel (complete : bool) (x y : Z) : TileType :=
  if complete && (x =? GRID_WIDTH / 2) && (y =? GRID_HEIGHT - 1)
  then EXIT_LADDER
  else levelAt (level startState) x y.

Definition levelIs (s : State) : Prop :=
  forall x y, levelAt (level s) x y = shownLevel (levelComplete s) x y.

(** The start state with the player on the ladder of cell (8, 2), next
    to the brick of cell (7, 1), and the dig-left key down. *)
Definition diggerState : State :=
  set_keyStates (<[KEY_Q := true]> (keyStates startState))
    (set_player (set_posX (i2f 324) (player startState)) startState).
(** * Properties *)

(** ** Basic facts *)

Lemma tile_eqb_eq (a b : TileType) : (a ==t b) = true <-> a = b.
Proof.
  unfold tile_eqb. rewrite Z.eqb_eq.
  split; [|intros ->; reflexivity].
  destruct a, b; simpl; intros H; try reflexivity; discriminate H.
Qed.

Lemma tile_eqb_refl (a : TileType) : (a ==t a) = true.
Proof. apply tile_eqb_eq. reflexivity. Qed.

Lemma tile_eqb_neq (a b : TileType) : (a ==t b) = false <-> a <> b.
Proof.
  rewrite <- tile_eqb_eq. destruct (a ==t b); split; congruence.
Qed.

Lemma inBounds_outOfBounds (gx gy : Z) : outOfBounds gx gy = negb (inBounds gx gy).
Proof. unfold outOfBounds, inBounds, GRID_WIDTH, GRID_HEIGHT. lia. Qed.

Lemma outOfBounds_true (gx gy : Z) :
  outOfBounds gx gy = true <->
  gx < 0 \/ gx >= GRID_WIDTH \/ gy < 0 \/ gy >= GRID_HEIGHT.
Proof. unfold outOfBounds, GRID_WIDTH, GRID_HEIGHT. lia. Qed.

Lemma inBounds_true (gx gy : Z) :
  inBounds gx gy = true <->
  0 <= gx < GRID_WIDTH /\ 0 <= gy < GRID_HEIGHT.
Proof. unfold inBounds, GRID_WIDTH, GRID_HEIGHT. lia. Qed.

Lemma holesWf_lookup (m : gmap (Z * Z) DugHole) (k : Z * Z) (h : DugHole) :
  holesWf m -> m !! k = Some h ->
  k = (holeX h, holeY h) /\ inBounds k.1 k.2 = true /\ originalType h = BRICK.
Proof.
  intros Hwf Hk. specialize (Hwf k h Hk). unfold holeOk in Hwf.
  destruct k as [kx ky]; simpl in *.
  repeat (apply andb_prop in Hwf as [Hwf ?]).
  apply Z.eqb_eq in Hwf. repeat split; try assumption.
  - f_equal; [symmetry; assumption | symmetry; apply Z.eqb_eq; assumption].
  - apply tile_eqb_eq. assumption.
Qed.

Lemma holesWf_empty : holesWf ∅.
Proof. unfold holesWf. apply map_Forall_empty. Qed.

Lemma holesWf_insert (m : gmap (Z * Z) DugHole) (k : Z * Z) (h : DugHole) :
  holesWf m -> holeOk k h = true -> holesWf (<[k := h]> m).
Proof. intros Hwf Hk. apply map_Forall_insert_2; assumption. Qed.

Lemma holesWf_delete (m : gmap (Z * Z) DugHole) (k : Z * Z) :
  holesWf m -> holesWf (delete k m).
Proof. intros Hwf. apply map_Forall_delete. assumption. Qed.

(** ** C1: the tile query *)

(** The three cases of [getTileAt], in terms of the cell indices. *)
Lemma getTileAt_cases (s : State) (x y : float) :
  getTileAt s x y =
    if outOfBounds (getGridX x) (getGridY y) then SOLID_BRICK
    else if isSome (dugHoles s !! (getGridX x, getGridY y)) then EMPTY
         else levelAt (level s) (getGridX x) (getGridY y).
Proof.
  unfold getTileAt, getGridX, getGridY.
  destruct (outOfBounds _ _); [reflexivity|].
  destruct (dugHoles s !! _); reflexivity.
Qed.

(** C1.  In a state whose registry is well formed, [getTileAt (x, y)]
    returns Empty whenever the cell of the coordinate has a registry
    entry, whatever tile the grid stores there; it returns SolidBrick
    whenever the cell index is outside the grid ([gridX < 0],
    [gridX >= 20], [gridY < 0] or [gridY >= 15]); and otherwise it returns
    the tile stored in the level grid. *)
Theorem getTileAt_override_and_bounds (s : State) (x y : float) :
  holesWf (dugHoles s) ->
  (is_Some (dugHoles s !! (getGridX x, getGridY y)) -> getTileAt s x y = EMPTY)
  /\ (getGridX x < 0 \/ getGridX x >= 20 \/ getGridY y < 0 \/ getGridY y >= 15 ->
      getTileAt s x y = SOLID_BRICK)
  /\ (dugHoles s !! (getGridX x, getGridY y) = None ->
      0 <= getGridX x < 20 -> 0 <= getGridY y < 15 ->
      getTileAt s x y = levelAt (level s) (getGridX x) (getGridY y)).
Proof.
  intros Hwf. rewrite getTileAt_cases. repeat split.
  - intros [h Hh].
    destruct (holesWf_lookup _ _ _ Hwf Hh) as (_ & Hin & _). simpl in Hin.
    rewrite inBounds_outOfBounds, Hin, Hh. reflexivity.
  - intros Hout.
    assert (outOfBounds (getGridX x) (getGridY y) = true) as ->
      by (apply outOfBounds_true; exact Hout).
    reflexivity.
  - intros Hnone Hx Hy.
    assert (outOfBounds (getGridX x) (getGridY y) = false) as ->.
    { rewrite inBounds_outOfBounds.
      assert (inBounds (getGridX x) (getGridY y) = true) as ->
        by (apply inBounds_true; unfold GRID_WIDTH, GRID_HEIGHT; lia).
      reflexivity. }
    rewrite Hnone. reflexivity.
Qed.

Lemma digHole_holesWf (gridX gridY : Z) (s : State) :
  holesWf (dugHoles s) -> holesWf (dugHoles (digHole gridX gridY s)).
Proof.
  intros Hwf. unfold digHole.
  destruct (outOfBounds gridX gridY) eqn:Hout; [assumption|].
  destruct (levelAt (level s) gridX gridY ==t BRICK); [|assumption].
  destruct (dugHoles s !! (gridX, gridY)); [assumption|].
  simpl. apply holesWf_insert; [assumption|].
  unfold holeOk. simpl. rewrite !Z.eqb_refl.
  rewrite inBounds_outOfBounds in Hout.
  destruct (inBounds gridX gridY); [reflexivity | discriminate Hout].
Qed.

Lemma startState_holesWf : holesWf (dugHoles startState).
Proof. apply holesWf_empty. Qed.

Lemma dugState_holesWf : holesWf (dugHoles dugState).
Proof. apply digHole_holesWf, startState_holesWf. Qed.

(** A coordinate inside cell (7, 1) of the start level queries Empty once
    the cell is dug, by the first part of the theorem. *)
Lemma getTileAt_override_and_bounds_witness :
  getTileAt dugState (i2f 300) (i2f 50) = EMPTY.
Proof.
  apply (getTileAt_override_and_bounds dugState (i2f 300) (i2f 50)).
  - exact dugState_holesWf.
  - vm_compute. eexists. reflexivity.
Defined.

(** ** C3: digging *)

(** C3.  [digHole (gridX, gridY)] returns the state unchanged (registry,
    entry count and everything else) whenever the target is out of
    bounds, the stored tile is not Brick, or the cell already has an
    entry; otherwise it inserts exactly one entry for that cell, with
    refill timer 7.0 and original kind Brick, and changes no other
    entry. *)
Theorem digHole_noop_or_insert (gridX gridY : Z) (s : State) :
  (outOfBounds gridX gridY = true
   \/ levelAt (level s) gridX gridY <> BRICK
   \/ is_Some (dugHoles s !! (gridX, gridY)) ->
   digHole gridX gridY s = s)
  /\ (outOfBounds gridX gridY = false ->
      levelAt (level s) gridX gridY = BRICK ->
      dugHoles s !! (gridX, gridY) = None ->
      let hole := {| holeX := gridX; holeY := gridY;
                     timer := i2f 7; originalType := BRICK |} in
      digHole gridX gridY s
        = set_dugHoles (<[(gridX, gridY) := hole]> (dugHoles s)) s
      /\ dugHoles (digHole gridX gridY s) !! (gridX, gridY) = Some hole
      /\ (forall k, k <> (gridX, gridY) ->
            dugHoles (digHole gridX gridY s) !! k = dugHoles s !! k)
      /\ size (dugHoles (digHole gridX gridY s)) = S (size (dugHoles s))).
Proof.
  split.
  - intros H. unfold digHole.
    destruct (outOfBounds gridX gridY); [reflexivity|].
    destruct (levelAt (level s) gridX gridY ==t BRICK) eqn:Hb; [|reflexivity].
    destruct (dugHoles s !! (gridX, gridY)) eqn:Hl; [reflexivity|].
    exfalso. destruct H as [H | [H | [h H]]].
    + discriminate H.
    + apply H, tile_eqb_eq, Hb.
    + discriminate H.
  - intros Hin Hb Hnone hole.
    assert (digHole gridX gridY s
            = set_dugHoles (<[(gridX, gridY) := hole]> (dugHoles s)) s) as Heq.
    { unfold digHole. rewrite Hin, Hb, Hnone. reflexivity. }
    rewrite Heq. simpl. repeat split.
    + apply lookup_insert_eq.
    + intros k Hk. apply lookup_insert_ne. congruence.
    + apply map_size_insert_None. exact Hnone.
Qed.

(** Both parts at work on the start level: the first dig at the brick
    (7, 1) adds an entry, the second is rejected. *)
Lemma digHole_noop_or_insert_witness :
  digHole 7 1 dugState = dugState
  /\ size (dugHoles (digHole 7 1 startState)) = S (size (dugHoles startState)).
Proof.
  split.
  - apply (proj1 (digHole_noop_or_insert 7 1 dugState)).
    right. right. vm_compute. eexists. reflexivity.
  - apply (proj2 (digHole_noop_or_insert 7 1 startState)).
    + vm_compute. reflexivity.
    + vm_compute. reflexivity.
    + vm_compute. reflexivity.
Defined.

(** ** Reading back an entity *)

Lemma getEntity_setEntity_player (e : Entity) (s : State) :
  getEntity ThePlayer (setEntity ThePlayer e s) = e.
Proof. reflexivity. Qed.

Lemma getEntity_setEntity_enemy (i : nat) (e : Entity) (s : State) :
  (i < length (enemies s))%nat ->
  getEntity (TheEnemy i) (setEntity (TheEnemy i) e s) = e.
Proof.
  intros Hi. simpl. rewrite list_lookup_insert_eq by assumption. reflexivity.
Qed.

(** A slot outside the array reads as [noEntity], which is neither
    trapped nor alive. *)
Lemma getEntity_in_range (r : EntityRef) (s : State) :
  getEntity r s <> noEntity ->
  match r with
  | ThePlayer => True
  | TheEnemy i => (i < length (enemies s))%nat
  end.
Proof.
  destruct r as [|i]; [trivial|]. simpl. intros H.
  destruct (enemies s !! i) eqn:Hl.
  - apply lookup_lt_Some in Hl. exact Hl.
  - exfalso. apply H. reflexivity.
Qed.

Lemma getEntity_setEntity (r : EntityRef) (e : Entity) (s : State) :
  getEntity r s <> noEntity -> getEntity r (setEntity r e s) = e.
Proof.
  intros H. apply getEntity_in_range in H. destruct r as [|i].
  - reflexivity.
  - apply getEntity_setEntity_enemy. exact H.
Qed.

Lemma setEntity_frame (r : EntityRef) (e : Entity) (s : State) :
  level (setEntity r e s) = level s
  /\ dugHoles (setEntity r e s) = dugHoles s
  /\ lives (setEntity r e s) = lives s
  /\ gameOver (setEntity r e s) = gameOver s.
Proof. destruct r; repeat split. Qed.

(** ** C4 and C9: trapped entities *)

Lemma killEnemy_not_trapped (e : Entity) :
  isTrapped e = true -> isAlive e = true -> isTrapped (killEnemy e) = false.
Proof. intros Ht Ha. unfold killEnemy. rewrite Ha. reflexivity. Qed.

(** The trapped branch either keeps the entity trapped where it stands,
    with zero velocity, or releases it. *)
Lemma updateTrapped_frozen (s : State) (r : EntityRef) (e : Entity) (dt : float) :
  isTrapped (updateTrapped s r e dt) = true ->
  vx (updateTrapped s r e dt) = i2f 0
  /\ vy (updateTrapped s r e dt) = i2f 0
  /\ posX (updateTrapped s r e dt) = posX e
  /\ posY (updateTrapped s r e dt) = posY e.
Proof.
  unfold updateTrapped. cbn [trappedTimer set_trappedTimer set_vx set_vy posX posY].
  destruct (_ <=? _)%f32; [|intros _; repeat split].
  destruct (dugHoles s !! _); [intros _; repeat split|].
  destruct (negb (isPlayerRef r)).
  - unfold killEnemy. cbn [isAlive set_vy set_vx set_trappedTimer].
    destruct (negb (isAlive e)); [intros _; repeat split|].
    cbn. discriminate.
  - cbn. discriminate.
Qed.

Lemma applyGravity_isTrapped (e : Entity) (dt : float) :
  isTrapped (applyGravity e dt) = isTrapped e.
Proof.
  unfold applyGravity.
  destruct (negb (isClimbing e) && negb (isOnRope e)); [reflexivity|].
  destruct (isClimbing e && _); reflexivity.
Qed.

Lemma verticalCollision_isTrapped (s : State) (r : EntityRef) (e : Entity)
    (oldY newX newY : float) :
  isTrapped (verticalCollision s r e oldY newX newY).1 = isTrapped e.
Proof.
  unfold verticalCollision.
  destruct (vy e <>? i2f 0)%f32; [|reflexivity].
  destruct (vy e <? i2f 0)%f32.
  - destruct (findEnemy _ _) as [[? ?]|].
    + destruct (isPlayerRef r); reflexivity.
    + destruct (isSolid _ || isSolid _).
      * destruct (isPlayerRef r); reflexivity.
      * destruct (negb (isClimbing e) && negb (isOnRope e)); reflexivity.
  - destruct (isSolid _ || isSolid _); reflexivity.
Qed.

Lemma horizontalCollision_isTrapped (s : State) (e : Entity) (newX newY : float) :
  isTrapped (horizontalCollision s e newX newY).1 = isTrapped e.
Proof.
  unfold horizontalCollision.
  destruct (vx e <>? i2f 0)%f32; [|reflexivity].
  destruct (horizontalBlocked _ _); reflexivity.
Qed.

Lemma moveEntity_isTrapped (s : State) (r : EntityRef) (e : Entity) (dt : float) :
  isTrapped (moveEntity s r e dt) = isTrapped e.
Proof.
  unfold moveEntity.
  destruct (verticalCollision _ _ _ _ _ _) as [e1 y1] eqn:Hv.
  destruct (horizontalCollision _ _ _ _) as [e2 x2] eqn:Hh.
  cbn. change e2 with (e2, x2).1. rewrite <- Hh, horizontalCollision_isTrapped.
  change e1 with (e1, y1).1. rewrite <- Hv, verticalCollision_isTrapped.
  apply applyGravity_isTrapped.
Qed.

Lemma boundaryChecks_isTrapped (r : EntityRef) (e : Entity) (l : Z) (g : bool) :
  isTrapped e = false -> isTrapped (boundaryChecks r e l g).1.1 = false.
Proof.
  intros Ht. unfold boundaryChecks, killEnemy.
  repeat match goal with
         | |- context [if ?b then _ else _] => destruct b
         end; cbn; first [exact Ht | reflexivity].
Qed.

Lemma beforeHoleCheck_not_trapped (r : EntityRef) (dt : float) (s : State) :
  isTrapped (getEntity r s) = false ->
  isTrapped (beforeHoleCheck r dt s) = false.
Proof.
  intros Ht. unfold beforeHoleCheck.
  apply boundaryChecks_isTrapped. rewrite moveEntity_isTrapped. exact Ht.
Qed.

(** What [holeCheck] returns when the entity is captured. *)
Lemma holeCheck_capture (s : State) (r : EntityRef) (e : Entity) (h : DugHole) :
  isTrapped e = false ->
  inBounds (feetCell e).1 (feetCell e).2 = true ->
  dugHoles s !! feetCell e = Some h ->
  fallingInto s r e = true ->
  exists e', holeCheck s r e = trapInHole e' (feetCell e).1 (feetCell e).2 h.
Proof.
  intros Ht Hin Hh Hf. unfold holeCheck. unfold feetCell in *. simpl in Hin.
  rewrite Hin, Hh. unfold fallingInto in Hf.
  apply andb_prop in Hf as [Hf Hg]. rewrite Hf. cbn [andb].
  apply negb_true_iff in Hg. rewrite Hg, Hf, Ht. cbn [negb].
  eexists. reflexivity.
Qed.

Lemma updatePhysics_not_trapped (r : EntityRef) (dt : float) (s : State) :
  isTrapped (getEntity r s) = false -> getEntity r s <> noEntity ->
  getEntity r (updatePhysics r dt s) = holeCheck s r (beforeHoleCheck r dt s).
Proof.
  intros Ht Hne. unfold updatePhysics, beforeHoleCheck. rewrite Ht.
  destruct (boundaryChecks _ _ _ _) as [[e1 l1] g1]. cbn [fst].
  apply getEntity_setEntity.
  destruct r; [exact Hne|]. exact Hne.
Qed.

Lemma updatePhysics_trapped (r : EntityRef) (dt : float) (s : State) :
  isTrapped (getEntity r s) = true ->
  getEntity r (updatePhysics r dt s) = updateTrapped s r (getEntity r s) dt.
Proof.
  intros Ht. unfold updatePhysics. rewrite Ht.
  apply getEntity_setEntity. intros Heq. rewrite Heq in Ht. discriminate Ht.
Qed.

(** C4.  An entity whose trapped flag is set when [updatePhysics] starts
    and still set when it ends has velocity (0, 0) and the position it
    had, whatever velocity it carried in.  An entity that is not trapped
    and reaches the hole test falling, its feet in a cell of the grid
    that has a registry entry, leaves it trapped with velocity (0, 0),
    centred horizontally in the cell, feet on the cell bottom, and with
    falling and climbing cleared. *)
Theorem trapped_entity_frozen_and_capture (r : EntityRef) (dt : float) (s : State) :
  (isTrapped (getEntity r s) = true ->
   isTrapped (getEntity r (updatePhysics r dt s)) = true ->
   let e' := getEntity r (updatePhysics r dt s) in
   vx e' = i2f 0 /\ vy e' = i2f 0
   /\ posX e' = posX (getEntity r s) /\ posY e' = posY (getEntity r s))
  /\ (isTrapped (getEntity r s) = false -> getEntity r s <> noEntity ->
      let e := beforeHoleCheck r dt s in
      inBounds (feetCell e).1 (feetCell e).2 = true ->
      is_Some (dugHoles s !! feetCell e) ->
      fallingInto s r e = true ->
      let e' := getEntity r (updatePhysics r dt s) in
      isTrapped e' = true /\ vx e' = i2f 0 /\ vy e' = i2f 0
      /\ posX e' = (i2f (feetCell e).1 * TILE_SIZE
                    + (TILE_SIZE - TILE_SIZE * flit 8 10) / i2f 2)%f32
      /\ posY e' = (i2f (feetCell e).2 * TILE_SIZE)%f32
      /\ isFalling e' = false /\ isClimbing e' = false).
Proof.
  split.
  - intros Ht Ht'. cbn zeta. rewrite updatePhysics_trapped in * by assumption.
    apply updateTrapped_frozen. exact Ht'.
  - intros Ht Hne e Hin [h Hh] Hf. cbn zeta.
    rewrite updatePhysics_not_trapped by assumption. fold e.
    destruct (holeCheck_capture s r e h) as [e0 ->]; try assumption.
    + apply beforeHoleCheck_not_trapped. exact Ht.
    + unfold trapInHole. cbn [set_isTrapped set_trappedTimer trappedTimer].
      destruct (_ <? _)%f32; repeat split.
Qed.
(** The player of [fallingState] is captured by the hole of cell (7, 1)
    (second part); the player of [trappedState] stays frozen in it
    (first part). *)
Lemma trapped_entity_frozen_and_capture_witness :
  (let e' := getEntity ThePlayer (updatePhysics ThePlayer frameTime trappedState) in
   vx e' = i2f 0 /\ vy e' = i2f 0
   /\ posX e' = posX (getEntity ThePlayer trappedState)
   /\ posY e' = posY (getEntity ThePlayer trappedState))
  /\ (let e' := getEntity ThePlayer (updatePhysics ThePlayer frameTime fallingState) in
      isTrapped e' = true /\ vx e' = i2f 0 /\ vy e' = i2f 0
      /\ posX e' = (i2f 7 * TILE_SIZE
                    + (TILE_SIZE - TILE_SIZE * flit 8 10) / i2f 2)%f32
      /\ posY e' = (i2f 1 * TILE_SIZE)%f32
      /\ isFalling e' = false /\ isClimbing e' = false).
Proof.
  split.
  - apply (proj1 (trapped_entity_frozen_and_capture ThePlayer frameTime trappedState)).
    + vm_compute. reflexivity.
    + vm_compute. reflexivity.
  - apply (proj2 (trapped_entity_frozen_and_capture ThePlayer frameTime fallingState)).
    + vm_compute. reflexivity.
    + vm_compute. discriminate.
    + vm_compute. reflexivity.
    + vm_compute. eexists. reflexivity.
    + vm_compute. reflexivity.
Defined.

Lemma trapInHole_timer (e : Entity) (gx gy : Z) (h : DugHole) :
  trappedTimer (trapInHole e gx gy h)
  = if (timer h - flit 1 10 <? i2f 0)%f32 then flit 1 100
    else (timer h - flit 1 10)%f32.
Proof.
  unfold trapInHole. cbn [set_isTrapped set_trappedTimer trappedTimer].
  destruct (_ <? _)%f32; reflexivity.
Qed.

Lemma updateTrapped_clamp (s : State) (r : EntityRef) (e : Entity) (dt : float) :
  (trappedTimer e - dt <=? i2f 0)%f32 = true ->
  is_Some (dugHoles s !! trapCell e) ->
  updateTrapped s r e dt
  = set_trappedTimer (flit 1 100)
      (set_vy (i2f 0) (set_vx (i2f 0) (set_trappedTimer (trappedTimer e - dt)%f32 e))).
Proof.
  intros Hexp [h Hh]. unfold updateTrapped, trapCell in *.
  cbn [set_trappedTimer set_vx set_vy trappedTimer posX posY].
  rewrite Hexp, Hh. reflexivity.
Qed.

(** C9.  When the hole test captures an entity, its trapped timer is the
    entry's remaining time minus 0.1, or 0.01 if that difference is
    negative.  When a trapped entity's timer, decremented by the tick,
    is <= 0 while the registry still has the entry of its cell, the
    timer is set to 0.01, a positive value, and the entity stays
    trapped. *)
Theorem trappedTimer_seed_and_clamp (r : EntityRef) (dt : float) (s : State) :
  (isTrapped (getEntity r s) = false -> getEntity r s <> noEntity ->
   let e := beforeHoleCheck r dt s in
   forall h : DugHole,
   inBounds (feetCell e).1 (feetCell e).2 = true ->
   dugHoles s !! feetCell e = Some h ->
   fallingInto s r e = true ->
   trappedTimer (getEntity r (updatePhysics r dt s))
   = if (timer h - flit 1 10 <? i2f 0)%f32 then flit 1 100
     else (timer h - flit 1 10)%f32)
  /\ (isTrapped (getEntity r s) = true ->
      (trappedTimer (getEntity r s) - dt <=? i2f 0)%f32 = true ->
      is_Some (dugHoles s !! trapCell (getEntity r s)) ->
      let e' := getEntity r (updatePhysics r dt s) in
      trappedTimer e' = flit 1 100 /\ (i2f 0 <? trappedTimer e')%f32 = true
      /\ isTrapped e' = true).
Proof.
  split.
  - intros Ht Hne e h Hin Hh Hf.
    rewrite updatePhysics_not_trapped by assumption. fold e.
    destruct (holeCheck_capture s r e h) as [e0 ->]; try assumption.
    + apply beforeHoleCheck_not_trapped. exact Ht.
    + apply trapInHole_timer.
  - intros Ht Hexp Hh. cbn zeta.
    rewrite updatePhysics_trapped by assumption.
    rewrite updateTrapped_clamp by assumption.
    cbn [trappedTimer set_trappedTimer isTrapped set_vx set_vy].
    split; [reflexivity|]. split; [vm_compute; reflexivity | exact Ht].
Qed.

(** The capture of [fallingState] seeds 7 - 0.1 from the fresh hole; the
    trapped player of [expiringState] has its timer put back to 0.01. *)
Lemma trappedTimer_seed_and_clamp_witness :
  trappedTimer (getEntity ThePlayer (updatePhysics ThePlayer frameTime fallingState))
  = (i2f 7 - flit 1 10)%f32
  /\ trappedTimer (getEntity ThePlayer (updatePhysics ThePlayer frameTime expiringState))
     = flit 1 100.
Proof.
  split.
  - apply (proj1 (trappedTimer_seed_and_clamp ThePlayer frameTime fallingState)
             eq_refl ltac:(discriminate)
             {| holeX := 7; holeY := 1; timer := i2f 7; originalType := BRICK |}).
    + vm_compute. reflexivity.
    + vm_compute. reflexivity.
    + vm_compute. reflexivity.
  - apply (proj2 (trappedTimer_seed_and_clamp ThePlayer frameTime expiringState)).
    + vm_compute. reflexivity.
    + vm_compute. reflexivity.
    + vm_compute. eexists. reflexivity.
Defined.

(** ** C6: horizontal collision *)

(** On the start level the player of [ropeState], on a rope and sliding
    left, samples Rope, Rope and Brick at its leading edge.  The Brick
    sample is no Ladder and no Rope, yet the motion is not blocked: the
    test returns the entity with its velocity and the tentative position,
    and the whole physics step moves the player to it. *)
Lemma horizontal_brick_sample_counterexample :
  let e := player ropeState in
  let newX := (posX e + vx e * frameTime)%f32 in
  let newY := posY e in
  (vx e <>? i2f 0)%f32 = true
  /\ isOnRope e = true
  /\ horizontalSamples ropeState e newX newY = (ROPE, ROPE, BRICK)
  /\ isLadderOrRope BRICK = false
  /\ horizontalCollision ropeState e newX newY = (e, newX)
  /\ (newX <? posX e)%f32 = true
  /\ posX (player (updatePhysics ThePlayer frameTime ropeState)) = newX
  /\ vx (player (updatePhysics ThePlayer frameTime ropeState)) = vx e.
Proof. vm_compute. repeat split. Qed.

(** C6, amended.  For an entity moving horizontally the test samples the
    tile at the leading edge (left edge when moving left, right edge
    otherwise) at the heights [newY + 0.1 * TILE_SIZE], [newY + half the
    box height] and [newY + 0.9 * the box height].  If one of the three
    samples is Brick or SolidBrick the motion is blocked (position
    snapped to the tile boundary, horizontal velocity zero) unless the
    entity is climbing or on a rope and at least one of the three samples
    is a Ladder or a Rope; in every other case position and velocity are
    left as they are. *)
Theorem horizontal_block_rule (s : State) (e : Entity) (newX newY : float) :
  (vx e <>? i2f 0)%f32 = true ->
  let entityWidth := (TILE_SIZE * flit 8 10)%f32 in
  let entityHeight := (TILE_SIZE * flit 95 100)%f32 in
  let lead := if (vx e <? i2f 0)%f32 then newX else (newX + entityWidth)%f32 in
  let tileBottom := getTileAt s lead (newY + TILE_SIZE * flit 1 10)%f32 in
  let tileMiddle := getTileAt s lead (newY + entityHeight * flit 5 10)%f32 in
  let tileTop := getTileAt s lead (newY + entityHeight * flit 9 10)%f32 in
  let solid := isSolid tileBottom || isSolid tileMiddle || isSolid tileTop in
  let passage :=
    (isClimbing e || isOnRope e)
    && (isLadderOrRope tileBottom || isLadderOrRope tileMiddle
        || isLadderOrRope tileTop) in
  horizontalSamples s e newX newY = (tileBottom, tileMiddle, tileTop)
  /\ horizontalCollision s e newX newY
     = if solid && negb passage then (set_vx (i2f 0) e, snapX e newX)
       else (e, newX).
Proof.
  intros Hvx. cbn zeta. split; [reflexivity|].
  unfold horizontalCollision, horizontalBlocked, horizontalSamples, snapX.
  rewrite Hvx. unfold isLadderOrRope.
  destruct (vx e <? i2f 0)%f32;
    destruct (isSolid _ || isSolid _ || isSolid _); cbn [andb];
    try reflexivity;
    destruct (isClimbing e || isOnRope e); cbn [andb negb orb];
    try reflexivity;
    repeat match goal with
           | |- context [?t ==t LADDER] => destruct (t ==t LADDER)
           | |- context [?t ==t ROPE] => destruct (t ==t ROPE)
           end; reflexivity.
Qed.

(** The rule at the rope of the start level: a Brick sample together
    with a Rope sample lets the player on the rope through. *)
Lemma horizontal_block_rule_witness :
  let e := player ropeState in
  let newX := (posX e + vx e * frameTime)%f32 in
  horizontalCollision ropeState e newX (posY e) = (e, newX).
Proof.
  exact (proj2 (horizontal_block_rule ropeState (player ropeState)
                  (posX (player ropeState)
                   + vx (player ropeState) * frameTime)%f32
                  (posY (player ropeState)) eq_refl)).
Defined.

(** ** Reading and writing the grid *)

Lemma levelWf_setLevelAt (lvl : list (list TileType)) (x y : Z) (t : TileType) :
  levelWf lvl -> levelWf (setLevelAt lvl x y t).
Proof.
  intros [Hl Hr]. unfold setLevelAt. split.
  - rewrite length_alter. exact Hl.
  - apply Forall_alter; [exact Hr|].
    intros row _ Hrow. rewrite length_insert. exact Hrow.
Qed.

Lemma levelAt_setLevelAt_same (lvl : list (list TileType)) (x y : Z) (t : TileType) :
  levelWf lvl -> inBounds x y = true ->
  levelAt (setLevelAt lvl x y t) x y = t.
Proof.
  intros [Hl Hr] Hin. apply inBounds_true in Hin as [Hx Hy].
  unfold levelAt, setLevelAt.
  assert ((0 <=? x) && (0 <=? y) = true) as -> by lia.
  rewrite list_lookup_alter_eq.
  destruct (lvl !! Z.to_nat y) as [row|] eqn:Hrow.
  - simpl. rewrite list_lookup_insert_eq; [reflexivity|].
    rewrite (Forall_lookup_1 _ _ _ _ Hr Hrow). lia.
  - apply lookup_ge_None in Hrow. unfold GRID_HEIGHT in *. lia.
Qed.

Lemma levelAt_setLevelAt_other (lvl : list (list TileType)) (x y x' y' : Z)
    (t : TileType) :
  0 <= x -> 0 <= y -> (x, y) <> (x', y') ->
  levelAt (setLevelAt lvl x y t) x' y' = levelAt lvl x' y'.
Proof.
  intros Hx Hy Hne. unfold levelAt, setLevelAt.
  destruct ((0 <=? x') && (0 <=? y')) eqn:Hpos; [|reflexivity].
  destruct (decide (Z.to_nat y = Z.to_nat y')) as [Hyy|Hyy].
  - rewrite <- Hyy, list_lookup_alter_eq.
    destruct (lvl !! Z.to_nat y) as [row|]; [|reflexivity].
    simpl. rewrite list_lookup_insert_ne; [reflexivity|].
    intros Hxx. apply Hne. f_equal; lia.
  - rewrite list_lookup_alter_ne by exact Hyy. reflexivity.
Qed.

(** ** C2: the hole-decay tick *)

Lemma refillHole_dugHoles (h : DugHole) (s : State) :
  dugHoles (refillHole h s) = dugHoles s.
Proof. unfold refillHole. cbn. destruct (trappedAt _ _ _); reflexivity. Qed.

Lemma updateHole_dugHoles (dt : float) (s : State) (k : Z * Z) (h : DugHole) :
  dugHoles (updateHole dt s (k, h))
  = if expired dt h then delete k (dugHoles s)
    else <[k := tickHole dt h]> (dugHoles s).
Proof.
  unfold updateHole, expired, tickHole. cbn [timer holeX holeY].
  destruct (_ <=? _)%f32; [|reflexivity].
  destruct (inBounds _ _); cbn [dugHoles set_dugHoles];
    [rewrite refillHole_dugHoles|]; reflexivity.
Qed.

Lemma updateHole_level (dt : float) (s : State) (k : Z * Z) (h : DugHole) :
  level (updateHole dt s (k, h))
  = if expired dt h && inBounds (holeX h) (holeY h)
    then setLevelAt (level s) (holeX h) (holeY h) (originalType h)
    else level s.
Proof.
  unfold updateHole, expired. cbn [timer holeX holeY originalType].
  destruct (_ <=? _)%f32; [|reflexivity].
  destruct (inBounds _ _); [|reflexivity].
  unfold refillHole. cbn [holeX holeY originalType player set_level].
  destruct (trappedAt _ _ _); reflexivity.
Qed.

Lemma updateHole_player (dt : float) (s : State) (k : Z * Z) (h : DugHole) :
  player (updateHole dt s (k, h))
  = if expired dt h && inBounds (holeX h) (holeY h)
       && trappedAt (holeX h) (holeY h) (player s)
    then freePlayer (player s) else player s.
Proof.
  unfold updateHole, expired. cbn [timer holeX holeY originalType].
  destruct (_ <=? _)%f32; [|reflexivity].
  destruct (inBounds _ _); [|reflexivity].
  unfold refillHole. cbn [holeX holeY originalType player set_level].
  destruct (trappedAt _ _ _); reflexivity.
Qed.

Lemma updateHole_enemies (dt : float) (s : State) (k : Z * Z) (h : DugHole) :
  enemies (updateHole dt s (k, h))
  = if expired dt h && inBounds (holeX h) (holeY h)
    then map (fun en => if isAlive en && trappedAt (holeX h) (holeY h) en
                        then killEnemy en else en) (enemies s)
    else enemies s.
Proof.
  unfold updateHole, expired. cbn [timer holeX holeY originalType].
  destruct (_ <=? _)%f32; [|reflexivity].
  destruct (inBounds _ _); [|reflexivity].
  unfold refillHole. cbn [holeX holeY originalType player set_level].
  destruct (trappedAt _ _ _); reflexivity.
Qed.

(** The refill test in terms of the cell of the trapped entity. *)
Lemma trappedAt_trapCell (x y : Z) (e : Entity) :
  trappedAt x y e = true <-> isTrapped e = true /\ trapCell e = (x, y).
Proof.
  unfold trappedAt, trapCell. rewrite !andb_true_iff, !Z.eqb_eq.
  split.
  - intros [[Ht Hx] Hy]. split; [exact Ht | f_equal; assumption].
  - intros [Ht Heq]. injection Heq as Hx Hy. repeat split; assumption.
Qed.

(** The entries visited by the loop are those of the registry, each key
    once. *)
Lemma holeEntries_elem (m : gmap (Z * Z) DugHole) (k : Z * Z) (h : DugHole) :
  (k, h) ∈ holeEntries m <-> m !! k = Some h.
Proof.
  unfold holeEntries. rewrite merge_sort_Permutation.
  apply elem_of_map_to_list.
Qed.

Lemma holeEntries_NoDup (m : gmap (Z * Z) DugHole) : NoDup (holeEntries m).*1.
Proof.
  unfold holeEntries. rewrite merge_sort_Permutation.
  apply NoDup_fst_map_to_list.
Qed.

Section RefillLoop.
Variable dt : float.

Lemma refill_lookup_other (l : list (Z * Z * DugHole)) (s : State) (k : Z * Z) :
  k ∉ l.*1 ->
  dugHoles (foldl (updateHole dt) s l) !! k = dugHoles s !! k.
Proof.
  revert s. induction l as [|[k0 h0] l IH]; intros s Hk; [reflexivity|].
  cbn [foldl]. rewrite fmap_cons in Hk. cbn [fst] in Hk.
  apply not_elem_of_cons in Hk as [Hne Hk].
  rewrite IH by exact Hk. rewrite updateHole_dugHoles.
  destruct (expired dt h0).
  - apply lookup_delete_ne. congruence.
  - apply lookup_insert_ne. congruence.
Qed.

Lemma refill_lookup_entry (l : list (Z * Z * DugHole)) (s : State)
    (k : Z * Z) (h : DugHole) :
  NoDup l.*1 -> (k, h) ∈ l ->
  dugHoles (foldl (updateHole dt) s l) !! k
  = if expired dt h then None else Some (tickHole dt h).
Proof.
  revert s. induction l as [|[k0 h0] l IH]; intros s Hnd Hin.
  - apply elem_of_nil in Hin. contradiction.
  - rewrite fmap_cons in Hnd. cbn [fst] in Hnd.
    apply NoDup_cons in Hnd as [Hk0 Hnd]. cbn [foldl].
    apply elem_of_cons in Hin as [Heq | Hin].
    + injection Heq as <- <-.
      rewrite refill_lookup_other by exact Hk0.
      rewrite updateHole_dugHoles. destruct (expired dt h).
      * apply lookup_delete_eq.
      * apply lookup_insert_eq.
    + apply IH; assumption.
Qed.

Lemma refill_levelWf (l : list (Z * Z * DugHole)) (s : State) :
  levelWf (level s) -> levelWf (level (foldl (updateHole dt) s l)).
Proof.
  revert s. induction l as [|[k0 h0] l IH]; intros s Hwf; [exact Hwf|].
  cbn [foldl]. apply IH. rewrite updateHole_level.
  destruct (_ && _); [apply levelWf_setLevelAt|]; exact Hwf.
Qed.

Lemma refill_level_other (l : list (Z * Z * DugHole)) (s : State) (x y : Z) :
  Forall (fun entry => holeOk entry.1 entry.2 = true) l ->
  (x, y) ∉ l.*1 ->
  levelAt (level (foldl (updateHole dt) s l)) x y = levelAt (level s) x y.
Proof.
  revert s. induction l as [|[k0 h0] l IH]; intros s Hok Hk; [reflexivity|].
  apply Forall_cons in Hok as [Hok0 Hok].
  rewrite fmap_cons in Hk. cbn [fst] in Hk.
  apply not_elem_of_cons in Hk as [Hne Hk].
  cbn [foldl]. rewrite IH by assumption. rewrite updateHole_level.
  destruct (_ && _); [|reflexivity].
  unfold holeOk in Hok0. cbn [fst snd] in Hok0.
  destruct k0 as [x0 y0]. cbn [fst snd] in Hok0.
  apply andb_prop in Hok0 as [Hok0 _]. apply andb_prop in Hok0 as [Hok0 Hin].
  apply andb_prop in Hok0 as [Hx Hy].
  apply Z.eqb_eq in Hx, Hy. apply inBounds_true in Hin. subst x0 y0.
  apply levelAt_setLevelAt_other; [lia | lia | congruence].
Qed.

Lemma refill_level_entry (l : list (Z * Z * DugHole)) (s : State)
    (k : Z * Z) (h : DugHole) :
  Forall (fun entry => holeOk entry.1 entry.2 = true) l ->
  NoDup l.*1 -> levelWf (level s) ->
  (k, h) ∈ l -> expired dt h = true ->
  levelAt (level (foldl (updateHole dt) s l)) k.1 k.2 = originalType h.
Proof.
  revert s. induction l as [|[k0 h0] l IH]; intros s Hok Hnd Hwf Hin Hexp.
  - apply elem_of_nil in Hin. contradiction.
  - apply Forall_cons in Hok as [Hok0 Hok].
    rewrite fmap_cons in Hnd. cbn [fst] in Hnd.
    apply NoDup_cons in Hnd as [Hk0 Hnd]. cbn [foldl].
    apply elem_of_cons in Hin as [Heq | Hin].
    + injection Heq as <- <-. destruct k as [x y]. cbn [fst snd].
      rewrite refill_level_other by assumption.
      rewrite updateHole_level, Hexp.
      unfold holeOk in Hok0. cbn [fst snd] in Hok0.
      apply andb_prop in Hok0 as [Hok0 _].
      apply andb_prop in Hok0 as [Hok0 Hin].
      apply andb_prop in Hok0 as [Hx Hy].
      apply Z.eqb_eq in Hx, Hy. rewrite Hx, Hy, Hin. cbn [andb].
      apply levelAt_setLevelAt_same; assumption.
    + apply IH; try assumption.
      rewrite updateHole_level.
      destruct (_ && _); [apply levelWf_setLevelAt|]; exact Hwf.
Qed.

(** *** One entity through the loop *)

Variable release : Entity -> Entity.
Variable eligible : Entity -> bool.
Hypothesis release_untraps :
  forall e, eligible e = true -> isTrapped (release e) = false.

Lemma releaseBy_idle (l : list (Z * Z * DugHole)) (e : Entity) :
  isTrapped e = false -> foldl (releaseBy release eligible dt) e l = e.
Proof.
  intros Ht. induction l as [|[k0 h0] l IH]; [reflexivity|].
  cbn [foldl]. unfold releaseBy at 2. cbn [snd].
  unfold trappedAt. rewrite Ht, !andb_false_r. exact IH.
Qed.

Lemma releaseBy_other (l : list (Z * Z * DugHole)) (e : Entity) :
  Forall (fun entry => holeOk entry.1 entry.2 = true) l ->
  trapCell e ∉ l.*1 -> foldl (releaseBy release eligible dt) e l = e.
Proof.
  induction l as [|[k0 h0] l IH]; intros Hok Hk; [reflexivity|].
  apply Forall_cons in Hok as [Hok0 Hok].
  rewrite fmap_cons in Hk. cbn [fst] in Hk.
  apply not_elem_of_cons in Hk as [Hne Hk].
  cbn [foldl]. unfold releaseBy at 2. cbn [snd].
  destruct (trappedAt (holeX h0) (holeY h0) e) eqn:Hat.
  - exfalso. apply trappedAt_trapCell in Hat as [_ Hat]. apply Hne.
    rewrite Hat. unfold holeOk in Hok0. cbn [fst snd] in Hok0.
    destruct k0 as [x0 y0]. cbn [fst snd] in Hok0.
    apply andb_prop in Hok0 as [Hok0 _]. apply andb_prop in Hok0 as [Hok0 _].
    apply andb_prop in Hok0 as [Hx Hy]. apply Z.eqb_eq in Hx, Hy.
    congruence.
  - rewrite andb_false_r. apply IH; assumption.
Qed.

Lemma releaseBy_released (l : list (Z * Z * DugHole)) (e : Entity)
    (k : Z * Z) (h : DugHole) :
  Forall (fun entry => holeOk entry.1 entry.2 = true) l ->
  NoDup l.*1 -> (k, h) ∈ l -> expired dt h = true ->
  eligible e = true -> isTrapped e = true -> trapCell e = k ->
  foldl (releaseBy release eligible dt) e l = release e.
Proof.
  induction l as [|[k0 h0] l IH]; intros Hok Hnd Hin Hexp Hel Ht Hcell.
  - apply elem_of_nil in Hin. contradiction.
  - apply Forall_cons in Hok as [Hok0 Hok].
    rewrite fmap_cons in Hnd. cbn [fst] in Hnd.
    apply NoDup_cons in Hnd as [Hk0 Hnd]. cbn [foldl].
    unfold holeOk in Hok0. cbn [fst snd] in Hok0.
    apply andb_prop in Hok0 as [Hok0 _].
    apply andb_prop in Hok0 as [Hok0 Hib].
    apply andb_prop in Hok0 as [Hx Hy]. apply Z.eqb_eq in Hx, Hy.
    apply elem_of_cons in Hin as [Heq | Hin].
    + injection Heq as <- <-. unfold releaseBy at 2. cbn [snd].
      rewrite Hexp, Hx, Hy, Hib, Hel. cbn [andb].
      assert (trappedAt k.1 k.2 e = true) as ->.
      { apply trappedAt_trapCell. split; [exact Ht|].
        rewrite Hcell. destruct k; reflexivity. }
      apply releaseBy_idle, release_untraps, Hel.
    + assert (k0 <> k) as Hne.
      { intros ->. apply Hk0. apply list_elem_of_fmap.
        exists (k, h). split; [reflexivity | exact Hin]. }
      unfold releaseBy at 2. cbn [snd].
      assert (trappedAt (holeX h0) (holeY h0) e = false) as ->.
      { destruct (trappedAt _ _ _) eqn:Hat; [|reflexivity].
        exfalso. apply trappedAt_trapCell in Hat as [_ Hat]. apply Hne.
        rewrite <- Hcell, Hat. destruct k0; cbn [fst snd] in *. congruence. }
      rewrite andb_false_r. apply IH; assumption.
Qed.
End RefillLoop.

Lemma releaseBy_player (dt : float) (e : Entity) (k : Z * Z) (h : DugHole) :
  releaseBy freePlayer (fun _ => true) dt e (k, h)
  = if expired dt h && inBounds (holeX h) (holeY h)
       && trappedAt (holeX h) (holeY h) e
    then freePlayer e else e.
Proof. unfold releaseBy. cbn [snd]. rewrite andb_true_r. reflexivity. Qed.

Lemma releaseBy_enemy (dt : float) (en : Entity) (k : Z * Z) (h : DugHole) :
  releaseBy killEnemy isAlive dt en (k, h)
  = if expired dt h && inBounds (holeX h) (holeY h)
    then (if isAlive en && trappedAt (holeX h) (holeY h) en
          then killEnemy en else en)
    else en.
Proof.
  unfold releaseBy. cbn [snd].
  destruct (expired dt h && inBounds (holeX h) (holeY h)); [|reflexivity].
  cbn [andb]. reflexivity.
Qed.

Lemma refill_player (dt : float) (l : list (Z * Z * DugHole)) (s : State) :
  player (foldl (updateHole dt) s l)
  = foldl (releaseBy freePlayer (fun _ => true) dt) (player s) l.
Proof.
  revert s. induction l as [|[k0 h0] l IH]; intros s; [reflexivity|].
  cbn [foldl]. rewrite IH, updateHole_player, releaseBy_player. reflexivity.
Qed.

Lemma refill_enemies (dt : float) (l : list (Z * Z * DugHole)) (s : State) :
  enemies (foldl (updateHole dt) s l)
  = map (fun en => foldl (releaseBy killEnemy isAlive dt) en l) (enemies s).
Proof.
  revert s. induction l as [|[k0 h0] l IH]; intros s.
  - cbn [foldl]. symmetry. apply map_id.
  - cbn [foldl]. rewrite IH, updateHole_enemies.
    destruct (expired dt h0 && inBounds (holeX h0) (holeY h0)) eqn:Hc.
    + rewrite map_map. apply map_ext. intros en.
      rewrite releaseBy_enemy, Hc. reflexivity.
    + apply map_ext. intros en. rewrite releaseBy_enemy, Hc. reflexivity.
Qed.

Lemma holeEntries_ok (m : gmap (Z * Z) DugHole) :
  holesWf m -> Forall (fun entry => holeOk entry.1 entry.2 = true) (holeEntries m).
Proof.
  intros Hwf. apply Forall_forall. intros [k h] Hin. cbn [fst snd].
  apply holeEntries_elem in Hin. exact (Hwf k h Hin).
Qed.

(** A remaining time above zero has not run out. *)
Lemma positive_not_expired (dt : float) (h : DugHole) :
  (i2f 0 <? timer h - dt)%f32 = true -> expired dt h = false.
Proof.
  unfold expired, fltb, fleb, SFltb, SFleb.
  destruct (timer h - dt)%f32 as [sg|sg| |sg m e]; try discriminate;
    destruct sg; try discriminate; reflexivity.
Qed.

(** C2.  In a state with a well-formed registry and grid, the hole-decay
    tick decrements the remaining time of every entry by [dt]; an entry
    whose new time is <= 0 is gone after the tick and its cell of the
    grid holds the recorded original kind, Brick; every other entry (so
    every entry whose new time is > 0) is kept with the new time; no
    entry appears.  A player trapped in the cell of an expiring entry is
    freed: no longer trapped, raised by 5, falling.  A live enemy
    trapped in such a cell is killed: not alive, not trapped, its respawn
    timer at the fixed delay. *)
Theorem hole_decay_tick (dt : float) (s : State) :
  holesWf (dugHoles s) -> levelWf (level s) ->
  let s' := updateDigging dt s in
  (forall k h, dugHoles s !! k = Some h ->
     dugHoles s' !! k = (if expired dt h then None else Some (tickHole dt h))
     /\ timer (tickHole dt h) = (timer h - dt)%f32
     /\ ((i2f 0 <? timer h - dt)%f32 = true ->
         dugHoles s' !! k = Some (tickHole dt h))
     /\ (expired dt h = true ->
         levelAt (level s') k.1 k.2 = originalType h /\ originalType h = BRICK))
  /\ (forall k, dugHoles s !! k = None -> dugHoles s' !! k = None)
  /\ (forall h, isTrapped (player s) = true ->
        dugHoles s !! trapCell (player s) = Some h -> expired dt h = true ->
        player s' = freePlayer (player s)
        /\ isTrapped (player s') = false
        /\ posY (player s') = (posY (player s) + i2f 5)%f32
        /\ isFalling (player s') = true)
  /\ (forall i en h, enemies s !! i = Some en ->
        isAlive en = true -> isTrapped en = true ->
        dugHoles s !! trapCell en = Some h -> expired dt h = true ->
        enemies s' !! i = Some (killEnemy en)
        /\ isAlive (killEnemy en) = false
        /\ isTrapped (killEnemy en) = false
        /\ respawnTimer (killEnemy en) = ENEMY_RESPAWN_DELAY).
Proof.
  intros Hwf Hlvl s'. subst s'. unfold updateDigging.
  pose proof (holeEntries_ok _ Hwf) as Hok.
  pose proof (holeEntries_NoDup (dugHoles s)) as Hnd.
  repeat split.
  - apply refill_lookup_entry; [exact Hnd | apply holeEntries_elem; exact H].
  - intros Hpos. rewrite (refill_lookup_entry dt _ s k h);
      [|exact Hnd | apply holeEntries_elem; exact H].
    rewrite positive_not_expired by exact Hpos. reflexivity.
  - apply refill_level_entry; try assumption. apply holeEntries_elem; exact H.
  - destruct (holesWf_lookup _ _ _ Hwf H) as (_ & _ & Hb). exact Hb.
  - intros k Hnone. rewrite refill_lookup_other; [exact Hnone|].
    intros Hin. apply list_elem_of_fmap in Hin as [[k' h'] [-> Hin]].
    apply holeEntries_elem in Hin. cbn [fst] in Hnone. congruence.
  - rewrite refill_player.
    apply (releaseBy_released dt freePlayer (fun _ => true)) with
      (k := trapCell (player s)) (h := h); try assumption; try reflexivity.
    apply holeEntries_elem. assumption.
  - rewrite refill_player.
    rewrite (releaseBy_released dt freePlayer (fun _ => true)) with
      (k := trapCell (player s)) (h := h); try assumption; try reflexivity.
    apply holeEntries_elem. assumption.
  - rewrite refill_player.
    rewrite (releaseBy_released dt freePlayer (fun _ => true)) with
      (k := trapCell (player s)) (h := h); try assumption; try reflexivity.
    apply holeEntries_elem. assumption.
  - rewrite refill_player.
    rewrite (releaseBy_released dt freePlayer (fun _ => true)) with
      (k := trapCell (player s)) (h := h); try assumption; try reflexivity.
    apply holeEntries_elem. assumption.
  - rewrite refill_enemies.
    change (map ?f ?l !! i) with ((f <$> l) !! i).
    rewrite list_lookup_fmap, H. cbn [fmap option_fmap option_map]. f_equal.
    apply (releaseBy_released dt killEnemy isAlive) with
      (k := trapCell en) (h := h); try assumption; try reflexivity.
    + intros e He. unfold killEnemy. rewrite He. reflexivity.
    + apply holeEntries_elem. assumption.
  - unfold killEnemy. rewrite H0. reflexivity.
  - unfold killEnemy. rewrite H0. reflexivity.
  - unfold killEnemy. rewrite H0. reflexivity.
Qed.

Lemma startState_levelWf : levelWf (level startState).
Proof. split; [reflexivity|]. vm_compute. repeat constructor. Qed.

Lemma refillState_wf : holesWf (dugHoles refillState) /\ levelWf (level refillState).
Proof.
  split.
  - unfold refillState. cbn [setEntity dugHoles set_enemies set_dugHoles].
    repeat apply holesWf_insert; try reflexivity. apply holesWf_empty.
  - split; [vm_compute; reflexivity|]. vm_compute. repeat constructor.
Qed.

(** The tick on [refillState]: the expiring hole of the player is gone
    and its cell stores Brick, the fresh hole is kept with its time
    decremented, the player is out of its hole and enemy 0 is dead. *)
Lemma hole_decay_tick_witness :
  dugHoles (updateDigging frameTime refillState) !! (7, 1) = None
  /\ dugHoles (updateDigging frameTime refillState) !! (11, 1)
     = Some (tickHole frameTime (freshHole 11))
  /\ levelAt (level (updateDigging frameTime refillState)) 7 1 = BRICK
  /\ isTrapped (player (updateDigging frameTime refillState)) = false
  /\ enemies (updateDigging frameTime refillState) !! 0%nat
     = Some (killEnemy (getEntity (TheEnemy 0) refillState)).
Proof.
  pose proof (hole_decay_tick frameTime refillState
                (proj1 refillState_wf) (proj2 refillState_wf)) as H.
  cbv zeta in H. destruct H as (Hentries & _ & Hplayer & Henemy).
  assert (dugHoles refillState !! (7, 1) = Some (expiringHole 7)) as H7
    by (vm_compute; reflexivity).
  assert (dugHoles refillState !! (11, 1) = Some (freshHole 11)) as H11
    by (vm_compute; reflexivity).
  assert (dugHoles refillState !! (9, 1) = Some (expiringHole 9)) as H9
    by (vm_compute; reflexivity).
  assert (expired frameTime (expiringHole 7) = true) as Hx7
    by (vm_compute; reflexivity).
  assert (expired frameTime (expiringHole 9) = true) as Hx9
    by (vm_compute; reflexivity).
  assert (expired frameTime (freshHole 11) = false) as Hx11
    by (vm_compute; reflexivity).
  destruct (Hentries _ _ H7) as (E7 & _ & _ & L7).
  destruct (Hentries _ _ H11) as (E11 & _ & _ & _).
  rewrite Hx7 in E7. rewrite Hx11 in E11.
  split; [exact E7|]. split; [exact E11|].
  split; [exact (proj1 (L7 Hx7))|].
  split.
  - refine (proj1 (proj2 (Hplayer (expiringHole 7) _ _ Hx7))).
    + vm_compute. reflexivity.
    + vm_compute. reflexivity.
  - refine (proj1 (Henemy 0%nat _ (expiringHole 9) _ _ _ _ Hx9)).
    + vm_compute. reflexivity.
    + vm_compute. reflexivity.
    + vm_compute. reflexivity.
    + vm_compute. reflexivity.
Defined.

(** ** Frames of the tick's stages *)

(** Case analysis on every condition of the goal. *)
Ltac break_conditions :=
  repeat match goal with
         | |- context [if ?b then _ else _] => destruct b
         | |- context [match ?o with Some _ => _ | None => _ end] => destruct o
         end.

Lemma digHole_level (gx gy : Z) (s : State) : level (digHole gx gy s) = level s.
Proof. unfold digHole. break_conditions; reflexivity. Qed.

Lemma updatePhysics_level (r : EntityRef) (dt : float) (s : State) :
  level (updatePhysics r dt s) = level s
  /\ dugHoles (updatePhysics r dt s) = dugHoles s
  /\ levelComplete (updatePhysics r dt s) = levelComplete s.
Proof.
  unfold updatePhysics. destruct (isTrapped _).
  - destruct r; repeat split.
  - destruct (boundaryChecks _ _ _ _) as [[e1 l1] g1].
    destruct r; repeat split.
Qed.

Lemma handleInput_level (dt : float) (s : State) :
  level (handleInput dt s) = level s
  /\ levelComplete (handleInput dt s) = levelComplete s.
Proof.
  unfold handleInput, tryDig, digHole.
  break_conditions; cbn; repeat split.
Qed.

(** The registry after [handleInput] is the one before, or the result of
    one [digHole] on a state with the same registry and grid. *)
Lemma handleInput_dugHoles (dt : float) (s : State) :
  dugHoles (handleInput dt s) = dugHoles s
  \/ exists gx gy s0,
       dugHoles (handleInput dt s) = dugHoles (digHole gx gy s0)
       /\ dugHoles s0 = dugHoles s /\ level s0 = level s.
Proof.
  unfold handleInput, tryDig.
  break_conditions; cbn [dugHoles set_keyStates set_player];
    first [ left; reflexivity
          | right; eexists _, _, _; split; [reflexivity|]; split; reflexivity ].
Qed.

Lemma handleInput_holesWf (dt : float) (s : State) :
  holesWf (dugHoles s) -> holesWf (dugHoles (handleInput dt s)).
Proof.
  intros Hwf.
  destruct (handleInput_dugHoles dt s) as [-> | (gx & gy & s0 & -> & H0 & _)].
  - exact Hwf.
  - apply digHole_holesWf. rewrite H0. exact Hwf.
Qed.

Lemma sameGrid_refl (s : State) : sameGrid s s.
Proof. repeat split. Qed.

Lemma sameGrid_trans (s1 s2 s3 : State) :
  sameGrid s1 s2 -> sameGrid s2 s3 -> sameGrid s1 s3.
Proof.
  intros (A1 & A2 & A3 & A4) (B1 & B2 & B3 & B4).
  repeat split; congruence.
Qed.

Lemma updatePhysics_sameGrid (r : EntityRef) (dt : float) (s : State) :
  sameGrid s (updatePhysics r dt s).
Proof.
  unfold updatePhysics. destruct (isTrapped _).
  - destruct r; repeat split.
  - destruct (boundaryChecks _ _ _ _) as [[e1 l1] g1].
    destruct r; repeat split.
Qed.

Lemma collectAt_sameGrid (cx cy : Z) (s : State) (d : Z * Z) :
  sameGrid s (collectAt cx cy s d).
Proof.
  unfold collectAt. destruct d as [dx dy].
  break_conditions; repeat split.
Qed.

Lemma foldl_sameGrid {A : Type} (f : State -> A -> State) (l : list A) :
  (forall s a, sameGrid s (f s a)) -> forall s, sameGrid s (foldl f s l).
Proof.
  intros Hf. induction l as [|a l IH]; intros s; [apply sameGrid_refl|].
  cbn [foldl]. eapply sameGrid_trans; [apply Hf | apply IH].
Qed.

Lemma checkExitReached_sameGrid (s : State) : sameGrid s (checkExitReached s).
Proof. unfold checkExitReached. break_conditions; repeat split. Qed.

Lemma updatePlayer_sameGrid (dt : float) (s : State) :
  sameGrid s (updatePlayer dt s).
Proof.
  unfold updatePlayer. destruct (negb _); [apply sameGrid_refl|].
  eapply sameGrid_trans; [apply updatePhysics_sameGrid|].
  eapply sameGrid_trans; [|apply checkExitReached_sameGrid].
  apply foldl_sameGrid. intros s0 a. apply collectAt_sameGrid.
Qed.

Lemma setEntity_sameGrid (r : EntityRef) (e : Entity) (s : State) :
  sameGrid s (setEntity r e s).
Proof. destruct r; repeat split. Qed.

Lemma catchPlayer_sameGrid (i : nat) (s : State) : sameGrid s (catchPlayer i s).
Proof. unfold catchPlayer. cbn. destruct (_ <=? _); repeat split. Qed.

Lemma updateEnemy_sameGrid (dt : float) (s : State) (i : nat) :
  sameGrid s (updateEnemy dt s i).
Proof.
  unfold updateEnemy.
  destruct (negb (isAlive _)).
  - destruct (_ <=? _)%f32; repeat split.
  - destruct (isTrapped _); [apply updatePhysics_sameGrid|].
    match goal with
    | |- sameGrid s (if touchesPlayer ?s2 i then _ else _) =>
        assert (sameGrid s s2) as H2
          by (eapply sameGrid_trans;
              [apply (setEntity_sameGrid (TheEnemy i)) | apply updatePhysics_sameGrid])
    end.
    destruct (touchesPlayer _ i); [|exact H2].
    destruct (_ && _); [|exact H2].
    eapply sameGrid_trans; [exact H2 | apply catchPlayer_sameGrid].
Qed.

Lemma updateEnemies_sameGrid (dt : float) (s : State) :
  sameGrid s (updateEnemies dt s).
Proof. apply foldl_sameGrid. intros s0 i. apply updateEnemy_sameGrid. Qed.

(** ** The exit-ladder reveal *)

Lemma levelAt_setLevelAt (lvl : list (list TileType)) (a b x y : Z) (t : TileType) :
  levelWf lvl -> inBounds a b = true ->
  levelAt (setLevelAt lvl a b t) x y
  = if decide ((a, b) = (x, y)) then t else levelAt lvl x y.
Proof.
  intros Hwf Hin. destruct (decide _) as [Heq | Hne].
  - injection Heq as <- <-. apply levelAt_setLevelAt_same; assumption.
  - apply inBounds_true in Hin.
    apply levelAt_setLevelAt_other; [lia | lia | exact Hne].
Qed.

Lemma revealAbove_step (lvl0 lvl : list (list TileType)) (x0 : Z) :
  0 <= x0 < GRID_WIDTH ->
  revealedAbove lvl0 lvl -> revealedAbove lvl0 (revealAbove lvl x0).
Proof.
  intros Hx0 [Hwf Hch]. unfold revealAbove.
  destruct (levelAt lvl x0 (GRID_HEIGHT - 2) ==t LADDER) eqn:Hbelow;
    [|split; assumption].
  destruct ((levelAt lvl x0 (GRID_HEIGHT - 1) ==t EMPTY)
            || (levelAt lvl x0 (GRID_HEIGHT - 1) ==t LADDER)) eqn:Htop;
    [|split; assumption].
  apply tile_eqb_eq in Hbelow.
  assert (levelAt lvl x0 (GRID_HEIGHT - 1) = EMPTY
          \/ levelAt lvl x0 (GRID_HEIGHT - 1) = LADDER) as Htop'.
  { apply orb_prop in Htop as [H|H]; apply tile_eqb_eq in H; auto. }
  assert (inBounds x0 (GRID_HEIGHT - 1) = true) as Hin
    by (apply inBounds_true; unfold GRID_HEIGHT, GRID_WIDTH in *; lia).
  split; [apply levelWf_setLevelAt; exact Hwf|].
  intros x y. rewrite levelAt_setLevelAt by assumption.
  destruct (decide _) as [Heq | Hne]; [|apply Hch].
  injection Heq as <- <-. intros _.
  assert (levelAt lvl0 x0 (GRID_HEIGHT - 2) = LADDER) as H13.
  { destruct (decide (levelAt lvl x0 (GRID_HEIGHT - 2)
                      = levelAt lvl0 x0 (GRID_HEIGHT - 2))) as [E|E].
    - congruence.
    - apply Hch in E as [E _]. unfold GRID_HEIGHT in E. lia. }
  assert (levelAt lvl x0 (GRID_HEIGHT - 1) = levelAt lvl0 x0 (GRID_HEIGHT - 1))
    as H14.
  { destruct (decide (levelAt lvl x0 (GRID_HEIGHT - 1)
                      = levelAt lvl0 x0 (GRID_HEIGHT - 1))) as [E|E];
      [exact E|].
    apply Hch in E as (_ & E & _). destruct Htop' as [H|H]; congruence. }
  repeat split; [exact H13|]. rewrite <- H14. exact Htop'.
Qed.

Lemma revealAbove_loop (lvl0 lvl : list (list TileType)) (cols : list Z) :
  Forall (fun x0 => 0 <= x0 < GRID_WIDTH) cols ->
  revealedAbove lvl0 lvl -> revealedAbove lvl0 (foldl revealAbove lvl cols).
Proof.
  revert lvl. induction cols as [|x0 cols IH]; intros lvl Hc H; [exact H|].
  apply Forall_cons in Hc as [Hx0 Hc]. cbn [foldl].
  apply IH; [exact Hc|]. apply revealAbove_step; assumption.
Qed.

Lemma columns_in_grid : Forall (fun x0 => 0 <= x0 < GRID_WIDTH) columns.
Proof. vm_compute. repeat constructor; discriminate. Qed.

(** The reveal changes cells of the top row only, and only into
    ExitLadder: an Empty or Ladder cell above a Ladder, or the top-centre
    cell. *)
Lemma revealExitLadder_changes (s : State) (x y : Z) :
  levelWf (level s) ->
  levelWf (level (revealExitLadder s))
  /\ (levelAt (level (revealExitLadder s)) x y <> levelAt (level s) x y ->
      y = GRID_HEIGHT - 1
      /\ levelAt (level (revealExitLadder s)) x y = EXIT_LADDER
      /\ ((levelAt (level s) x (GRID_HEIGHT - 2) = LADDER
           /\ (levelAt (level s) x (GRID_HEIGHT - 1) = EMPTY
               \/ levelAt (level s) x (GRID_HEIGHT - 1) = LADDER))
          \/ x = GRID_WIDTH / 2)).
Proof.
  intros Hwf.
  assert (revealedAbove (level s) (foldl revealAbove (level s) columns))
    as [Hwf1 Hch1].
  { apply revealAbove_loop; [apply columns_in_grid|].
    split; [exact Hwf|]. intros ? ? H. contradiction H. reflexivity. }
  unfold revealExitLadder. cbn [level set_level].
  set (lvl1 := foldl revealAbove (level s) columns) in *.
  assert (forall x y, levelAt lvl1 x y <> levelAt (level s) x y ->
          y = GRID_HEIGHT - 1 /\ levelAt lvl1 x y = EXIT_LADDER
          /\ ((levelAt (level s) x (GRID_HEIGHT - 2) = LADDER
               /\ (levelAt (level s) x (GRID_HEIGHT - 1) = EMPTY
                   \/ levelAt (level s) x (GRID_HEIGHT - 1) = LADDER))
              \/ x = GRID_WIDTH / 2)) as Hch1'.
  { intros x' y' H. apply Hch1 in H as (A & B & C & D). auto. }
  destruct (negb _); [|split; [exact Hwf1 | apply Hch1']].
  destruct (_ || _); [|split; [exact Hwf1 | apply Hch1']].
  split; [apply levelWf_setLevelAt; exact Hwf1|].
  rewrite levelAt_setLevelAt; [|exact Hwf1 | reflexivity].
  destruct (decide _) as [Heq | Hne]; [|apply Hch1'].
  injection Heq as <- <-. intros _. repeat split. right. reflexivity.
Qed.

(** ** The refill and the grid *)

Lemma refill_level_kept (dt : float) (l : list (Z * Z * DugHole)) (s : State)
    (k : Z * Z) (h : DugHole) :
  Forall (fun entry => holeOk entry.1 entry.2 = true) l ->
  NoDup l.*1 -> (k, h) ∈ l -> expired dt h = false ->
  levelAt (level (foldl (updateHole dt) s l)) k.1 k.2 = levelAt (level s) k.1 k.2.
Proof.
  revert s. induction l as [|[k0 h0] l IH]; intros s Hok Hnd Hin Hexp.
  - apply elem_of_nil in Hin. contradiction.
  - apply Forall_cons in Hok as [Hok0 Hok].
    rewrite fmap_cons in Hnd. cbn [fst] in Hnd.
    apply NoDup_cons in Hnd as [Hk0 Hnd]. cbn [foldl].
    apply elem_of_cons in Hin as [Heq | Hin].
    + injection Heq as <- <-. destruct k as [x y]. cbn [fst snd].
      rewrite refill_level_other by assumption.
      rewrite updateHole_level, Hexp. reflexivity.
    + rewrite IH by assumption.
      assert (k0 <> k) as Hne.
      { intros ->. apply Hk0. apply list_elem_of_fmap.
        exists (k, h). split; [reflexivity | exact Hin]. }
      rewrite updateHole_level. destruct (_ && _); [|reflexivity].
      unfold holeOk in Hok0. cbn [fst snd] in Hok0.
      apply andb_prop in Hok0 as [Hok0 _].
      apply andb_prop in Hok0 as [Hok0 Hib].
      apply andb_prop in Hok0 as [Hx Hy]. apply Z.eqb_eq in Hx, Hy.
      apply inBounds_true in Hib.
      apply levelAt_setLevelAt_other; [lia | lia |].
      rewrite Hx, Hy. destruct k0, k; cbn [fst snd]. exact Hne.
Qed.

(** A cell whose stored kind the refill changes is the cell of an
    expired entry and now holds the entry's original kind. *)
Lemma updateDigging_level_change (dt : float) (s : State) (x y : Z) :
  holesWf (dugHoles s) -> levelWf (level s) ->
  levelAt (level (updateDigging dt s)) x y <> levelAt (level s) x y ->
  exists h, dugHoles s !! (x, y) = Some h /\ expired dt h = true
            /\ levelAt (level (updateDigging dt s)) x y = originalType h.
Proof.
  intros Hwf Hlvl Hne. unfold updateDigging in *.
  pose proof (holeEntries_ok _ Hwf) as Hok.
  pose proof (holeEntries_NoDup (dugHoles s)) as Hnd.
  destruct (dugHoles s !! (x, y)) as [h|] eqn:Hl.
  - apply holeEntries_elem in Hl. exists h.
    destruct (expired dt h) eqn:Hexp.
    + repeat split.
      apply (refill_level_entry dt _ s (x, y) h); assumption.
    + exfalso. apply Hne.
      apply (refill_level_kept dt _ s (x, y) h); assumption.
  - exfalso. apply Hne. apply refill_level_other; [exact Hok|].
    intros Hin. apply list_elem_of_fmap in Hin as [[k' h'] [Heq Hin]].
    cbn [fst] in Heq. subst k'. apply holeEntries_elem in Hin. congruence.
Qed.

Lemma updateDigging_lookup (dt : float) (s : State) (k : Z * Z) :
  dugHoles (updateDigging dt s) !! k
  = match dugHoles s !! k with
    | Some h => if expired dt h then None else Some (tickHole dt h)
    | None => None
    end.
Proof.
  unfold updateDigging.
  pose proof (holeEntries_NoDup (dugHoles s)) as Hnd.
  destruct (dugHoles s !! k) as [h|] eqn:Hl.
  - apply refill_lookup_entry; [exact Hnd | apply holeEntries_elem; exact Hl].
  - rewrite refill_lookup_other; [exact Hl|].
    intros Hin. apply list_elem_of_fmap in Hin as [[k' h'] [Heq Hin]].
    cbn [fst] in Heq. subst k'. apply holeEntries_elem in Hin. congruence.
Qed.

Lemma updateDigging_holesWf (dt : float) (s : State) :
  holesWf (dugHoles s) -> holesWf (dugHoles (updateDigging dt s)).
Proof.
  intros Hwf k h' Hl. rewrite updateDigging_lookup in Hl.
  destruct (dugHoles s !! k) as [h|] eqn:Hk; [|discriminate Hl].
  destruct (expired dt h); [discriminate Hl|].
  injection Hl as <-. exact (Hwf k h Hk).
Qed.

Lemma updateDigging_levelWf (dt : float) (s : State) :
  levelWf (level s) -> levelWf (level (updateDigging dt s)).
Proof. apply refill_levelWf. Qed.

(** The fields the refill never writes. *)
Lemma updateHole_frame (dt : float) (s : State) (entry : Z * Z * DugHole) :
  levelComplete (updateHole dt s entry) = levelComplete s
  /\ totalCollectibles (updateHole dt s entry) = totalCollectibles s
  /\ collectiblesCollected (updateHole dt s entry) = collectiblesCollected s
  /\ lives (updateHole dt s entry) = lives s
  /\ gameOver (updateHole dt s entry) = gameOver s.
Proof.
  destruct entry as [k h]. unfold updateHole, refillHole.
  break_conditions; repeat split.
Qed.

Lemma updateDigging_frame (dt : float) (s : State) :
  levelComplete (updateDigging dt s) = levelComplete s
  /\ totalCollectibles (updateDigging dt s) = totalCollectibles s
  /\ collectiblesCollected (updateDigging dt s) = collectiblesCollected s
  /\ lives (updateDigging dt s) = lives s
  /\ gameOver (updateDigging dt s) = gameOver s.
Proof.
  unfold updateDigging. generalize (holeEntries (dugHoles s)) as l.
  intros l. revert s. induction l as [|entry l IH]; intros s; [repeat split|].
  cbn [foldl]. destruct (IH (updateHole dt s entry)) as (A & B & C & D & E).
  destruct (updateHole_frame dt s entry) as (A' & B' & C' & D' & E').
  repeat split; congruence.
Qed.

(** ** C5: what changes the grid *)

Lemma checkLevelCompletion_cases (s : State) :
  (checkLevelCompletion s = s
   /\ (levelComplete s = false ->
       ~ (collectiblesCollected s >= totalCollectibles s
          /\ totalCollectibles s > 0)))
  \/ (checkLevelCompletion s = revealExitLadder (set_levelComplete true s)
      /\ levelComplete s = false
      /\ collectiblesCollected s >= totalCollectibles s
      /\ totalCollectibles s > 0).
Proof.
  unfold checkLevelCompletion.
  destruct (levelComplete s) eqn:Hc; cbn [negb andb].
  - left. split; [reflexivity | discriminate].
  - destruct (collectiblesCollected s >=? totalCollectibles s) eqn:H1;
      cbn [andb].
    + destruct (totalCollectibles s >? 0) eqn:H2.
      * right. repeat split; lia.
      * left. split; [reflexivity|]. intros _. lia.
    + left. split; [reflexivity|]. intros _. lia.
Qed.

(** The stages of a running tick up to the refill leave the grid alone
    and keep the registry well formed. *)
Lemma tick_before_refill (dt : float) (s : State) :
  holesWf (dugHoles s) ->
  let s3 := updateEnemies dt (updatePlayer dt (handleInput dt s)) in
  level s3 = level s /\ levelComplete s3 = levelComplete s
  /\ holesWf (dugHoles s3)
  /\ dugHoles s3 = dugHoles (handleInput dt s).
Proof.
  intros Hwf s3.
  destruct (handleInput_level dt s) as [Hl Hc].
  pose proof (handleInput_holesWf dt s Hwf) as Hwf1.
  assert (sameGrid (handleInput dt s) s3) as (A & B & C & _).
  { eapply sameGrid_trans;
      [apply updatePlayer_sameGrid | apply updateEnemies_sameGrid]. }
  repeat split; try congruence. rewrite B. exact Hwf1.
Qed.

Lemma update_stages (elapsed : float) (s : State) :
  update elapsed s
  = let dt := clampDelta elapsed in
    let s0 := set_gameTime (gameTime s + dt)%f32 s in
    if negb (gameOver s) && negb (gameWon s)
    then checkLevelCompletion
           (updateDigging dt (updateEnemies dt (updatePlayer dt (handleInput dt s0))))
    else s0.
Proof. reflexivity. Qed.

Lemma revealExitLadder_frame (s : State) :
  dugHoles (revealExitLadder s) = dugHoles s
  /\ levelComplete (revealExitLadder s) = levelComplete s
  /\ collectiblesCollected (revealExitLadder s) = collectiblesCollected s
  /\ totalCollectibles (revealExitLadder s) = totalCollectibles s
  /\ lives (revealExitLadder s) = lives s
  /\ gameOver (revealExitLadder s) = gameOver s.
Proof. repeat split. Qed.





(** On the shipped level the tick that completes the level turns the
    top-centre cell from SolidBrick into ExitLadder: a cell that was not
    Empty changes, with no refill involved (the registry is empty).  On
    a grid with a ladder reaching the top row, the reveal turns that
    Ladder cell into ExitLadder. *)
Lemma reveal_changes_non_empty_cells_counterexample :
  (dugHoles allCollectedState = ∅
   /\ levelComplete allCollectedState = false
   /\ levelAt (level allCollectedState) 10 14 = SOLID_BRICK
   /\ levelComplete (update frameTime allCollectedState) = true
   /\ levelAt (level (update frameTime allCollectedState)) 10 14 = EXIT_LADDER)
  /\ (levelAt (level ladderTopState) 3 14 = LADDER
      /\ levelAt (level (update frameTime ladderTopState)) 3 14 = EXIT_LADDER).
Proof. vm_compute. repeat split. Qed.



(** ** C8: lives and game over *)

Lemma sameSession_refl (s : State) : sameSession s s.
Proof. split; reflexivity. Qed.

Lemma sameSession_trans (s1 s2 s3 : State) :
  sameSession s1 s2 -> sameSession s2 s3 -> sameSession s1 s3.
Proof. intros [A1 A2] [B1 B2]. split; congruence. Qed.

Lemma foldl_sameSession {A : Type} (f : State -> A -> State) (l : list A) :
  (forall s a, sameSession s (f s a)) -> forall s, sameSession s (foldl f s l).
Proof.
  intros Hf. induction l as [|a l IH]; intros s; [apply sameSession_refl|].
  cbn [foldl]. eapply sameSession_trans; [apply Hf | apply IH].
Qed.

Lemma handleInput_sameSession (dt : float) (s : State) :
  sameSession s (handleInput dt s).
Proof.
  unfold handleInput, tryDig, digHole.
  break_conditions; split; reflexivity.
Qed.

Lemma collectAt_sameSession (cx cy : Z) (s : State) (d : Z * Z) :
  sameSession s (collectAt cx cy s d).
Proof.
  unfold collectAt. destruct d as [dx dy].
  break_conditions; split; reflexivity.
Qed.

Lemma checkExitReached_sameSession (s : State) :
  sameSession s (checkExitReached s).
Proof. unfold checkExitReached. break_conditions; split; reflexivity. Qed.

Lemma setEntity_sameSession (r : EntityRef) (e : Entity) (s : State) :
  sameSession s (setEntity r e s).
Proof. destruct r; split; reflexivity. Qed.

(** What the boundary checks do to lives and game-over. *)
Lemma boundaryChecks_session (r : EntityRef) (e : Entity) (l : Z) (g : bool) :
  let fell := isPlayerRef r && (posY e <? - TILE_SIZE)%f32 in
  (boundaryChecks r e l g).1.2 = l - lifeLost fell
  /\ (boundaryChecks r e l g).2 = g || (fell && (l - 1 <=? 0)).
Proof.
  unfold boundaryChecks.
  set (e1 := if (posX e <? i2f 0)%f32 then set_posX (i2f 0) e else e).
  set (e2 := if (posX e1 + _ >? _)%f32 then _ else e1).
  assert (posY e2 = posY e) as ->.
  { subst e2 e1. break_conditions; reflexivity. }
  destruct (posY e <? - TILE_SIZE)%f32; destruct (isPlayerRef r);
    cbn [andb lifeLost fst snd]; rewrite ?orb_false_r;
    try (split; [lia | reflexivity]).
  destruct (l - 1 <=? 0); cbn [fst snd]; rewrite ?orb_true_r, ?orb_false_r;
    split; reflexivity.
Qed.

Lemma updatePhysics_enemy_sameSession (i : nat) (dt : float) (s : State) :
  sameSession s (updatePhysics (TheEnemy i) dt s).
Proof.
  unfold updatePhysics. destruct (isTrapped _); [split; reflexivity|].
  pose proof (boundaryChecks_session (TheEnemy i)
                (moveEntity s (TheEnemy i) (getEntity (TheEnemy i) s) dt)
                (lives s) (gameOver s)) as [Hl Hg].
  destruct (boundaryChecks _ _ _ _) as [[e1 l1] g1].
  cbn [fst snd isPlayerRef andb lifeLost] in Hl, Hg.
  rewrite orb_false_r in Hg. split; cbn; [lia | exact Hg].
Qed.

Lemma updatePhysics_player_session (dt : float) (s : State) :
  let fell := negb (isTrapped (player s))
              && (posY (moveEntity s ThePlayer (player s) dt) <? - TILE_SIZE)%f32 in
  lives (updatePhysics ThePlayer dt s) = lives s - lifeLost fell
  /\ gameOver (updatePhysics ThePlayer dt s)
     = gameOver s || (fell && (lives s - 1 <=? 0)).
Proof.
  unfold updatePhysics. cbn [getEntity].
  destruct (isTrapped (player s)); cbn [negb andb lifeLost].
  - rewrite orb_false_r. split; cbn; [lia | reflexivity].
  - pose proof (boundaryChecks_session ThePlayer
                  (moveEntity s ThePlayer (player s) dt)
                  (lives s) (gameOver s)) as [Hl Hg].
    destruct (boundaryChecks _ _ _ _) as [[e1 l1] g1].
    cbn [fst snd isPlayerRef andb] in Hl, Hg. split; cbn; assumption.
Qed.

Lemma updatePlayer_session (dt : float) (s : State) :
  lives (updatePlayer dt s) = lives s - lifeLost (playerFallsOff dt s)
  /\ gameOver (updatePlayer dt s)
     = gameOver s || (playerFallsOff dt s && (lives s - 1 <=? 0)).
Proof.
  unfold updatePlayer, playerFallsOff.
  destruct (isAlive (player s)); cbn [negb andb lifeLost].
  2:{ rewrite orb_false_r. split; [lia | reflexivity]. }
  destruct (updatePhysics_player_session dt s) as [Hl Hg].
  match goal with
  | |- lives (checkExitReached ?s2) = _ /\ _ =>
      assert (sameSession (updatePhysics ThePlayer dt s) s2) as [Hl2 Hg2]
        by (apply foldl_sameSession; intros; apply collectAt_sameSession);
      destruct (checkExitReached_sameSession s2) as [Hl3 Hg3]
  end.
  split; congruence.
Qed.

Lemma catchPlayer_session (i : nat) (s : State) :
  lives (catchPlayer i s) = lives s - 1
  /\ gameOver (catchPlayer i s) = gameOver s || (lives s - 1 <=? 0).
Proof.
  unfold catchPlayer. cbn [lives set_lives].
  destruct (lives s - 1 <=? 0).
  - rewrite orb_true_r. split; reflexivity.
  - rewrite orb_false_r. split; reflexivity.
Qed.

Lemma updateEnemy_session (dt : float) (s : State) (i : nat) :
  lives (updateEnemy dt s i) = lives s - lifeLost (enemyCatches dt s i)
  /\ gameOver (updateEnemy dt s i)
     = gameOver s || (enemyCatches dt s i && (lives s - 1 <=? 0)).
Proof.
  unfold updateEnemy, enemyCatches. cbn zeta.
  destruct (isAlive (getEntity (TheEnemy i) s)); cbn [negb andb lifeLost].
  2:{ rewrite orb_false_r.
      destruct (_ <=? _)%f32; split; cbn; solve [lia | reflexivity]. }
  destruct (isTrapped (getEntity (TheEnemy i) s)); cbn [negb andb lifeLost].
  { rewrite orb_false_r.
    destruct (updatePhysics_enemy_sameSession i dt s) as [Hl Hg].
    split; [lia | exact Hg]. }
  match goal with
  | |- context [touchesPlayer ?s2 i] =>
      assert (sameSession s s2) as [Hl Hg]
        by (eapply sameSession_trans;
            [apply (setEntity_sameSession (TheEnemy i))
            | apply updatePhysics_enemy_sameSession]);
      set (s2' := s2) in *
  end.
  destruct (touchesPlayer s2' i); cbn [andb lifeLost].
  2:{ rewrite orb_false_r. split; [lia | exact Hg]. }
  destruct (negb (gameOver s2') && negb (gameWon s2')); cbn [lifeLost andb].
  - destruct (catchPlayer_session i s2') as [Hl' Hg']. split; congruence.
  - rewrite orb_false_r. split; [lia | exact Hg].
Qed.

Lemma enemyCatches_not_over (dt : float) (s : State) (i : nat) :
  enemyCatches dt s i = true -> gameOver s = false.
Proof.
  unfold enemyCatches. cbn zeta. intros H.
  apply andb_prop in H as [_ H]. apply andb_prop in H as [H _].
  apply andb_prop in H as [_ H]. apply negb_true_iff in H.
  match type of H with
  | gameOver ?s2 = false =>
      assert (sameSession s s2) as [_ Hg]
        by (eapply sameSession_trans;
            [apply (setEntity_sameSession (TheEnemy i))
            | apply updatePhysics_enemy_sameSession])
  end.
  congruence.
Qed.

Lemma sessionOk_lose_life (l : Z) (g : bool) (event : bool) :
  0 <= l -> g = (l <=? 0) -> (event = true -> g = false) ->
  0 <= l - lifeLost event
  /\ g || (event && (l - 1 <=? 0)) = (l - lifeLost event <=? 0).
Proof.
  intros Hl Hg Hev. destruct event; cbn [lifeLost andb].
  - specialize (Hev eq_refl). rewrite Hev in *. cbn [orb].
    split; [lia | reflexivity].
  - rewrite orb_false_r, Z.sub_0_r. split; assumption.
Qed.

Lemma updateEnemy_sessionOk (dt : float) (s : State) (i : nat) :
  sessionOk s -> sessionOk (updateEnemy dt s i).
Proof.
  intros [Hl Hg]. destruct (updateEnemy_session dt s i) as [Hl' Hg'].
  unfold sessionOk. rewrite Hl', Hg'.
  apply sessionOk_lose_life; [exact Hl | exact Hg | apply enemyCatches_not_over].
Qed.

Lemma updatePlayer_sessionOk (dt : float) (s : State) :
  sessionOk s -> gameOver s = false -> sessionOk (updatePlayer dt s).
Proof.
  intros [Hl Hg] Hno. destruct (updatePlayer_session dt s) as [Hl' Hg'].
  unfold sessionOk. rewrite Hl', Hg'.
  apply sessionOk_lose_life; [exact Hl | exact Hg | intros _; exact Hno].
Qed.

Lemma stateBeforeEnemy_S (dt : float) (s : State) (n : nat) :
  stateBeforeEnemy dt s (S n) = updateEnemy dt (stateBeforeEnemy dt s n) n.
Proof.
  unfold stateBeforeEnemy. rewrite seq_S, foldl_app. reflexivity.
Qed.

Lemma livesLostToEnemies_S (dt : float) (s : State) (n : nat) :
  livesLostToEnemies dt s (S n)
  = livesLostToEnemies dt s n
    + lifeLost (enemyCatches dt (stateBeforeEnemy dt s n) n).
Proof.
  unfold livesLostToEnemies. rewrite seq_S, map_app, foldr_app.
  cbn [map foldr Nat.add].
  generalize (map (fun i => lifeLost (enemyCatches dt (stateBeforeEnemy dt s i) i))
                  (seq 0 n)) as l.
  generalize (lifeLost (enemyCatches dt (stateBeforeEnemy dt s n) n)) as z.
  intros z l. induction l as [|a l IH]; cbn [foldr]; lia.
Qed.

Lemma enemies_session (dt : float) (s : State) (n : nat) :
  sessionOk s ->
  sessionOk (stateBeforeEnemy dt s n)
  /\ lives (stateBeforeEnemy dt s n) = lives s - livesLostToEnemies dt s n
  /\ 0 <= livesLostToEnemies dt s n.
Proof.
  intros Hok. induction n as [|n (IHok & IHl & IHpos)].
  - split; [exact Hok|]. unfold stateBeforeEnemy, livesLostToEnemies.
    cbn [seq map foldl foldr]. lia.
  - rewrite stateBeforeEnemy_S, livesLostToEnemies_S.
    split; [apply updateEnemy_sessionOk; exact IHok|].
    destruct (updateEnemy_session dt (stateBeforeEnemy dt s n) n) as [Hl' _].
    rewrite Hl'. split; [lia|]. destruct (enemyCatches _ _ _); cbn [lifeLost]; lia.
Qed.

Lemma updateEnemies_stateBefore (dt : float) (s : State) :
  updateEnemies dt s = stateBeforeEnemy dt s numEnemies.
Proof. reflexivity. Qed.

Lemma checkLevelCompletion_sameSession (s : State) :
  sameSession s (checkLevelCompletion s).
Proof.
  destruct (checkLevelCompletion_cases s) as [[-> _] | (-> & _)];
    split; reflexivity.
Qed.

(** Lives and game-over through the stages of a running tick. *)
Lemma running_tick_session (dt : float) (s : State) :
  sessionOk s -> gameOver s = false ->
  let s1 := handleInput dt s in
  let s2 := updatePlayer dt s1 in
  let s' := checkLevelCompletion (updateDigging dt (updateEnemies dt s2)) in
  sessionOk s'
  /\ lives s' = lives s - lifeLost (playerFallsOff dt s1)
                - livesLostToEnemies dt s2 numEnemies
  /\ lives s' <= lives s.
Proof.
  intros Hok Hno. cbv zeta.
  destruct (handleInput_sameSession dt s) as [Hl1 Hg1].
  remember (handleInput dt s) as s1 eqn:E1. clear E1.
  assert (sessionOk s1) as Hok1.
  { destruct Hok as [Hl Hg]. split; congruence. }
  assert (sessionOk (updatePlayer dt s1)) as Hok2.
  { apply updatePlayer_sessionOk; [exact Hok1 | congruence]. }
  destruct (updatePlayer_session dt s1) as [Hl2 _].
  remember (updatePlayer dt s1) as s2 eqn:E2. clear E2.
  destruct (enemies_session dt s2 numEnemies Hok2) as (Hok3 & Hl3 & Hpos).
  rewrite <- updateEnemies_stateBefore in Hok3, Hl3.
  remember (updateEnemies dt s2) as s3 eqn:E3. clear E3.
  destruct (updateDigging_frame dt s3) as (_ & _ & _ & Hl4 & Hg4).
  remember (updateDigging dt s3) as s4 eqn:E4. clear E4.
  destruct (checkLevelCompletion_sameSession s4) as [Hl5 Hg5].
  remember (checkLevelCompletion s4) as s5 eqn:E5. clear E5.
  assert (lives s5 = lives s - lifeLost (playerFallsOff dt s1)
                     - livesLostToEnemies dt s2 numEnemies) as Hl' by lia.
  split; [|split; [exact Hl'|]].
  - destruct Hok3 as [P Q]. split; congruence.
  - rewrite Hl'. destruct (playerFallsOff dt s1); cbn [lifeLost]; lia.
Qed.

(** C8.  In a state where lives and game-over agree, a tick keeps them
    in agreement, so game-over is true exactly when lives is 0.  When
    the game is already over (or won) the tick only advances the effect
    clock [gameTime]: lives and every other field stay as they are.
    Otherwise the lives after the tick are the lives before, less one if
    the player's physics step ended off-screen, less one for each enemy
    that came into contact with the player at its turn; so lives never
    grow and shrink only on those two events. *)
Theorem lives_and_game_over (elapsed : float) (s : State) :
  sessionOk s ->
  let dt := clampDelta elapsed in
  let s0 := set_gameTime (gameTime s + dt)%f32 s in
  let s1 := handleInput dt s0 in
  let s2 := updatePlayer dt s1 in
  let s' := update elapsed s in
  sessionOk s'
  /\ (gameOver s = true \/ gameWon s = true -> s' = s0)
  /\ (gameOver s = false -> gameWon s = false ->
      lives s' = lives s - lifeLost (playerFallsOff dt s1)
                 - livesLostToEnemies dt s2 numEnemies)
  /\ lives s' <= lives s
  /\ (gameOver s' = true <-> lives s' = 0).
Proof.
  intros Hok. cbv zeta. rewrite update_stages. cbv zeta.
  pose proof Hok as [Hl0 Hg0].
  assert (forall t : State,
            sessionOk t -> gameOver t = true <-> lives t = 0) as Hiff.
  { intros t [Hl Hq]. rewrite Hq. split; intros H; lia. }
  destruct (gameOver s) eqn:Hover; cbn [negb andb].
  { split; [exact Hok|]. split; [intros _; reflexivity|].
    split; [intros H; discriminate H|].
    split; [cbn [lives set_gameTime]; lia|].
    apply Hiff. exact Hok. }
  destruct (gameWon s) eqn:Hwon; cbn [negb andb].
  { split; [exact Hok|]. split; [intros _; reflexivity|].
    split; [intros _ H; discriminate H|].
    split; [cbn [lives set_gameTime]; lia|].
    apply Hiff. exact Hok. }
  destruct (running_tick_session (clampDelta elapsed)
              (set_gameTime (gameTime s + clampDelta elapsed)%f32 s) Hok Hover)
    as (A & B & C).
  split; [exact A|]. split; [intros [H|H]; discriminate H|].
  split; [intros _ _; exact B|]. split; [exact C|].
  apply Hiff. exact A.
Qed.

Lemma caughtState_sessionOk : sessionOk caughtState.
Proof. split; [vm_compute; discriminate | vm_compute; reflexivity]. Qed.

Lemma gameOverState_sessionOk : sessionOk gameOverState.
Proof. split; [vm_compute; discriminate | vm_compute; reflexivity]. Qed.

(** The tick from [caughtState], where enemy 0 touches the player who has
    one life left, ends with no life and the game over; the next tick
    changes nothing but the effect clock. *)
Lemma lives_and_game_over_witness :
  (lives gameOverState = 0 /\ gameOver gameOverState = true)
  /\ update frameTime gameOverState
     = set_gameTime (gameTime gameOverState + clampDelta frameTime)%f32 gameOverState.
Proof.
  split.
  - pose proof (lives_and_game_over frameTime caughtState caughtState_sessionOk)
      as H.
    cbv zeta in H. destruct H as (_ & _ & Hl & _ & Hiff).
    assert (lives gameOverState = 0) as Hz.
    { unfold gameOverState.
      rewrite (Hl ltac:(vm_compute; reflexivity) ltac:(vm_compute; reflexivity)).
      vm_compute. reflexivity. }
    split; [exact Hz | apply Hiff; exact Hz].
  - pose proof (lives_and_game_over frameTime gameOverState
                  gameOverState_sessionOk) as H.
    cbv zeta in H. destruct H as (_ & Hterm & _).
    apply Hterm. left. vm_compute. reflexivity.
Defined.

(** ** C10: a dig touches only the registry *)

Lemma digHole_holesOverBrick (gx gy : Z) (s : State) :
  holesOverBrick s -> holesOverBrick (digHole gx gy s).
Proof.
  intros Hob k h. rewrite digHole_level. unfold digHole.
  destruct (outOfBounds gx gy); [apply Hob|].
  destruct (levelAt (level s) gx gy ==t BRICK) eqn:Hb; [|apply Hob].
  destruct (dugHoles s !! (gx, gy)) eqn:Hl; [apply Hob|].
  cbn [dugHoles set_dugHoles]. intros Hk.
  destruct (decide (k = (gx, gy))) as [-> | Hne].
  - cbn [fst snd]. apply tile_eqb_eq. exact Hb.
  - rewrite lookup_insert_ne in Hk by congruence. exact (Hob k h Hk).
Qed.

Lemma handleInput_holesOverBrick (dt : float) (s : State) :
  holesOverBrick s -> holesOverBrick (handleInput dt s).
Proof.
  intros Hob k h. destruct (handleInput_level dt s) as [-> _].
  destruct (handleInput_dugHoles dt s) as [-> | (gx & gy & s0 & -> & Hd & Hl)].
  - apply Hob.
  - rewrite <- Hl, <- (digHole_level gx gy s0).
    apply digHole_holesOverBrick.
    intros k' h' Hk'. rewrite Hl. apply (Hob k' h'). rewrite <- Hd. exact Hk'.
Qed.

Lemma digHole_gridInv (gx gy : Z) (s : State) :
  gridInv s -> gridInv (digHole gx gy s).
Proof.
  intros (Hwf & Hlvl & Hob & Htop). unfold gridInv.
  rewrite digHole_level.
  repeat split; try assumption; try (destruct Hlvl; assumption).
  - apply digHole_holesWf. exact Hwf.
  - apply digHole_holesOverBrick. exact Hob.
Qed.

(** The completion check keeps the invariant, given what the refill
    left. *)
Lemma completion_stage_gridInv (s s4 : State) :
  holesWf (dugHoles s4) -> levelWf (level s4) -> holesOverBrick s4 ->
  (forall a b, levelAt (level s4) a b = levelAt (level s) a b) ->
  levelAt (level s) (GRID_WIDTH / 2) (GRID_HEIGHT - 1) <> BRICK ->
  gridInv (checkLevelCompletion s4).
Proof.
  intros W4 Hlvl4 Hob4 L4 Htop.
  destruct (checkLevelCompletion_cases s4) as [[-> _] | (-> & _)].
  - split; [exact W4|]. split; [exact Hlvl4|]. split; [exact Hob4|].
    rewrite L4. exact Htop.
  - assert (forall a b,
              levelAt (level (revealExitLadder (set_levelComplete true s4))) a b
              = levelAt (level s4) a b
              \/ (levelAt (level (revealExitLadder (set_levelComplete true s4))) a b
                  = EXIT_LADDER
                  /\ (levelAt (level s4) a b <> BRICK
                      \/ (a, b) = (GRID_WIDTH / 2, GRID_HEIGHT - 1)))) as Hrev.
    { intros a b.
      destruct (decide
                  (levelAt (level (revealExitLadder (set_levelComplete true s4))) a b
                   = levelAt (level s4) a b)) as [E | E]; [left; exact E|].
      right.
      destruct (revealExitLadder_changes (set_levelComplete true s4) a b Hlvl4)
        as [_ Hch].
      apply Hch in E as (Hy & Hexit & Hfrom). split; [exact Hexit|].
      cbn [level set_levelComplete] in Hfrom.
      destruct Hfrom as [[_ H14] | Hx].
      - left. rewrite Hy. destruct H14 as [H14 | H14]; rewrite H14; discriminate.
      - right. congruence. }
    destruct (revealExitLadder_changes (set_levelComplete true s4) 0 0 Hlvl4)
      as [Hlvl5 _].
    destruct (revealExitLadder_frame (set_levelComplete true s4)) as (D5 & _).
    cbn [dugHoles set_levelComplete] in D5.
    revert Hrev Hlvl5 D5.
    generalize (revealExitLadder (set_levelComplete true s4)) as s5.
    intros s5 Hrev Hlvl5 D5.
    split; [rewrite D5; exact W4|]. split; [exact Hlvl5|]. split.
    + intros k h Hk. rewrite D5 in Hk.
      pose proof (Hob4 k h Hk) as Hb.
      destruct (Hrev k.1 k.2) as [E | (_ & [Hnb | Hc])].
      * congruence.
      * contradiction.
      * exfalso. apply Htop. rewrite <- L4.
        injection Hc as <- <-. exact Hb.
    + destruct (Hrev (GRID_WIDTH / 2) (GRID_HEIGHT - 1)) as [E | (E & _)].
      * rewrite E, L4. exact Htop.
      * rewrite E. discriminate.
Qed.

(** The refill keeps every stored kind when the registry lies over
    bricks. *)
Lemma refill_stage_gridInv (dt : float) (s s3 : State) :
  holesWf (dugHoles s3) -> levelWf (level s3) -> holesOverBrick s3 ->
  level s3 = level s ->
  holesWf (dugHoles (updateDigging dt s3))
  /\ levelWf (level (updateDigging dt s3))
  /\ holesOverBrick (updateDigging dt s3)
  /\ (forall a b, levelAt (level (updateDigging dt s3)) a b
                  = levelAt (level s) a b).
Proof.
  intros W3 Hlvl3 Hob3 L3.
  assert (forall a b, levelAt (level (updateDigging dt s3)) a b
                      = levelAt (level s) a b) as L4.
  { intros a b.
    destruct (decide (levelAt (level (updateDigging dt s3)) a b
                      = levelAt (level s3) a b)) as [E | E];
      [congruence|].
    destruct (updateDigging_level_change dt s3 a b W3 Hlvl3 E)
      as (h & Hh & _ & Hnew).
    destruct (holesWf_lookup _ _ _ W3 Hh) as (_ & _ & Hb).
    rewrite Hnew, Hb, <- L3. symmetry. exact (Hob3 (a, b) h Hh). }
  split; [apply updateDigging_holesWf; exact W3|].
  split; [apply updateDigging_levelWf; exact Hlvl3|].
  split; [|exact L4].
  intros k h' Hk. rewrite updateDigging_lookup in Hk.
  destruct (dugHoles s3 !! k) as [h|] eqn:Hk3; [|discriminate Hk].
  rewrite L4, <- L3. exact (Hob3 k h Hk3).
Qed.

Lemma running_tick_gridInv (dt : float) (s : State) :
  gridInv s ->
  gridInv (checkLevelCompletion
             (updateDigging dt
                (updateEnemies dt (updatePlayer dt (handleInput dt s))))).
Proof.
  intros (Hwf & Hlvl & Hob & Htop).
  pose proof (tick_before_refill dt s Hwf) as H3. cbv zeta in H3.
  destruct H3 as (L3 & C3 & W3 & D3).
  pose proof (handleInput_holesOverBrick dt s Hob) as Hob1.
  destruct (handleInput_level dt s) as [L1 _].
  assert (levelWf (level (updateEnemies dt (updatePlayer dt (handleInput dt s)))))
    as Hlvl3 by (rewrite L3; exact Hlvl).
  assert (holesOverBrick (updateEnemies dt (updatePlayer dt (handleInput dt s))))
    as Hob3.
  { intros k h Hk. rewrite L3, <- L1. apply (Hob1 k h).
    rewrite <- D3. exact Hk. }
  destruct (refill_stage_gridInv dt s _ W3 Hlvl3 Hob3 L3)
    as (W4 & Hlvl4 & Hob4 & L4).
  exact (completion_stage_gridInv s _ W4 Hlvl4 Hob4 L4 Htop).
Qed.

Lemma update_gridInv (elapsed : float) (s : State) :
  gridInv s -> gridInv (update elapsed s).
Proof.
  intros Hinv. rewrite update_stages. cbv zeta.
  destruct (negb (gameOver s) && negb (gameWon s)).
  - exact (running_tick_gridInv (clampDelta elapsed)
             (set_gameTime (gameTime s + clampDelta elapsed)%f32 s) Hinv).
  - exact Hinv.
Qed.

Lemma init_grid (tape : nat -> Z) (s : State) :
  level (init tape s) = level startState /\ dugHoles (init tape s) = ∅.
Proof. split; reflexivity. Qed.

Lemma startState_gridInv : gridInv startState.
Proof.
  split; [apply holesWf_empty|]. split; [apply startState_levelWf|].
  split.
  - intros k h Hk. change (dugHoles startState) with (∅ : gmap (Z * Z) DugHole) in Hk.
    rewrite lookup_empty in Hk. discriminate Hk.
  - vm_compute. discriminate.
Qed.

Lemma init_gridInv (tape : nat -> Z) (s : State) : gridInv (init tape s).
Proof.
  destruct (init_grid tape s) as [Hl Hd].
  destruct startState_gridInv as (_ & Hlvl & _ & Htop).
  unfold gridInv, holesOverBrick. rewrite Hl, Hd.
  split; [apply holesWf_empty|]. split; [exact Hlvl|].
  split; [|exact Htop].
  intros k h Hk. rewrite lookup_empty in Hk. discriminate Hk.
Qed.

Lemma step_gridInv (ev : Event) (s s' : State) :
  gridInv s -> step ev s = Some s' -> gridInv s'.
Proof.
  intros Hinv Hstep. destruct ev as [elapsed | key tape | key | key | key];
    cbn [step] in Hstep.
  - injection Hstep as <-. apply update_gridInv. exact Hinv.
  - unfold keyboardDown in Hstep.
    destruct (key =? 27)%nat; [discriminate Hstep|].
    match type of Hstep with
    | (if ?c then _ else _) = _ => destruct c
    end; injection Hstep as <-; [apply init_gridInv | exact Hinv].
  - injection Hstep as <-. exact Hinv.
  - injection Hstep as <-. exact Hinv.
  - injection Hstep as <-. exact Hinv.
Qed.

Lemma run_gridInv (evs : list Event) (s s' : State) :
  gridInv s -> run evs s = Some s' -> gridInv s'.
Proof.
  revert s. induction evs as [|ev evs IH]; intros s Hinv Hrun; cbn [run] in Hrun.
  - injection Hrun as <-. exact Hinv.
  - destruct (step ev s) as [s1|] eqn:Hstep; [|discriminate Hrun].
    apply (IH s1); [|exact Hrun]. apply (step_gridInv ev s); assumption.
Qed.

(** C10.  [digHole] leaves every field but the registry as it was: the
    tile grid, the collectible grid, the player and the enemies, score,
    lives, the collectible counters and the session flags.  After a dig
    that changed the registry the target cell still stores Brick and
    every query inside the cell reports Empty.  And from a state where
    every registry entry lies over a stored Brick, the dig and any run of
    callbacks after it lead to states where every registry entry still
    lies over a stored Brick: the cell under a hole stores Brick for as
    long as the hole exists. *)
Theorem digHole_writes_only_the_registry (gridX gridY : Z) (s : State) :
  let s' := digHole gridX gridY s in
  (level s' = level s /\ collectibles s' = collectibles s
   /\ player s' = player s /\ enemies s' = enemies s
   /\ score s' = score s /\ lives s' = lives s
   /\ collectiblesCollected s' = collectiblesCollected s
   /\ totalCollectibles s' = totalCollectibles s
   /\ gameOver s' = gameOver s /\ gameWon s' = gameWon s
   /\ levelComplete s' = levelComplete s
   /\ keyStates s' = keyStates s /\ specialKeyStates s' = specialKeyStates s
   /\ gameTime s' = gameTime s)
  /\ (dugHoles s' <> dugHoles s ->
      levelAt (level s') gridX gridY = BRICK
      /\ forall x y, getGridX x = gridX -> getGridY y = gridY ->
                     getTileAt s' x y = EMPTY)
  /\ (gridInv s -> forall evs s'', run evs s' = Some s'' ->
      forall k h, dugHoles s'' !! k = Some h ->
                  levelAt (level s'') k.1 k.2 = BRICK).
Proof.
  cbn zeta. split; [|split].
  - unfold digHole. break_conditions; repeat split.
  - intros Hne. unfold digHole in *.
    destruct (outOfBounds gridX gridY) eqn:Hout; [contradiction Hne; reflexivity|].
    destruct (levelAt (level s) gridX gridY ==t BRICK) eqn:Hb;
      [|contradiction Hne; reflexivity].
    destruct (dugHoles s !! (gridX, gridY)) eqn:Hl;
      [contradiction Hne; reflexivity|].
    split; [apply tile_eqb_eq; exact Hb|].
    intros x y Hx Hy. rewrite getTileAt_cases, Hx, Hy, Hout.
    cbn [dugHoles set_dugHoles]. rewrite lookup_insert_eq. reflexivity.
  - intros Hinv evs s'' Hrun.
    apply (run_gridInv evs _ s'' (digHole_gridInv gridX gridY s Hinv)) in Hrun.
    destruct Hrun as (_ & _ & Hob & _). exact Hob.
Qed.

(** The dig at the brick (7, 1) of the start level: the cell still stores
    Brick while it queries Empty, and two ticks later the hole is there
    and the cell still stores Brick. *)
Lemma digHole_writes_only_the_registry_witness :
  levelAt (level dugState) 7 1 = BRICK
  /\ getTileAt dugState (i2f 300) (i2f 50) = EMPTY
  /\ exists s'', run [Tick frameTime; Tick frameTime] dugState = Some s''
                 /\ is_Some (dugHoles s'' !! (7, 1))
                 /\ levelAt (level s'') 7 1 = BRICK.
Proof.
  destruct (digHole_writes_only_the_registry 7 1 startState) as (_ & Hdug & Hlife).
  assert (dugHoles (digHole 7 1 startState) <> dugHoles startState) as Hne.
  { intros Heq.
    assert (dugHoles (digHole 7 1 startState) !! (7, 1)
            = dugHoles startState !! (7, 1)) as H by (rewrite Heq; reflexivity).
    vm_compute in H. discriminate H. }
  destruct (Hdug Hne) as [Hb Hq].
  split; [exact Hb|]. split.
  - apply Hq; vm_compute; reflexivity.
  - destruct (run [Tick frameTime; Tick frameTime] (digHole 7 1 startState))
      as [s''|] eqn:Hrun.
    + pose proof Hrun as Hrun0. vm_compute in Hrun0.
      injection Hrun0 as Heq. subst s''.
      eexists. split; [reflexivity|].
      match goal with
      | |- is_Some (dugHoles ?t !! _) /\ _ =>
          assert (exists h, dugHoles t !! (7, 1) = Some h) as [h Hh]
            by (vm_compute; eexists; reflexivity);
          split; [exists h; exact Hh|];
          exact (Hlife startState_gridInv _ t Hrun (7, 1) h Hh)
      end.
    + exfalso. vm_compute in Hrun. discriminate Hrun.
Defined.

(** * Further properties of the simulation *)

(** ** The overlap test *)

Lemma fltb_irrefl (a : float) : (a <? a)%f32 = false.
Proof.
  unfold fltb, SFltb. destruct a as [sg | sg | | sg m e]; cbn.
  - reflexivity.
  - destruct sg; reflexivity.
  - reflexivity.
  - destruct sg; rewrite Z.compare_refl, Pos.compare_cont_refl; reflexivity.
Qed.

(** [isColliding] does not depend on the order of its two boxes, and its
    edges are exclusive: a box whose left edge is the other's right edge,
    or whose bottom edge is the other's top edge, does not collide. *)
Theorem isColliding_symmetric_strict (x1 y1 w1 h1 x2 y2 w2 h2 : float) :
  isColliding x1 y1 w1 h1 x2 y2 w2 h2 = isColliding x2 y2 w2 h2 x1 y1 w1 h1
  /\ isColliding (x2 + w2)%f32 y1 w1 h1 x2 y2 w2 h2 = false
  /\ isColliding x1 (y2 + h2)%f32 w1 h1 x2 y2 w2 h2 = false.
Proof.
  unfold isColliding. split; [|split].
  - destruct (x1 <? x2 + w2)%f32, (x1 + w1 >? x2)%f32,
             (y1 <? y2 + h2)%f32, (y1 + h1 >? y2)%f32; reflexivity.
  - rewrite fltb_irrefl. reflexivity.
  - rewrite fltb_irrefl, andb_false_r. reflexivity.
Qed.

(** ** Killing an enemy *)

(** [killEnemy] always returns a dead enemy at the position and with the
    spawn cell it was given; a live enemy ends untrapped, at rest, with
    the respawn delay of 3.0; an enemy already dead is returned as it is,
    so a second kill does not restart the respawn timer. *)
Theorem killEnemy_once (e : Entity) :
  isAlive (killEnemy e) = false
  /\ posX (killEnemy e) = posX e /\ posY (killEnemy e) = posY e
  /\ startGridX (killEnemy e) = startGridX e
  /\ startGridY (killEnemy e) = startGridY e
  /\ (isAlive e = true ->
      isTrapped (killEnemy e) = false
      /\ vx (killEnemy e) = i2f 0 /\ vy (killEnemy e) = i2f 0
      /\ respawnTimer (killEnemy e) = i2f 3)
  /\ (isAlive e = false -> killEnemy e = e)
  /\ killEnemy (killEnemy e) = killEnemy e.
Proof.
  unfold killEnemy. destruct (isAlive e) eqn:Ha; cbn [negb].
  - cbn. split; [reflexivity|]. do 4 (split; [reflexivity|]).
    split; [intros _; repeat split|]. split; [intros H; discriminate H|].
    reflexivity.
  - rewrite ?Ha. cbn [negb]. split; [first [exact Ha | reflexivity]|].
    do 4 (split; [reflexivity|]).
    split; [intros H; discriminate H|]. split; reflexivity.
Qed.

(** ** Digging twice *)

(** A second dig at the same cell changes nothing, and digs at two cells
    give the same state in either order. *)
Theorem digHole_idempotent_commutes (a b c d : Z) (s : State) :
  digHole a b (digHole a b s) = digHole a b s
  /\ digHole a b (digHole c d s) = digHole c d (digHole a b s).
Proof.
  split.
  - unfold digHole at 2 3.
    destruct (outOfBounds a b) eqn:Hout;
      [unfold digHole; rewrite Hout; reflexivity|].
    destruct (levelAt (level s) a b ==t BRICK) eqn:Hb;
      [|unfold digHole; rewrite Hout, Hb; reflexivity].
    destruct (dugHoles s !! (a, b)) eqn:Hl;
      [unfold digHole; rewrite Hout, Hb, Hl; reflexivity|].
    unfold digHole. cbn [level dugHoles set_dugHoles].
    rewrite Hout, Hb, lookup_insert_eq. reflexivity.
  - destruct (decide ((a, b) = (c, d))) as [Heq | Hne].
    { injection Heq as -> ->. reflexivity. }
    destruct (outOfBounds c d) eqn:Hout2; destruct (outOfBounds a b) eqn:Hout1;
      destruct (levelAt (level s) c d ==t BRICK) eqn:Hb2;
      destruct (levelAt (level s) a b ==t BRICK) eqn:Hb1;
      destruct (dugHoles s !! (c, d)) eqn:Hl2;
      destruct (dugHoles s !! (a, b)) eqn:Hl1;
      unfold digHole;
      repeat (rewrite ?Hout1, ?Hout2, ?Hb1, ?Hb2, ?Hl1, ?Hl2;
              rewrite ?lookup_insert_ne by congruence;
              cbn [level dugHoles set_dugHoles]);
      try reflexivity.
    unfold set_dugHoles; cbn. f_equal. apply insert_insert_ne. congruence.
Qed.
(** ** What a callback preserves *)

Section Preservation.
Variable P : State -> Prop.
Hypothesis P_gameTime : forall v s, P s -> P (set_gameTime v s).
Hypothesis P_handleInput : forall dt s,
  P s -> gameOver s = false -> gameWon s = false -> P (handleInput dt s).
Hypothesis P_updatePlayer : forall dt s,
  P s -> gameOver s = false -> gameWon s = false -> P (updatePlayer dt s).
Hypothesis P_updateEnemy : forall dt s i, P s -> P (updateEnemy dt s i).
Hypothesis P_updateHole : forall dt s entry, P s -> P (updateHole dt s entry).
Hypothesis P_checkLevelCompletion : forall s, P s -> P (checkLevelCompletion s).

Lemma foldl_preserves {A : Type} (f : State -> A -> State) (l : list A) :
  (forall s a, P s -> P (f s a)) -> forall s, P s -> P (foldl f s l).
Proof.
  intros Hf. induction l as [|a l IH]; intros s Hs; [exact Hs|].
  cbn [foldl]. apply IH, Hf, Hs.
Qed.

Lemma tick_preserves (dt : float) (s : State) :
  P s -> gameOver s = false -> gameWon s = false ->
  P (updateDigging dt (updateEnemies dt (updatePlayer dt (handleInput dt s)))).
Proof.
  intros H0 Ho Hw.
  pose proof (P_handleInput dt s H0 Ho Hw) as H1.
  assert (gameOver (handleInput dt s) = false /\ gameWon (handleInput dt s) = false)
    as [Ho1 Hw1].
  { unfold handleInput, tryDig, digHole.
    break_conditions; split; assumption. }
  revert H1 Ho1 Hw1. generalize (handleInput dt s) as s1. intros s1 H1 Ho1 Hw1.
  unfold updateDigging. apply foldl_preserves; [intros; apply P_updateHole; assumption|].
  unfold updateEnemies. apply foldl_preserves; [intros; apply P_updateEnemy; assumption|].
  apply P_updatePlayer; assumption.
Qed.

Lemma update_preserves (elapsed : float) (s : State) : P s -> P (update elapsed s).
Proof.
  intros Hs. rewrite update_stages. cbv zeta.
  generalize (clampDelta elapsed) as dt. intros dt.
  pose proof (P_gameTime (gameTime s + dt)%f32 s Hs) as H0.
  destruct (gameOver s) eqn:Hover; [exact H0|].
  destruct (gameWon s) eqn:Hwon; [exact H0|].
  cbn [negb andb].
  apply P_checkLevelCompletion, tick_preserves; [exact H0|exact Hover|exact Hwon].
Qed.

End Preservation.

(** An invariant of the callbacks holds along every run. *)
Section Invariant.
Variable P : State -> Prop.
Hypothesis P_update : forall elapsed s, P s -> P (update elapsed s).
Hypothesis P_keyStates : forall v s, P s -> P (set_keyStates v s).
Hypothesis P_specialKeyStates : forall v s, P s -> P (set_specialKeyStates v s).
Hypothesis P_init : forall tape s, P s -> P (init tape s).

Lemma step_preserves (ev : Event) (s s' : State) :
  P s -> step ev s = Some s' -> P s'.
Proof.
  intros Hs. destruct ev as [elapsed | key tape | key | key | key]; cbn [step].
  - intros [= <-]. apply P_update, Hs.
  - unfold keyboardDown, resetGame.
    destruct (key =? 27)%nat; [discriminate|].
    destruct (_ && _); intros [= <-].
    + apply P_init, P_keyStates, Hs.
    + apply P_keyStates, Hs.
  - intros [= <-]. apply P_keyStates, Hs.
  - intros [= <-]. apply P_specialKeyStates, Hs.
  - intros [= <-]. apply P_specialKeyStates, Hs.
Qed.

Lemma run_preserves (evs : list Event) (s s' : State) :
  P s -> run evs s = Some s' -> P s'.
Proof.
  revert s. induction evs as [|ev evs IH]; intros s Hs; cbn [run].
  - intros [= <-]. exact Hs.
  - destruct (step ev s) as [s1|] eqn:Hstep; [|discriminate].
    apply IH. exact (step_preserves ev s s1 Hs Hstep).
Qed.

End Invariant.
(** ** The input handler *)

(** The movement keys write velocities, facing and three of the mode
    flags of the player, and leave climbing and on-rope exclusive. *)
Lemma handleMovement_frame (s : State) :
  let p := handleMovement s in
  posX p = posX (player s) /\ posY p = posY (player s)
  /\ isTrapped p = isTrapped (player s) /\ isAlive p = isAlive (player s)
  /\ isJumping p = isJumping (player s)
  /\ trappedTimer p = trappedTimer (player s)
  /\ respawnTimer p = respawnTimer (player s)
  /\ startGridX p = startGridX (player s) /\ startGridY p = startGridY (player s)
  /\ isClimbing p && isOnRope p = false.
Proof.
  unfold handleMovement, moveSideways.
  repeat match goal with
         | |- context [if ?b then _ else _] => destruct b eqn:?; cbn
         end; repeat split; try reflexivity; try congruence.
Qed.
(** [handleInput] writes the player, the key array and the registry;
    of the player it leaves position, trapped and alive flags, timers and
    spawn cell as they were. *)
Lemma handleInput_frame (dt : float) (s : State) :
  let s' := handleInput dt s in
  (enemies s' = enemies s /\ level s' = level s
   /\ collectibles s' = collectibles s
   /\ collectiblesCollected s' = collectiblesCollected s
   /\ totalCollectibles s' = totalCollectibles s
   /\ score s' = score s /\ lives s' = lives s
   /\ gameOver s' = gameOver s /\ gameWon s' = gameWon s
   /\ levelComplete s' = levelComplete s
   /\ specialKeyStates s' = specialKeyStates s
   /\ gameTime s' = gameTime s
   /\ randTape s' = randTape s /\ randPos s' = randPos s)
  /\ (posX (player s') = posX (player s) /\ posY (player s') = posY (player s)
      /\ isTrapped (player s') = isTrapped (player s)
      /\ isAlive (player s') = isAlive (player s)
      /\ trappedTimer (player s') = trappedTimer (player s)
      /\ respawnTimer (player s') = respawnTimer (player s)
      /\ startGridX (player s') = startGridX (player s)
      /\ startGridY (player s') = startGridY (player s))
  /\ (isClimbing (player s) && isOnRope (player s) = false ->
      isClimbing (player s') && isOnRope (player s') = false).
Proof.
  cbv zeta. unfold handleInput.
  destruct (_ || _).
  { split; [repeat split|]. split; [repeat split|]. intros H; exact H. }
  pose proof (handleMovement_frame s) as Hm. cbv zeta in Hm.
  revert Hm. generalize (handleMovement s) as p.
  intros p (Hx & Hy & Ht & Ha & Hj & Htt & Hrt & Hsx & Hsy & Hcr).
  unfold tryDig, digHole.
  break_conditions; cbn;
    (split; [repeat split|]; split; [repeat split; assumption|]; intros _; exact Hcr).
Qed.
Lemma tryDig_cases (tx ty : Z) (s : State) :
  tryDig tx ty s = s
  \/ (inBounds tx ty = true /\ levelAt (level s) tx ty = BRICK
      /\ dugHoles s !! (tx, ty) = None
      /\ tryDig tx ty s
         = set_dugHoles (<[(tx, ty) := newHole (tx, ty)]> (dugHoles s)) s).
Proof.
  unfold tryDig, digHole. rewrite inBounds_outOfBounds.
  destruct (levelAt (level s) tx ty ==t BRICK) eqn:Hb; [|left; reflexivity].
  destruct (dugHoles s !! (tx, ty)) eqn:Hl; [left; reflexivity|].
  destruct (inBounds tx ty) eqn:Hin; [|left; reflexivity].
  right. apply tile_eqb_eq in Hb. cbn. repeat split; assumption.
Qed.

Lemma keyDown_other (keys : list bool) (i j : nat) (v : bool) :
  i <> j -> keyDown (<[i := v]> keys) j = keyDown keys j.
Proof.
  intros Hij. unfold keyDown. rewrite list_lookup_insert_ne by exact Hij.
  reflexivity.
Qed.

(** [handleInput] never moves the player and writes neither the grid nor
    the enemies.  It digs at most one hole in a call: at the cell
    diagonally below the player's cell, to the left for Q and, when Q is
    up, to the right for E; the cell lies in the grid, stores Brick and
    had no hole.  It digs only in a running game, for a live, untrapped
    player that is, after the movement keys, neither falling nor
    climbing. *)
Theorem handleInput_digs_diagonally_below (dt : float) (s : State) :
  let s' := handleInput dt s in
  let gx := (digCell (player s)).1 in
  let gy := (digCell (player s)).2 in
  posX (player s') = posX (player s) /\ posY (player s') = posY (player s)
  /\ level s' = level s /\ enemies s' = enemies s
  /\ (dugHoles s' = dugHoles s
      \/ exists k,
           ((k = (gx - 1, gy - 1) /\ keyDown (keyStates s) KEY_Q = true)
            \/ (k = (gx + 1, gy - 1) /\ keyDown (keyStates s) KEY_E = true
                /\ keyDown (keyStates s) KEY_Q = false))
           /\ inBounds k.1 k.2 = true
           /\ levelAt (level s) k.1 k.2 = BRICK
           /\ dugHoles s !! k = None
           /\ dugHoles s' = <[k := newHole k]> (dugHoles s)
           /\ gameOver s = false /\ gameWon s = false
           /\ isTrapped (player s) = false /\ isAlive (player s) = true
           /\ isFalling (player s') = false /\ isClimbing (player s') = false).
Proof.
  cbv zeta.
  destruct (handleInput_frame dt s) as ((He & Hl & _) & (Hx & Hy & _) & _).
  cbv zeta in He, Hl, Hx, Hy.
  split; [exact Hx|]. split; [exact Hy|]. split; [exact Hl|]. split; [exact He|].
  clear He Hl Hx Hy.
  unfold handleInput.
  destruct (gameOver s) eqn:Hover; [left; reflexivity|].
  destruct (gameWon s) eqn:Hwon; [left; reflexivity|].
  destruct (isTrapped (player s)) eqn:Htrap; [left; reflexivity|].
  destruct (isAlive (player s)) eqn:Halive; [|left; reflexivity].
  cbn [orb negb].
  pose proof (handleMovement_frame s) as Hm. cbv zeta in Hm.
  revert Hm. generalize (handleMovement s) as p.
  intros p (Hx & Hy & _).
  unfold digCell. rewrite <- Hx, <- Hy. cbn [fst snd].
  cbv zeta.
  assert (forall s1,
            level s1 = level s -> dugHoles s1 = dugHoles s ->
            posX (player s1) = posX p -> posY (player s1) = posY p ->
            keyDown (keyStates s1) KEY_Q = keyDown (keyStates s) KEY_Q ->
            keyDown (keyStates s1) KEY_E = keyDown (keyStates s) KEY_E ->
            forall (stand : bool) (s' : State),
            s' = (if stand && negb (isFalling (player s1))
                     && negb (isClimbing (player s1))
                  then
                    let targetY := getGridY (posY (player s1)) - 1 in
                    if keyDown (keyStates s1) KEY_Q then
                      let targetX :=
                        getGridX (posX (player s1) + TILE_SIZE * flit 4 10)%f32 - 1 in
                      let s2 := if (targetX >=? 0) && (targetY >=? 0)
                                then tryDig targetX targetY s1 else s1 in
                      set_keyStates (<[KEY_Q := false]> (keyStates s2)) s2
                    else if keyDown (keyStates s1) KEY_E then
                      let targetX :=
                        getGridX (posX (player s1) + TILE_SIZE * flit 4 10)%f32 + 1 in
                      let s2 := if (targetX <? GRID_WIDTH) && (targetY >=? 0)
                                then tryDig targetX targetY s1 else s1 in
                      set_keyStates (<[KEY_E := false]> (keyStates s2)) s2
                    else s1
                  else s1) ->
            dugHoles s' = dugHoles s
            \/ exists k,
                 ((k = (getGridX (posX p + TILE_SIZE * flit 4 10)%f32 - 1,
                        getGridY (posY p) - 1)
                   /\ keyDown (keyStates s) KEY_Q = true)
                  \/ (k = (getGridX (posX p + TILE_SIZE * flit 4 10)%f32 + 1,
                           getGridY (posY p) - 1)
                      /\ keyDown (keyStates s) KEY_E = true
                      /\ keyDown (keyStates s) KEY_Q = false))
                 /\ inBounds k.1 k.2 = true
                 /\ levelAt (level s) k.1 k.2 = BRICK
                 /\ dugHoles s !! k = None
                 /\ dugHoles s' = <[k := newHole k]> (dugHoles s)
                 /\ false = false /\ false = false
                 /\ false = false /\ true = true
                 /\ isFalling (player s') = false
                 /\ isClimbing (player s') = false) as Hdig.
  { intros s1 Hl1 Hd1 Hx1 Hy1 HQ1 HE1 stand s' ->. cbv zeta.
    rewrite HQ1, HE1, Hx1, Hy1.
    destruct (stand && negb (isFalling (player s1)) && negb (isClimbing (player s1)))
      eqn:Hstand; [|left; exact Hd1].
    apply andb_prop in Hstand as [Hstand Hclimb].
    apply andb_prop in Hstand as [_ Hfall].
    apply negb_true_iff in Hclimb, Hfall.
    destruct (keyDown (keyStates s) KEY_Q) eqn:HQ;
      [|destruct (keyDown (keyStates s) KEY_E) eqn:HE; [|left; exact Hd1]].
    + cbn [dugHoles set_keyStates player].
      destruct (_ && _) eqn:Hb; [|left; exact Hd1].
      match goal with
      | |- context [tryDig ?tx ?ty s1] =>
          destruct (tryDig_cases tx ty s1) as [-> | (Hin & Hbr & Hno & ->)];
            [left; exact Hd1|]
      end.
      right; eexists (_, _); rewrite Hl1, Hd1 in *.
      split; [first [left; split; reflexivity
                    | right; repeat split; reflexivity]|].
      cbn [fst snd dugHoles set_dugHoles player]; repeat split; assumption.
    + cbn [dugHoles set_keyStates player].
      destruct (_ && _) eqn:Hb; [|left; exact Hd1].
      match goal with
      | |- context [tryDig ?tx ?ty s1] =>
          destruct (tryDig_cases tx ty s1) as [-> | (Hin & Hbr & Hno & ->)];
            [left; exact Hd1|]
      end.
      right; eexists (_, _); rewrite Hl1, Hd1 in *.
      split; [first [left; split; reflexivity
                    | right; repeat split; reflexivity]|].
      cbn [fst snd dugHoles set_dugHoles player]; repeat split; assumption. }
  destruct (keyDown (keyStates (set_player p s)) KEY_SPACE && _ && _ && _ && _).
  - eapply Hdig; [..|reflexivity]; try reflexivity;
      apply keyDown_other; unfold KEY_SPACE, KEY_Q, KEY_E; lia.
  - eapply Hdig; [..|reflexivity]; reflexivity.
Qed.
(** ** The physics step, entity by entity *)

Lemma sameRole_refl (e : Entity) : sameRole e e.
Proof. repeat split; intros H; exact H. Qed.

Lemma sameRole_trans (e1 e2 e3 : Entity) :
  sameRole e1 e2 -> sameRole e2 e3 -> sameRole e1 e3.
Proof.
  intros (Hs1 & Hr1 & Hc1 & Hj1) (Hs2 & Hr2 & Hc2 & Hj2).
  split; [congruence|]. split; [congruence|].
  split; intros H; [apply Hc1, Hc2, H | apply Hj1, Hj2, H].
Qed.

Ltac role_done :=
  repeat split; cbn; intros H; first [exact H | discriminate H].

Ltac role_cases :=
  break_conditions; cbn;
  first [ apply sameRole_refl
        | split; [reflexivity|]; split; [reflexivity|]; split; cbn; intros H;
          first [exact H | discriminate H] ].

Lemma killEnemy_role (e : Entity) : sameRole e (killEnemy e).
Proof. unfold killEnemy. role_cases. Qed.

Lemma applyGravity_role (e : Entity) (dt : float) : sameRole e (applyGravity e dt).
Proof. unfold applyGravity. role_cases. Qed.

Lemma verticalCollision_role (s : State) (r : EntityRef) (e : Entity)
    (oldY newX newY : float) :
  sameRole e (verticalCollision s r e oldY newX newY).1.
Proof.
  unfold verticalCollision.
  destruct (vy e <>? i2f 0)%f32; [|apply sameRole_refl].
  destruct (vy e <? i2f 0)%f32.
  - destruct (findEnemy _ _) as [[? ?]|].
    + destruct (isPlayerRef r); role_done.
    + destruct (isSolid _ || isSolid _).
      * destruct (isPlayerRef r); role_done.
      * destruct (negb (isClimbing e) && negb (isOnRope e));
          role_done.
  - destruct (isSolid _ || isSolid _); role_done.
Qed.

Lemma horizontalCollision_role (s : State) (e : Entity) (newX newY : float) :
  sameRole e (horizontalCollision s e newX newY).1.
Proof.
  unfold horizontalCollision.
  destruct (vx e <>? i2f 0)%f32; [|apply sameRole_refl].
  destruct (horizontalBlocked _ _); role_done.
Qed.

Lemma moveEntity_role (s : State) (r : EntityRef) (e : Entity) (dt : float) :
  sameRole e (moveEntity s r e dt).
Proof.
  unfold moveEntity.
  pose proof (applyGravity_role e dt) as Hg.
  revert Hg. generalize (applyGravity e dt) as e0. intros e0 Hg.
  pose proof (verticalCollision_role s r e0 (posY e0)
                (posX e0 + vx e0 * dt)%f32 (posY e0 + vy e0 * dt)%f32) as Hv.
  destruct (verticalCollision _ _ _ _ _ _) as [e1 y1].
  pose proof (horizontalCollision_role s e1 (posX e0 + vx e0 * dt)%f32 y1) as Hh.
  destruct (horizontalCollision _ _ _ _) as [e2 x2].
  cbn [fst] in Hv, Hh.
  eapply sameRole_trans; [exact Hg|]. eapply sameRole_trans; [exact Hv|].
  eapply sameRole_trans; [exact Hh|]. role_done.
Qed.

Lemma boundaryChecks_role (r : EntityRef) (e : Entity) (l : Z) (g : bool) :
  sameRole e (boundaryChecks r e l g).1.1.
Proof. unfold boundaryChecks, killEnemy. role_cases. Qed.

Lemma holeCheck_role (s : State) (r : EntityRef) (e : Entity) :
  sameRole e (holeCheck s r e).
Proof. unfold holeCheck, trapInHole. role_cases. Qed.

Lemma updateTrapped_role (s : State) (r : EntityRef) (e : Entity) (dt : float) :
  sameRole e (updateTrapped s r e dt).
Proof. unfold updateTrapped, killEnemy. role_cases. Qed.

Lemma physicsEntity_role (r : EntityRef) (dt : float) (s : State) :
  sameRole (getEntity r s) (physicsEntity r dt s).
Proof.
  unfold physicsEntity. destruct (isTrapped _); [apply updateTrapped_role|].
  unfold beforeHoleCheck.
  eapply sameRole_trans; [apply (moveEntity_role s r _ dt)|].
  eapply sameRole_trans; [apply boundaryChecks_role|]. apply holeCheck_role.
Qed.

Lemma holeCheck_entityOk (s : State) (r : EntityRef) (e : Entity) :
  isTrapped e = false -> entityOk (holeCheck s r e) = true.
Proof.
  intros Ht. unfold holeCheck, trapInHole, entityOk.
  break_conditions; cbn; rewrite ?Ht; reflexivity.
Qed.

Lemma updateTrapped_entityOk (s : State) (r : EntityRef) (e : Entity) (dt : float) :
  entityOk e = true -> entityOk (updateTrapped s r e dt) = true.
Proof.
  unfold updateTrapped, killEnemy, entityOk.
  break_conditions; cbn; intros H; first [exact H | reflexivity].
Qed.

Lemma physicsEntity_entityOk (r : EntityRef) (dt : float) (s : State) :
  entityOk (getEntity r s) = true -> entityOk (physicsEntity r dt s) = true.
Proof.
  unfold physicsEntity. destruct (isTrapped _) eqn:Ht.
  - apply updateTrapped_entityOk.
  - intros _. apply holeCheck_entityOk, beforeHoleCheck_not_trapped, Ht.
Qed.

Lemma updatePhysics_writes (r : EntityRef) (dt : float) (s : State) :
  exists l g,
    updatePhysics r dt s
    = setEntity r (physicsEntity r dt s) (set_gameOver g (set_lives l s)).
Proof.
  unfold updatePhysics, physicsEntity, beforeHoleCheck.
  destruct (isTrapped (getEntity r s)).
  - exists (lives s), (gameOver s). destruct s; reflexivity.
  - destruct (boundaryChecks _ _ _ _) as [[e1 l1] g1]. exists l1, g1. reflexivity.
Qed.
(** ** Exclusive movement modes *)

Lemma enemy_entityOk (s : State) (i : nat) :
  Forall (fun en => entityOk en = true) (enemies s) ->
  entityOk (getEntity (TheEnemy i) s) = true.
Proof.
  intros Hall. cbn [getEntity].
  destruct (enemies s !! i) as [en|] eqn:Hi; [|reflexivity].
  cbn [default]. exact (proj1 (Forall_lookup _ _) Hall i en Hi).
Qed.

Lemma role_playerOk (e e' : Entity) :
  sameRole e e' -> entityOk e' = true -> playerOk e = true -> playerOk e' = true.
Proof.
  intros (_ & Hr & Hc & _) Hok. unfold playerOk. rewrite Hok, Hr.
  intros [_ H]%andb_prop. cbn [andb].
  destruct (isClimbing e') eqn:Hc'; [|reflexivity].
  rewrite (Hc eq_refl) in H. exact H.
Qed.

Lemma playerOk_entityOk (e : Entity) : playerOk e = true -> entityOk e = true.
Proof. unfold playerOk. intros [H _]%andb_prop. exact H. Qed.

Lemma updatePhysics_modesOk (r : EntityRef) (dt : float) (s : State) :
  modesOk s -> modesOk (updatePhysics r dt s).
Proof.
  intros [Hp He]. destruct (updatePhysics_writes r dt s) as (l & g & ->).
  destruct r as [|i]; split; cbn; try assumption.
  - apply (role_playerOk (player s)); [apply (physicsEntity_role ThePlayer)| |exact Hp].
    apply (physicsEntity_entityOk ThePlayer), playerOk_entityOk, Hp.
  - apply Forall_insert; [exact He|].
    apply (physicsEntity_entityOk (TheEnemy i)), enemy_entityOk, He.
Qed.

Lemma collectAt_entities (cx cy : Z) (s : State) (d : Z * Z) :
  player (collectAt cx cy s d) = player s
  /\ enemies (collectAt cx cy s d) = enemies s.
Proof. unfold collectAt. destruct d. break_conditions; split; reflexivity. Qed.

Lemma collectLoop_entities (cx cy : Z) (l : list (Z * Z)) (s : State) :
  player (foldl (collectAt cx cy) s l) = player s
  /\ enemies (foldl (collectAt cx cy) s l) = enemies s.
Proof.
  revert s. induction l as [|d l IH]; intros s; [split; reflexivity|].
  cbn [foldl]. destruct (IH (collectAt cx cy s d)) as [-> ->].
  apply collectAt_entities.
Qed.

Lemma checkExitReached_entities (s : State) :
  player (checkExitReached s) = player s
  /\ enemies (checkExitReached s) = enemies s.
Proof. unfold checkExitReached. break_conditions; split; reflexivity. Qed.

Lemma updatePlayer_entities (dt : float) (s : State) :
  isAlive (player s) = true ->
  player (updatePlayer dt s) = player (updatePhysics ThePlayer dt s)
  /\ enemies (updatePlayer dt s) = enemies (updatePhysics ThePlayer dt s).
Proof.
  intros Ha. unfold updatePlayer. rewrite Ha. cbn [negb]. cbv zeta.
  match goal with
  | |- player (checkExitReached ?s2) = _ /\ _ =>
      destruct (checkExitReached_entities s2) as [-> ->]
  end.
  apply collectLoop_entities.
Qed.

Lemma updatePlayer_modesOk (dt : float) (s : State) :
  modesOk s -> modesOk (updatePlayer dt s).
Proof.
  intros Hs. destruct (isAlive (player s)) eqn:Ha.
  - destruct (updatePlayer_entities dt s Ha) as [Hp He].
    unfold modesOk. rewrite Hp, He. apply updatePhysics_modesOk, Hs.
  - unfold updatePlayer. rewrite Ha. exact Hs.
Qed.

Lemma steerEnemy_frame (s : State) (en : Entity) :
  isTrapped (steerEnemy s en) = isTrapped en
  /\ isAlive (steerEnemy s en) = isAlive en
  /\ startCell (steerEnemy s en) = startCell en
  /\ posX (steerEnemy s en) = posX en.
Proof.
  unfold steerEnemy, decideEnemy.
  break_conditions; repeat split.
Qed.

Lemma catchPlayer_modesOk (i : nat) (s : State) :
  modesOk s -> modesOk (catchPlayer i s).
Proof.
  intros [Hp He]. unfold catchPlayer, rand.
  destruct (_ <=? 0); [split; assumption|].
  split; cbn.
  - unfold playerOk, entityOk in *. cbn.
    apply andb_prop in Hp as [_ Hp]. exact Hp.
  - apply Forall_insert; [exact He|]. reflexivity.
Qed.

Lemma updateEnemy_modesOk (dt : float) (s : State) (i : nat) :
  modesOk s -> modesOk (updateEnemy dt s i).
Proof.
  intros Hs. pose proof Hs as [Hp He]. unfold updateEnemy.
  destruct (negb (isAlive _)).
  - destruct (_ <=? _)%f32; split; cbn; try exact Hp;
      (apply Forall_insert; [exact He|]).
    + reflexivity.
    + exact (enemy_entityOk s i He).
  - destruct (isTrapped (getEntity (TheEnemy i) s)) eqn:Ht;
      [apply updatePhysics_modesOk, Hs|].
    assert (modesOk (setEntity (TheEnemy i)
                       (steerEnemy s (getEntity (TheEnemy i) s)) s)) as H1.
    { assert (entityOk (steerEnemy s (getEntity (TheEnemy i) s)) = true) as Hok.
      { unfold entityOk.
        rewrite (proj1 (steerEnemy_frame s (getEntity (TheEnemy i) s))), Ht.
        reflexivity. }
      split; [exact Hp|]. cbn [setEntity enemies set_enemies].
      apply Forall_insert; assumption. }
    apply (updatePhysics_modesOk (TheEnemy i) dt) in H1.
    revert H1.
    generalize (updatePhysics (TheEnemy i) dt
                  (setEntity (TheEnemy i)
                     (steerEnemy s (getEntity (TheEnemy i) s)) s)) as s2.
    intros s2 H2.
    destruct (touchesPlayer s2 i); [|exact H2].
    destruct (_ && _); [|exact H2]. apply catchPlayer_modesOk, H2.
Qed.

Lemma updateHole_modesOk (dt : float) (s : State) (entry : Z * Z * DugHole) :
  modesOk s -> modesOk (updateHole dt s entry).
Proof.
  intros [Hp He]. destruct entry as [k h]. split.
  - rewrite updateHole_player. destruct (_ && _ && _); [|exact Hp].
    unfold playerOk, entityOk, freePlayer in *. cbn.
    apply andb_prop in Hp as [_ Hp]. exact Hp.
  - rewrite updateHole_enemies. destruct (_ && _); [|exact He].
    apply Forall_fmap. eapply Forall_impl; [exact He|].
    intros en Hen. cbn. destruct (isAlive en && _) eqn:Hc; [|exact Hen].
    apply andb_prop in Hc as [Ha _]. unfold killEnemy, entityOk. rewrite Ha.
    reflexivity.
Qed.

Lemma checkLevelCompletion_entities (s : State) :
  player (checkLevelCompletion s) = player s
  /\ enemies (checkLevelCompletion s) = enemies s.
Proof.
  unfold checkLevelCompletion, revealExitLadder.
  destruct (_ && _ && _); split; reflexivity.
Qed.

Lemma initEnemies_entityOk (l : list nat) (s : State) :
  Forall (fun en => entityOk en = true) (enemies s) ->
  Forall (fun en => entityOk en = true) (enemies (foldl initEnemy s l)).
Proof.
  revert s. induction l as [|i l IH]; intros s Hs; [exact Hs|].
  cbn [foldl]. apply IH. unfold initEnemy, rand. cbn.
  apply Forall_insert; [exact Hs|]. reflexivity.
Qed.

Lemma initEnemies_player (l : list nat) (s : State) :
  player (foldl initEnemy s l) = player s.
Proof.
  revert s. induction l as [|i l IH]; intros s; [reflexivity|].
  cbn [foldl]. rewrite IH. reflexivity.
Qed.

Lemma initLevel_entityOk (s : State) :
  Forall (fun en => entityOk en = true) (enemies s) ->
  Forall (fun en => entityOk en = true) (enemies (initLevel s)).
Proof.
  intros He. unfold initLevel. generalize (scanLayout levelLayout) as a. intros a.
  cbn [enemies set_enemies set_player set_collectibles set_level
       set_levelComplete set_totalCollectibles].
  apply Forall_lookup. intros i en.
  rewrite list_lookup_imap.
  destruct (enemies s !! i) as [en0|] eqn:Hi; simpl;
    intros Heq; [|discriminate Heq].
  injection Heq as <-. exact (proj1 (Forall_lookup _ _) He i en0 Hi).
Qed.

Lemma init_entities (tape : nat -> Z) (s : State) :
  player (init tape s)
  = initPlayer (player (initLevel (set_randPos 0%nat (set_randTape tape s))))
  /\ enemies (init tape s)
     = enemies (foldl initEnemy
                  (set_player
                     (initPlayer
                        (player (initLevel (set_randPos 0%nat (set_randTape tape s)))))
                     (initLevel (set_randPos 0%nat (set_randTape tape s))))
                  (seq 0 numEnemies)).
Proof.
  unfold init, initEntities. cbv zeta.
  generalize (initLevel (set_randPos 0%nat (set_randTape tape s))) as s1. intros s1.
  generalize (seq 0 numEnemies) as l. intros l.
  cbn [player enemies set_gameTime set_dugHoles set_levelComplete set_gameWon
       set_gameOver set_collectiblesCollected set_lives set_score].
  split; [apply initEnemies_player | reflexivity].
Qed.

Lemma initPlayer_playerOk (p : Entity) : playerOk (initPlayer p) = true.
Proof. reflexivity. Qed.

Lemma init_modesOk (tape : nat -> Z) (s : State) :
  modesOk s -> modesOk (init tape s).
Proof.
  intros [_ He]. destruct (init_entities tape s) as [Hp Hen].
  split; [rewrite Hp; apply initPlayer_playerOk|]. rewrite Hen.
  pose proof (initLevel_entityOk (set_randPos 0%nat (set_randTape tape s)) He) as H1.
  revert H1.
  generalize (initLevel (set_randPos 0%nat (set_randTape tape s))) as s1.
  intros s1 H1. apply initEnemies_entityOk. exact H1.
Qed.

Lemma update_modesOk (elapsed : float) (s : State) :
  modesOk s -> modesOk (update elapsed s).
Proof.
  apply (update_preserves modesOk).
  - intros v s0 H. exact H.
  - intros dt s0 [Hp He] _ _.
    destruct (handleInput_frame dt s0) as ((Hen & _) & (_ & _ & Ht & _) & Hcr).
    cbv zeta in Hen, Ht, Hcr. split; [|rewrite Hen; exact He].
    destruct (isTrapped (player s0)) eqn:Htr.
    + assert (handleInput dt s0 = s0) as ->; [|exact Hp].
      unfold handleInput. rewrite Htr, orb_true_r. reflexivity.
    + unfold playerOk, entityOk in *. apply andb_prop in Hp as [_ Hcr0].
      apply negb_true_iff in Hcr0. rewrite (Hcr Hcr0), Ht. reflexivity.
  - intros dt s0 H _ _. apply updatePlayer_modesOk, H.
  - intros dt s0 i H. apply updateEnemy_modesOk, H.
  - intros dt s0 entry H. apply updateHole_modesOk, H.
  - intros s0 [Hp He]. destruct (checkLevelCompletion_entities s0) as [Hp' He'].
    split; [rewrite Hp' | rewrite He']; assumption.
Qed.
(** ** The books of the collectibles *)

Lemma rowCount_cons (v : Z) (row : list Z) :
  rowCount (v :: row) = (if v =? 1 then 1 else 0) + rowCount row.
Proof. reflexivity. Qed.

Lemma remaining_cons (row : list Z) (c : list (list Z)) :
  remaining (row :: c) = rowCount row + remaining c.
Proof. reflexivity. Qed.

Lemma rowCount_nonneg (row : list Z) : 0 <= rowCount row.
Proof.
  induction row as [|v row IH]; [cbn; lia|].
  rewrite rowCount_cons. destruct (v =? 1); lia.
Qed.

Lemma remaining_nonneg (c : list (list Z)) : 0 <= remaining c.
Proof.
  induction c as [|row c IH]; [cbn; lia|].
  rewrite remaining_cons. pose proof (rowCount_nonneg row). lia.
Qed.

Lemma rowCount_take (row : list Z) (i : nat) :
  row !! i = Some 1 -> rowCount (<[i := 0]> row) = rowCount row - 1.
Proof.
  revert i. induction row as [|v row IH]; intros i Hi; [discriminate|].
  destruct i as [|i].
  - injection Hi as ->. change (<[0%nat := 0]> (1 :: row)) with (0 :: row).
    rewrite !rowCount_cons. cbn. lia.
  - change (<[S i := 0]> (v :: row)) with (v :: <[i := 0]> row).
    rewrite !rowCount_cons, (IH i Hi). lia.
Qed.

Lemma remaining_take (c : list (list Z)) (x y : Z) :
  collectibleAt c x y = 1 ->
  remaining (setCollectibleAt c x y 0) = remaining c - 1.
Proof.
  unfold collectibleAt, setCollectibleAt.
  destruct (_ && _); [|discriminate].
  generalize (Z.to_nat y) as j. generalize (Z.to_nat x) as i. intros i j.
  revert j. induction c as [|row c IH]; intros j; [discriminate|].
  destruct j as [|j].
  - change (alter (<[i := 0]>) 0%nat (row :: c)) with (<[i := 0]> row :: c).
    change ((row :: c) !! 0%nat) with (Some row).
    rewrite !remaining_cons. intros H. rewrite rowCount_take; [lia|].
    change (Some row ≫= (.!! i)) with (row !! i) in H.
    destruct (row !! i) as [v|]; [|discriminate H].
    simpl in H. subst v. reflexivity.
  - change (alter (<[i := 0]>) (S j) (row :: c))
      with (row :: alter (<[i := 0]>) j c).
    change ((row :: c) !! S j) with (c !! j).
    rewrite !remaining_cons. intros H. rewrite (IH j H). lia.
Qed.

Lemma collectAt_account (cx cy : Z) (s : State) (d : Z * Z) :
  accountOk s -> accountOk (collectAt cx cy s d).
Proof.
  intros (Hs & Hc & H0). unfold collectAt. destruct d as [dx dy].
  destruct (inBounds _ _); [|repeat split; assumption].
  destruct (collectibleAt _ _ _ =? 1) eqn:H1; [|repeat split; assumption].
  destruct (isColliding _ _ _ _ _ _ _ _); [|repeat split; assumption].
  apply Z.eqb_eq in H1. unfold accountOk.
  cbn [score collectiblesCollected collectibles totalCollectibles set_score
       set_collectiblesCollected set_collectibles].
  rewrite (remaining_take _ _ _ H1). unfold POINTS_PER_COLLECTIBLE in *. lia.
Qed.

Lemma collectAt_frame (cx cy : Z) (s : State) (d : Z * Z) :
  levelComplete (collectAt cx cy s d) = levelComplete s
  /\ totalCollectibles (collectAt cx cy s d) = totalCollectibles s
  /\ gameOver (collectAt cx cy s d) = gameOver s
  /\ gameWon (collectAt cx cy s d) = gameWon s
  /\ remaining (collectibles (collectAt cx cy s d)) <= remaining (collectibles s).
Proof.
  unfold collectAt. destruct d as [dx dy].
  destruct (inBounds _ _); [|repeat split; lia].
  destruct (collectibleAt _ _ _ =? 1) eqn:H1; [|repeat split; lia].
  destruct (isColliding _ _ _ _ _ _ _ _); [|repeat split; lia].
  apply Z.eqb_eq in H1.
  cbn [levelComplete gameOver gameWon collectibles totalCollectibles set_score
       set_collectiblesCollected set_collectibles].
  rewrite (remaining_take _ _ _ H1). repeat split; lia.
Qed.
(** ** What the entity stages leave alone *)

Lemma sameBoard_refl (s : State) : sameBoard s s.
Proof. repeat split. Qed.

Lemma sameBoard_trans (s1 s2 s3 : State) :
  sameBoard s1 s2 -> sameBoard s2 s3 -> sameBoard s1 s3.
Proof.
  unfold sameBoard. intros H1 H2.
  repeat match goal with H : _ /\ _ |- _ => destruct H end.
  repeat split; congruence.
Qed.

Lemma foldl_sameBoard {A : Type} (f : State -> A -> State) (l : list A) :
  (forall s a, sameBoard s (f s a)) -> forall s, sameBoard s (foldl f s l).
Proof.
  intros Hf. induction l as [|a l IH]; intros s; [apply sameBoard_refl|].
  cbn [foldl]. eapply sameBoard_trans; [apply Hf | apply IH].
Qed.

Lemma handleInput_sameBoard (dt : float) (s : State) :
  sameBoard s (handleInput dt s).
Proof.
  destruct (handleInput_frame dt s) as (H & _). cbv zeta in H.
  unfold sameBoard. tauto.
Qed.

Lemma setEntity_sameBoard (r : EntityRef) (e : Entity) (s : State) :
  sameBoard s (setEntity r e s).
Proof. destruct r; repeat split. Qed.

Lemma updatePhysics_sameBoard (r : EntityRef) (dt : float) (s : State) :
  sameBoard s (updatePhysics r dt s).
Proof.
  destruct (updatePhysics_writes r dt s) as (l & g & ->).
  destruct r; repeat split.
Qed.

Lemma catchPlayer_sameBoard (i : nat) (s : State) : sameBoard s (catchPlayer i s).
Proof.
  unfold catchPlayer, rand. destruct (_ <=? 0); repeat split.
Qed.

Lemma updateEnemy_sameBoard (dt : float) (s : State) (i : nat) :
  sameBoard s (updateEnemy dt s i).
Proof.
  unfold updateEnemy.
  destruct (negb (isAlive _)).
  - destruct (_ <=? _)%f32; repeat split.
  - destruct (isTrapped _); [apply updatePhysics_sameBoard|].
    match goal with
    | |- sameBoard s (if touchesPlayer ?s2 i then _ else _) =>
        assert (sameBoard s s2) as H2
          by (eapply sameBoard_trans;
              [apply (setEntity_sameBoard (TheEnemy i))
              | apply updatePhysics_sameBoard]);
        revert H2; generalize s2
    end.
    intros s2 H2.
    destruct (touchesPlayer _ i); [|exact H2].
    destruct (_ && _); [|exact H2].
    eapply sameBoard_trans; [exact H2 | apply catchPlayer_sameBoard].
Qed.

Lemma updateHole_sameBoard (dt : float) (s : State) (entry : Z * Z * DugHole) :
  sameBoard s (updateHole dt s entry).
Proof.
  unfold updateHole, refillHole. destruct entry as [k h].
  break_conditions; repeat split.
Qed.

Lemma checkLevelCompletion_board (s : State) :
  gameWon (checkLevelCompletion s) = gameWon s
  /\ gameOver (checkLevelCompletion s) = gameOver s
  /\ collectibles (checkLevelCompletion s) = collectibles s
  /\ collectiblesCollected (checkLevelCompletion s) = collectiblesCollected s
  /\ totalCollectibles (checkLevelCompletion s) = totalCollectibles s
  /\ score (checkLevelCompletion s) = score s
  /\ levelComplete (checkLevelCompletion s)
     = levelComplete s
       || ((collectiblesCollected s >=? totalCollectibles s)
           && (totalCollectibles s >? 0)).
Proof.
  unfold checkLevelCompletion, revealExitLadder.
  destruct (levelComplete s) eqn:Hlc; cbn [negb].
  - rewrite !andb_false_l. repeat split; try reflexivity. exact Hlc.
  - rewrite andb_true_l, orb_false_l.
    destruct (_ && _); repeat split; try reflexivity. exact Hlc.
Qed.

Lemma checkExitReached_board (s : State) :
  levelComplete (checkExitReached s) = levelComplete s
  /\ gameOver (checkExitReached s) = gameOver s
  /\ collectibles (checkExitReached s) = collectibles s
  /\ collectiblesCollected (checkExitReached s) = collectiblesCollected s
  /\ totalCollectibles (checkExitReached s) = totalCollectibles s
  /\ score (checkExitReached s) = score s
  /\ (gameWon (checkExitReached s) = true ->
      gameWon s = true \/ levelComplete s = true).
Proof.
  unfold checkExitReached.
  destruct (levelComplete s) eqn:Hlc;
    [rewrite andb_true_l | rewrite andb_false_l]; break_conditions;
    repeat split; cbn; try reflexivity; try assumption;
    intros H; first [left; exact H | right; reflexivity].
Qed.

(** ** The books stay balanced *)

Lemma sameBoard_booksOk (s s' : State) : sameBoard s s' -> booksOk s -> booksOk s'.
Proof.
  unfold sameBoard, booksOk, accountOk.
  intros (_ & Hlc & Hc & Hcc & Ht & Hsc & _). rewrite Hlc, Hc, Hcc, Ht, Hsc.
  intros H; exact H.
Qed.

Lemma collectAt_booksOk (cx cy : Z) (s : State) (d : Z * Z) :
  booksOk s -> booksOk (collectAt cx cy s d).
Proof.
  intros [Ha Hl]. split; [apply collectAt_account, Ha|].
  destruct (collectAt_frame cx cy s d) as (Hlc & Ht & _ & _ & Hle).
  rewrite Hlc, Ht. intros H. destruct (Hl H) as [Hr Hpos].
  pose proof (remaining_nonneg (collectibles (collectAt cx cy s d))).
  split; [lia | exact Hpos].
Qed.

Lemma checkExitReached_booksOk (s : State) :
  booksOk s -> booksOk (checkExitReached s).
Proof.
  destruct (checkExitReached_board s) as (Hlc & _ & Hc & Hcc & Ht & Hsc & _).
  unfold booksOk, accountOk. rewrite Hlc, Hc, Hcc, Ht, Hsc. intros H; exact H.
Qed.

Lemma updatePlayer_booksOk (dt : float) (s : State) :
  booksOk s -> booksOk (updatePlayer dt s).
Proof.
  intros Hs. unfold updatePlayer. destruct (negb _); [exact Hs|]. cbv zeta.
  apply checkExitReached_booksOk.
  pose proof (sameBoard_booksOk _ _ (updatePhysics_sameBoard ThePlayer dt s) Hs) as H1.
  revert H1. generalize (updatePhysics ThePlayer dt s) as s1. intros s1 H1.
  generalize (getGridX (posX (player s1) + TILE_SIZE * flit 8 10 / i2f 2)%f32) as cx.
  generalize (getGridY (posY (player s1) + TILE_SIZE * flit 95 100 / i2f 2)%f32) as cy.
  intros cy cx. revert s1 H1.
  induction pickupOffsets as [|d l IH]; intros s1 H1; [exact H1|].
  cbn [foldl]. apply IH, collectAt_booksOk, H1.
Qed.

Lemma checkLevelCompletion_booksOk (s : State) :
  booksOk s -> booksOk (checkLevelCompletion s) /\ completionOk (checkLevelCompletion s).
Proof.
  intros [(Hsc & Hbal & H0) Hl].
  destruct (checkLevelCompletion_board s) as (_ & _ & Hc & Hcc & Ht & Hs & Hlc).
  unfold booksOk, accountOk, completionOk. rewrite Hc, Hcc, Ht, Hs, Hlc.
  pose proof (remaining_nonneg (collectibles s)) as Hr.
  assert (levelComplete s
          || (collectiblesCollected s >=? totalCollectibles s)
             && (totalCollectibles s >? 0) = true
          <-> remaining (collectibles s) = 0 /\ 0 < totalCollectibles s) as Hiff.
  { destruct (levelComplete s); cbn [orb].
    - split; [intros _; apply Hl; reflexivity | reflexivity].
    - rewrite andb_true_iff. split.
      + intros [H1 H2]. lia.
      + intros [H1 H2]. split; lia. }
  split; [split; [repeat split; assumption|]|]; apply Hiff.
Qed.

Lemma tick_booksOk (dt : float) (s : State) :
  booksOk s -> gameOver s = false -> gameWon s = false ->
  booksOk (updateDigging dt (updateEnemies dt (updatePlayer dt (handleInput dt s)))).
Proof.
  apply (tick_preserves booksOk).
  - intros dt0 s0 H _ _. exact (sameBoard_booksOk _ _ (handleInput_sameBoard dt0 s0) H).
  - intros dt0 s0 H _ _. apply updatePlayer_booksOk, H.
  - intros dt0 s0 i H. exact (sameBoard_booksOk _ _ (updateEnemy_sameBoard dt0 s0 i) H).
  - intros dt0 s0 e H. exact (sameBoard_booksOk _ _ (updateHole_sameBoard dt0 s0 e) H).
Qed.

Lemma update_books (elapsed : float) (s : State) :
  accountOk s -> completionOk s ->
  accountOk (update elapsed s) /\ completionOk (update elapsed s).
Proof.
  intros Ha Hc. rewrite update_stages. cbv zeta.
  generalize (clampDelta elapsed) as dt. intros dt.
  destruct (negb (gameOver s) && negb (gameWon s)) eqn:Hrun; [|split; assumption].
  apply andb_prop in Hrun as [Ho Hw]. apply negb_true_iff in Ho, Hw.
  assert (booksOk (set_gameTime (gameTime s + dt)%f32 s)) as H0
    by (split; [exact Ha | apply Hc]).
  pose proof (tick_booksOk dt _ H0 Ho Hw) as H4. revert H4.
  generalize (updateDigging dt (updateEnemies dt (updatePlayer dt
                (handleInput dt (set_gameTime (gameTime s + dt)%f32 s))))) as s4.
  intros s4 H4. destruct (checkLevelCompletion_booksOk s4 H4) as [[H5 _] H6].
  split; assumption.
Qed.
Lemma init_board (tape : nat -> Z) (s : State) :
  score (init tape s) = 0
  /\ collectiblesCollected (init tape s) = 0
  /\ collectibles (init tape s) = collectibles startState
  /\ totalCollectibles (init tape s) = totalCollectibles startState
  /\ levelComplete (init tape s) = false
  /\ gameOver (init tape s) = false /\ gameWon (init tape s) = false
  /\ lives (init tape s) = INITIAL_LIVES.
Proof.
  split; [reflexivity|]. split; [reflexivity|]. split; [reflexivity|].
  split; [reflexivity|]. split; [reflexivity|]. split; [reflexivity|].
  split; reflexivity.
Qed.

Lemma startState_collectibles :
  remaining (collectibles startState) = 18 /\ totalCollectibles startState = 18.
Proof. split; vm_compute; reflexivity. Qed.

Lemma init_books (tape : nat -> Z) (s : State) :
  accountOk (init tape s) /\ completionOk (init tape s).
Proof.
  destruct (init_board tape s) as (Hs & Hcc & Hc & Ht & Hlc & _).
  destruct startState_collectibles as [Hr H18].
  unfold accountOk, completionOk. rewrite Hs, Hcc, Hc, Ht, Hlc, Hr, H18.
  split; [repeat split; lia|]. split; [discriminate | lia].
Qed.

Lemma update_total (elapsed : float) (s : State) :
  totalCollectibles (update elapsed s) = totalCollectibles s.
Proof.
  apply (update_preserves (fun s' => totalCollectibles s' = totalCollectibles s));
    try reflexivity.
  - intros v s0 H. exact H.
  - intros dt s0 H _ _. rewrite <- H. apply (handleInput_sameBoard dt s0).
  - intros dt s0 H _ _. rewrite <- H. apply (updatePlayer_sameGrid dt s0).
  - intros dt s0 i H. rewrite <- H. apply (updateEnemy_sameBoard dt s0 i).
  - intros dt s0 e H. rewrite <- H. apply (updateHole_sameBoard dt s0 e).
  - intros s0 H. rewrite <- H. apply (checkLevelCompletion_board s0).
Qed.

(** The books of the collectibles are balanced at every callback
    boundary.  If the score is 100 times the collected count, collected
    and remaining collectibles add up to the total, and level-complete
    says that none remains of a positive total, then the same holds after
    any callback.  In every state a session reaches from program start the
    total is 18, so the score is 100 for each collected one, at most 1800,
    and the level is complete exactly when no collectible remains. *)
Theorem collectible_books_balance :
  (forall ev s s',
     accountOk s -> completionOk s -> step ev s = Some s' ->
     accountOk s' /\ completionOk s'
     /\ (totalCollectibles s' = totalCollectibles s
         \/ totalCollectibles s' = 18))
  /\ (forall tape evs s,
        run evs (init tape bootState) = Some s ->
        score s = 100 * collectiblesCollected s
        /\ collectiblesCollected s + remaining (collectibles s) = 18
        /\ 0 <= collectiblesCollected s <= 18
        /\ (levelComplete s = true <-> remaining (collectibles s) = 0)).
Proof.
  split.
  - intros ev s s' Ha Hc Hstep.
    destruct ev as [elapsed | key tape | key | key | key]; cbn [step] in Hstep.
    + injection Hstep as <-. destruct (update_books elapsed s Ha Hc) as [Ha' Hc'].
      split; [exact Ha'|]. split; [exact Hc'|]. left. apply update_total.
    + unfold keyboardDown, resetGame in Hstep.
      destruct (key =? 27)%nat; [discriminate Hstep|].
      destruct (_ && _); injection Hstep as <-.
      * destruct (init_books tape
                    (set_keyStates (<[tolower key := true]> (keyStates s)) s))
          as [Ha' Hc'].
        split; [exact Ha'|]. split; [exact Hc'|]. right.
        destruct (init_board tape
                    (set_keyStates (<[tolower key := true]> (keyStates s)) s))
          as (_ & _ & _ & Ht & _).
        rewrite Ht. apply startState_collectibles.
      * split; [exact Ha|]. split; [exact Hc|]. left. reflexivity.
    + injection Hstep as <-. split; [exact Ha|]. split; [exact Hc|]. left. reflexivity.
    + injection Hstep as <-. split; [exact Ha|]. split; [exact Hc|]. left. reflexivity.
    + injection Hstep as <-. split; [exact Ha|]. split; [exact Hc|]. left. reflexivity.
  - intros tape evs s Hrun.
    assert (accountOk s /\ completionOk s /\ totalCollectibles s = 18)
      as ((Hs & Hbal & H0) & Hc & Ht).
    { revert Hrun.
      apply (run_preserves
               (fun s => accountOk s /\ completionOk s /\ totalCollectibles s = 18)).
      - intros e s0 (Ha & Hc & Ht). destruct (update_books e s0 Ha Hc) as [Ha' Hc'].
        split; [exact Ha'|]. split; [exact Hc'|]. rewrite update_total. exact Ht.
      - intros v s0 H. exact H.
      - intros v s0 H. exact H.
      - intros tape0 s0 _. destruct (init_books tape0 s0) as [Ha' Hc'].
        split; [exact Ha'|]. split; [exact Hc'|].
        destruct (init_board tape0 s0) as (_ & _ & _ & Ht & _).
        rewrite Ht. apply startState_collectibles.
      - destruct (init_books tape bootState) as [Ha' Hc'].
        split; [exact Ha'|]. split; [exact Hc'|].
        destruct (init_board tape bootState) as (_ & _ & _ & Ht & _).
        rewrite Ht. apply startState_collectibles. }
    pose proof (remaining_nonneg (collectibles s)) as Hr.
    unfold completionOk in Hc. unfold POINTS_PER_COLLECTIBLE in Hs.
    rewrite Ht in *.
    split; [exact Hs|]. split; [exact Hbal|]. split; [lia|].
    rewrite Hc. split; [intros [H _]; exact H | intros H; split; [exact H | lia]].
Qed.

Lemma collectState_books : accountOk collectState /\ completionOk collectState.
Proof.
  assert (remaining (collectibles collectState) = 18) as Hr
    by (vm_compute; reflexivity).
  unfold accountOk, completionOk. rewrite Hr.
  split; [repeat split; vm_compute; try reflexivity; discriminate|].
  split; [intros H; vm_compute in H; discriminate H | intros [H _]; discriminate H].
Qed.

Lemma collectible_books_balance_witness :
  collectiblesCollected (update frameTime collectState) = 1
  /\ score (update frameTime collectState) = 100
  /\ remaining (collectibles (update frameTime collectState)) = 17
  /\ score playedState = 100 * collectiblesCollected playedState.
Proof.
  destruct collectible_books_balance as [Hstep Hrun].
  destruct collectState_books as [Ha Hc].
  destruct (Hstep (Tick frameTime) collectState (update frameTime collectState)
              Ha Hc eq_refl) as ((Hs & Hbal & _) & _ & _).
  assert (collectiblesCollected (update frameTime collectState) = 1) as H1
    by (vm_compute; reflexivity).
  assert (totalCollectibles (update frameTime collectState) = 18) as H18
    by (vm_compute; reflexivity).
  unfold POINTS_PER_COLLECTIBLE in Hs. rewrite H1 in Hs, Hbal. rewrite H18 in Hbal.
  split; [exact H1|]. split; [exact Hs|]. split; [lia|].
  assert (run sampleRun (init (fun _ => 0) bootState) = Some playedState) as Hplayed
    by (vm_compute; reflexivity).
  exact (proj1 (Hrun _ _ _ Hplayed)).
Defined.
Lemma bootState_modesOk : modesOk bootState.
Proof.
  split; [reflexivity|]. cbn. repeat constructor.
Qed.

Lemma modesOk_flags (s : State) :
  modesOk s ->
  isTrapped (player s) && isFalling (player s) = false
  /\ isClimbing (player s) && isOnRope (player s) = false
  /\ forall i en, enemies s !! i = Some en -> isTrapped en && isFalling en = false.
Proof.
  intros [Hp He]. unfold playerOk, entityOk in Hp.
  apply andb_prop in Hp as [Hp1 Hp2]. apply negb_true_iff in Hp1, Hp2.
  split; [exact Hp1|]. split; [exact Hp2|].
  intros i en Hi. pose proof (proj1 (Forall_lookup _ _) He i en Hi) as H.
  unfold entityOk in H. apply negb_true_iff in H. exact H.
Qed.

(** The movement modes stay exclusive.  If in a state no entity is both
    trapped and falling and the player is not both climbing and on a
    rope, the same holds after any callback: a tick, a key press (with
    or without the reset it may trigger) or a key release.  So in every
    state a session reaches from program start the player is never
    trapped and falling at once, nor climbing and on a rope at once, and
    no enemy is trapped and falling at once. *)
Theorem movement_modes_exclusive :
  (forall ev s s', modesOk s -> step ev s = Some s' -> modesOk s')
  /\ (forall tape evs s,
        run evs (init tape bootState) = Some s ->
        isTrapped (player s) && isFalling (player s) = false
        /\ isClimbing (player s) && isOnRope (player s) = false
        /\ forall i en, enemies s !! i = Some en ->
                        isTrapped en && isFalling en = false).
Proof.
  assert (forall ev s s', modesOk s -> step ev s = Some s' -> modesOk s') as Hstep.
  { intros ev s s'. apply (step_preserves modesOk).
    - intros e s0. apply update_modesOk.
    - intros v s0 H. exact H.
    - intros v s0 H. exact H.
    - intros tape s0. apply init_modesOk. }
  split; [exact Hstep|].
  intros tape evs s Hrun. apply modesOk_flags. revert Hrun.
  apply (run_preserves modesOk).
  - intros e s0. apply update_modesOk.
  - intros v s0 H. exact H.
  - intros v s0 H. exact H.
  - intros tape0 s0. apply init_modesOk.
  - apply init_modesOk, bootState_modesOk.
Qed.

Lemma fallingState_modesOk : modesOk fallingState.
Proof.
  split; [vm_compute; reflexivity|].
  apply Forall_lookup. intros i en Hi.
  destruct i as [|[|[|i]]]; vm_compute in Hi; try discriminate Hi;
    injection Hi as <-; vm_compute; reflexivity.
Qed.

Lemma movement_modes_exclusive_witness :
  isTrapped (player (update frameTime fallingState)) = true
  /\ isFalling (player (update frameTime fallingState)) = false
  /\ isTrapped (player playedState) && isFalling (player playedState) = false.
Proof.
  destruct movement_modes_exclusive as [Hstep Hrun].
  pose proof (Hstep (Tick frameTime) fallingState (update frameTime fallingState)
                fallingState_modesOk eq_refl) as Hm.
  apply modesOk_flags in Hm. destruct Hm as (Htf & _).
  assert (isTrapped (player (update frameTime fallingState)) = true) as Ht
    by (vm_compute; reflexivity).
  rewrite Ht in Htf. cbn [andb] in Htf.
  split; [exact Ht|]. split; [exact Htf|].
  assert (run sampleRun (init (fun _ => 0) bootState) = Some playedState) as Hplayed
    by (vm_compute; reflexivity).
  exact (proj1 (Hrun _ _ _ Hplayed)).
Defined.
(** ** Winning and losing *)

Lemma boundaryChecks_gameOver (e : Entity) (l : Z) :
  (boundaryChecks ThePlayer e l false).2 = true ->
  posY (boundaryChecks ThePlayer e l false).1.1 = i2f 0.
Proof.
  unfold boundaryChecks. cbn [isPlayerRef].
  destruct (_ <? - TILE_SIZE)%f32; [|discriminate].
  destruct (l - 1 <=? 0); [reflexivity | discriminate].
Qed.

Lemma holeCheck_on_floor (s : State) (r : EntityRef) (e : Entity) :
  posY e = i2f 0 -> posY (holeCheck s r e) = i2f 0.
Proof.
  intros Hy. unfold holeCheck, trapInHole.
  assert (getGridY (i2f 0 + i2f 1)%f32 = 0) as Hg by (vm_compute; reflexivity).
  assert ((i2f 0 * TILE_SIZE)%f32 = i2f 0) as Hz by (vm_compute; reflexivity).
  break_conditions; cbn; rewrite ?Hy, ?Hg, ?Hz; first [reflexivity | exact Hy].
Qed.

Lemma checkExitReached_on_floor (s : State) :
  posY (player s) = i2f 0 -> checkExitReached s = s.
Proof.
  intros Hy. unfold checkExitReached. rewrite Hy.
  destruct (_ && _); [|reflexivity].
  assert ((getGridY (i2f 0 + TILE_SIZE * flit 9 10)%f32 >=? GRID_HEIGHT - 1 - 1)
          = false)
    as -> by (vm_compute; reflexivity).
  reflexivity.
Qed.

Lemma updatePhysics_player_over (dt : float) (s : State) :
  gameOver s = false -> gameOver (updatePhysics ThePlayer dt s) = true ->
  posY (player (updatePhysics ThePlayer dt s)) = i2f 0.
Proof.
  intros Ho. unfold updatePhysics. cbn [getEntity].
  destruct (isTrapped (player s)); [cbn; congruence|].
  rewrite Ho.
  pose proof (boundaryChecks_gameOver (moveEntity s ThePlayer (player s) dt) (lives s))
    as Hb.
  destruct (boundaryChecks _ _ _ _) as [[e1 l1] g1]. cbn [fst snd] in Hb.
  cbn [setEntity gameOver set_player player set_gameOver set_lives].
  intros Hg. apply holeCheck_on_floor, Hb, Hg.
Qed.

Lemma collectLoop_board (cx cy : Z) (l : list (Z * Z)) (s : State) :
  levelComplete (foldl (collectAt cx cy) s l) = levelComplete s
  /\ gameOver (foldl (collectAt cx cy) s l) = gameOver s
  /\ gameWon (foldl (collectAt cx cy) s l) = gameWon s.
Proof.
  revert s. induction l as [|d l IH]; intros s; [repeat split|].
  cbn [foldl]. destruct (IH (collectAt cx cy s d)) as (-> & -> & ->).
  destruct (collectAt_frame cx cy s d) as (Hlc & _ & Ho & Hw & _).
  repeat split; assumption.
Qed.

Lemma updatePlayer_flags (dt : float) (s : State) :
  gameOver s = false -> gameWon s = false ->
  levelComplete (updatePlayer dt s) = levelComplete s
  /\ gameOver (updatePlayer dt s) && gameWon (updatePlayer dt s) = false
  /\ (gameWon (updatePlayer dt s) = true ->
      levelComplete s = true /\ isAlive (player s) = true).
Proof.
  intros Ho Hw. unfold updatePlayer.
  destruct (isAlive (player s)); cbn [negb].
  2:{ rewrite Ho, Hw. split; [reflexivity|]. split; [reflexivity|].
      intros H; discriminate H. }
  cbv zeta.
  pose proof (updatePhysics_player_over dt s Ho) as Hfloor.
  pose proof (updatePhysics_sameBoard ThePlayer dt s) as (Hw1 & Hlc1 & _).
  revert Hfloor Hw1 Hlc1. generalize (updatePhysics ThePlayer dt s) as s1.
  intros s1 Hfloor Hw1 Hlc1.
  match goal with
  | |- context [foldl (collectAt ?cx ?cy) s1 ?l] =>
      destruct (collectLoop_board cx cy l s1) as (Hlc2 & Ho2 & Hw2);
      destruct (collectLoop_entities cx cy l s1) as (Hp2 & _);
      revert Hlc2 Ho2 Hw2 Hp2; generalize (foldl (collectAt cx cy) s1 l) as s2
  end.
  intros s2 Hlc2 Ho2 Hw2 Hp2.
  destruct (checkExitReached_board s2) as (Hlc3 & Ho3 & _ & _ & _ & _ & Hw3).
  split; [congruence|]. split.
  - destruct (gameOver s1) eqn:Ho1.
    + rewrite checkExitReached_on_floor by (rewrite Hp2; apply Hfloor; reflexivity).
      rewrite Hw2, Hw1, Hw. apply andb_false_r.
    + rewrite Ho3, Ho2, ?Ho1. reflexivity.
  - intros H. split; [|reflexivity]. destruct (Hw3 H) as [H' | H']; congruence.
Qed.

Lemma updateEnemy_gameOver (dt : float) (s : State) (i : nat) :
  gameWon s = true -> gameOver (updateEnemy dt s i) = gameOver s.
Proof.
  intros Hw. destruct (updateEnemy_session dt s i) as [_ ->].
  assert (enemyCatches dt s i = false) as ->; [|apply orb_false_r].
  unfold enemyCatches. cbv zeta.
  match goal with
  | |- context [gameWon (updatePhysics ?r ?d (setEntity ?r2 ?e s))] =>
      assert (gameWon (updatePhysics r d (setEntity r2 e s)) = true) as ->
        by (destruct (updatePhysics_sameBoard r d (setEntity r2 e s)) as (-> & _);
            exact Hw)
  end.
  cbn [negb]. rewrite !andb_false_r. reflexivity.
Qed.

Lemma updateEnemy_flagsOk (dt : float) (s : State) (i : nat) :
  flagsOk s -> flagsOk (updateEnemy dt s i).
Proof.
  intros [Hex Hwl]. destruct (updateEnemy_sameBoard dt s i) as (Hw & Hlc & _).
  unfold flagsOk. rewrite Hw, Hlc. split; [|exact Hwl].
  destruct (gameWon s) eqn:Hwon; [|apply andb_false_r].
  rewrite (updateEnemy_gameOver dt s i Hwon). exact Hex.
Qed.

Lemma updateHole_flagsOk (dt : float) (s : State) (entry : Z * Z * DugHole) :
  flagsOk s -> flagsOk (updateHole dt s entry).
Proof.
  destruct (updateHole_sameBoard dt s entry) as (Hw & Hlc & _).
  destruct (updateHole_frame dt s entry) as (_ & _ & _ & _ & Ho).
  unfold flagsOk. rewrite Hw, Hlc, Ho. intros H; exact H.
Qed.

Lemma checkLevelCompletion_flagsOk (s : State) :
  flagsOk s -> flagsOk (checkLevelCompletion s).
Proof.
  destruct (checkLevelCompletion_board s) as (Hw & Ho & _ & _ & _ & _ & Hlc).
  unfold flagsOk. rewrite Hw, Ho, Hlc. intros [Hex Hwl].
  split; [exact Hex|]. intros H. rewrite (Hwl H). reflexivity.
Qed.

Lemma update_flagsOk (elapsed : float) (s : State) :
  flagsOk s -> flagsOk (update elapsed s).
Proof.
  apply (update_preserves flagsOk).
  - intros v s0 H. exact H.
  - intros dt s0 H Ho Hw.
    destruct (handleInput_frame dt s0) as ((_ & _ & _ & _ & _ & _ & _ & Ho' & Hw' & Hlc' & _) & _).
    cbv zeta in Ho', Hw', Hlc'. unfold flagsOk. rewrite Ho', Hw', Hlc'. exact H.
  - intros dt s0 _ Ho Hw. destruct (updatePlayer_flags dt s0 Ho Hw) as (Hlc & Hex & Hwl).
    split; [exact Hex|]. intros H. rewrite Hlc. apply Hwl, H.
  - intros dt s0 i. apply updateEnemy_flagsOk.
  - intros dt s0 e. apply updateHole_flagsOk.
  - intros s0. apply checkLevelCompletion_flagsOk.
Qed.

Lemma update_win (elapsed : float) (s : State) :
  gameWon s = false -> gameWon (update elapsed s) = true ->
  levelComplete s = true /\ gameOver s = false /\ isAlive (player s) = true.
Proof.
  intros Hw. rewrite update_stages. cbv zeta.
  generalize (clampDelta elapsed) as dt. intros dt.
  destruct (gameOver s) eqn:Ho; cbn [negb andb]; [cbn; congruence|].
  rewrite Hw. cbn [negb].
  destruct (checkLevelCompletion_board
              (updateDigging dt (updateEnemies dt (updatePlayer dt
                 (handleInput dt (set_gameTime (gameTime s + dt)%f32 s))))))
    as (-> & _).
  destruct (foldl_sameBoard (updateHole dt)
              (holeEntries (dugHoles (updateEnemies dt (updatePlayer dt
                 (handleInput dt (set_gameTime (gameTime s + dt)%f32 s))))))
              (updateHole_sameBoard dt)
              (updateEnemies dt (updatePlayer dt
                 (handleInput dt (set_gameTime (gameTime s + dt)%f32 s)))))
    as (Hw4 & _).
  unfold updateDigging. rewrite Hw4.
  destruct (foldl_sameBoard (updateEnemy dt) (seq 0 numEnemies)
              (updateEnemy_sameBoard dt)
              (updatePlayer dt
                 (handleInput dt (set_gameTime (gameTime s + dt)%f32 s))))
    as (Hw3 & _).
  unfold updateEnemies. rewrite Hw3.
  destruct (handleInput_frame dt (set_gameTime (gameTime s + dt)%f32 s))
    as ((_ & _ & _ & _ & _ & _ & _ & Ho1 & Hw1 & Hlc1 & _) & (_ & _ & _ & Ha1 & _) & _).
  cbv zeta in Ho1, Hw1, Hlc1, Ha1.
  revert Ho1 Hw1 Hlc1 Ha1.
  generalize (handleInput dt (set_gameTime (gameTime s + dt)%f32 s)) as s1.
  cbn [gameOver gameWon levelComplete player set_gameTime].
  intros s1 Ho1 Hw1 Hlc1 Ha1 H.
  destruct (updatePlayer_flags dt s1) as (_ & _ & Hwl); [congruence..|].
  destruct (Hwl H) as [H1 H2]. rewrite <- Hlc1, <- Ha1. repeat split; assumption.
Qed.
Lemma init_flagsOk (tape : nat -> Z) (s : State) : flagsOk (init tape s).
Proof.
  destruct (init_board tape s) as (_ & _ & _ & _ & _ & Ho & Hw & _).
  unfold flagsOk. rewrite Ho, Hw. split; [reflexivity | discriminate].
Qed.

(** A game is never both lost and won, and it is won only after the
    level was completed: both hold after any callback if they held
    before, and so in every state a session reaches from program start.
    The tick in which game-won turns true began with level-complete
    already true, the game not over and the player alive: the level is
    completed at the end of one tick and can be won in a later one at
    the earliest. *)
Theorem win_and_loss_exclusive :
  (forall ev s s', flagsOk s -> step ev s = Some s' -> flagsOk s')
  /\ (forall elapsed s,
        gameWon s = false -> gameWon (update elapsed s) = true ->
        levelComplete s = true /\ gameOver s = false
        /\ isAlive (player s) = true)
  /\ (forall tape evs s,
        run evs (init tape bootState) = Some s ->
        gameOver s && gameWon s = false
        /\ (gameWon s = true -> levelComplete s = true)).
Proof.
  split; [|split].
  - intros ev s s'. apply (step_preserves flagsOk).
    + intros e s0. apply update_flagsOk.
    + intros v s0 H. exact H.
    + intros v s0 H. exact H.
    + intros tape s0 _. apply init_flagsOk.
  - apply update_win.
  - intros tape evs s.
    apply (run_preserves flagsOk).
    + intros e s0. apply update_flagsOk.
    + intros v s0 H. exact H.
    + intros v s0 H. exact H.
    + intros tape0 s0 _. apply init_flagsOk.
    + apply init_flagsOk.
Qed.

Lemma win_and_loss_exclusive_witness :
  gameWon (update frameTime exitState) = true
  /\ gameOver (update frameTime exitState) = false
  /\ levelComplete exitState = true.
Proof.
  destruct win_and_loss_exclusive as (Hstep & Hwin & _).
  assert (gameWon exitState = false) as Hw0 by (vm_compute; reflexivity).
  assert (gameWon (update frameTime exitState) = true) as Hw1
    by (vm_compute; reflexivity).
  assert (flagsOk exitState) as Hok.
  { split; [vm_compute; reflexivity|]. intros H. rewrite Hw0 in H. discriminate H. }
  destruct (Hstep (Tick frameTime) exitState (update frameTime exitState) Hok eq_refl)
    as [Hex _].
  rewrite Hw1, andb_true_r in Hex.
  destruct (Hwin frameTime exitState Hw0 Hw1) as (Hlc & _).
  split; [exact Hw1|]. split; [exact Hex | exact Hlc].
Defined.
(** ** The cast of entities *)

Lemma sameRole_sameSpawn (e e' : Entity) : sameRole e e' -> sameSpawn e e'.
Proof. intros (Hs & _ & _ & Hj). split; assumption. Qed.

Lemma sameCast_refl (s : State) : sameCast s s.
Proof. split; [reflexivity | intros H; exact H]. Qed.

Lemma sameCast_trans (s1 s2 s3 : State) :
  sameCast s1 s2 -> sameCast s2 s3 -> sameCast s1 s3.
Proof.
  intros [H1 J1] [H2 J2]. split; [congruence|]. intros H. apply J2, J1, H.
Qed.

Lemma foldl_sameCast {A : Type} (f : State -> A -> State) (l : list A) :
  (forall s a, sameCast s (f s a)) -> forall s, sameCast s (foldl f s l).
Proof.
  intros Hf. induction l as [|a l IH]; intros s; [apply sameCast_refl|].
  cbn [foldl]. eapply sameCast_trans; [apply Hf | apply IH].
Qed.

Lemma sameCast_entities (s s' : State) :
  player s' = player s -> enemies s' = enemies s -> sameCast s s'.
Proof.
  intros Hp He. unfold sameCast, spawnCells. rewrite Hp, He.
  split; [reflexivity | intros H; exact H].
Qed.

Lemma spawn_insert (l : list Entity) (i : nat) (e' : Entity) :
  sameSpawn (default noEntity (l !! i)) e' ->
  map startCell (<[i := e']> l) = map startCell l
  /\ (Forall (fun en => isJumping en = false) l ->
      Forall (fun en => isJumping en = false) (<[i := e']> l)).
Proof.
  intros [Hs Hj]. split.
  - destruct (l !! i) as [e|] eqn:Hi.
    + cbn [default] in Hs. rewrite list_fmap_insert.
      apply list_insert_id. rewrite list_lookup_fmap, Hi. cbn. rewrite Hs.
      reflexivity.
    + rewrite list_insert_ge; [reflexivity|]. apply lookup_ge_None, Hi.
  - intros Hall. apply Forall_insert; [exact Hall|].
    destruct (isJumping e') eqn:Hje; [|reflexivity].
    specialize (Hj eq_refl).
    destruct (l !! i) as [e|] eqn:Hi; cbn [default] in Hj.
    + rewrite <- Hj. exact (proj1 (Forall_lookup _ _) Hall i e Hi).
    + discriminate Hj.
Qed.

Lemma setEntity_sameCast (r : EntityRef) (e' : Entity) (s : State) :
  sameSpawn (getEntity r s) e' -> sameCast s (setEntity r e' s).
Proof.
  destruct r as [|i]; cbn [getEntity setEntity].
  - intros [Hs _]. unfold sameCast, spawnCells. cbn [player enemies set_player].
    rewrite Hs. split; [reflexivity | intros H; exact H].
  - intros H. destruct (spawn_insert (enemies s) i e' H) as [Hm Hj].
    unfold sameCast, spawnCells. cbn [player enemies set_enemies].
    rewrite Hm. split; [reflexivity | exact Hj].
Qed.

Lemma updatePhysics_sameCast (r : EntityRef) (dt : float) (s : State) :
  sameCast s (updatePhysics r dt s).
Proof.
  destruct (updatePhysics_writes r dt s) as (l & g & ->).
  apply (setEntity_sameCast r _ (set_gameOver g (set_lives l s))).
  apply sameRole_sameSpawn. exact (physicsEntity_role r dt s).
Qed.

Lemma handleInput_sameCast (dt : float) (s : State) :
  sameCast s (handleInput dt s).
Proof.
  destruct (handleInput_frame dt s)
    as ((He & _) & (_ & _ & _ & _ & _ & _ & Hx & Hy) & _).
  cbv zeta in He, Hx, Hy. unfold sameCast, spawnCells, startCell.
  rewrite He, Hx, Hy. split; [reflexivity | intros H; exact H].
Qed.

Lemma updatePlayer_sameCast (dt : float) (s : State) :
  sameCast s (updatePlayer dt s).
Proof.
  destruct (isAlive (player s)) eqn:Ha.
  - destruct (updatePlayer_entities dt s Ha) as [Hp He].
    eapply sameCast_trans; [apply (updatePhysics_sameCast ThePlayer dt)|].
    apply sameCast_entities; assumption.
  - unfold updatePlayer. rewrite Ha. apply sameCast_refl.
Qed.

Lemma steerEnemy_sameSpawn (s : State) (en : Entity) :
  sameSpawn en (steerEnemy s en).
Proof.
  unfold steerEnemy, decideEnemy.
  break_conditions; split; cbn; first [reflexivity | intros H; exact H].
Qed.

Lemma catchPlayer_sameCast (i : nat) (s : State) : sameCast s (catchPlayer i s).
Proof.
  unfold catchPlayer, rand.
  destruct (_ <=? 0); [apply sameCast_entities; reflexivity|]. cbv zeta.
  match goal with
  | |- sameCast s (setEntity (TheEnemy i) ?e ?s1) =>
      apply (sameCast_trans s s1);
        [|apply setEntity_sameCast; split; cbn; [reflexivity | intros H; exact H]]
  end.
  unfold sameCast, spawnCells. cbn. split; [reflexivity | intros H; exact H].
Qed.

Lemma updateEnemy_sameCast (dt : float) (s : State) (i : nat) :
  sameCast s (updateEnemy dt s i).
Proof.
  unfold updateEnemy, rand.
  destruct (negb (isAlive _)).
  - destruct (_ <=? _)%f32; cbv zeta.
    + match goal with
      | |- sameCast s (setEntity (TheEnemy i) ?e ?s1) =>
          apply (sameCast_trans s s1);
            [apply sameCast_entities; reflexivity
            |apply setEntity_sameCast; split; cbn;
               [reflexivity | intros H; exact H]]
      end.
    + apply setEntity_sameCast; split; cbn; [reflexivity | intros H; exact H].
  - destruct (isTrapped _); [apply updatePhysics_sameCast|].
    match goal with
    | |- sameCast s (if touchesPlayer ?s2 i then _ else _) =>
        assert (sameCast s s2) as H2
          by (eapply sameCast_trans;
              [apply (setEntity_sameCast (TheEnemy i)), steerEnemy_sameSpawn
              | apply updatePhysics_sameCast]);
        revert H2; generalize s2
    end.
    intros s2 H2.
    destruct (touchesPlayer _ i); [|exact H2].
    destruct (_ && _); [|exact H2].
    eapply sameCast_trans; [exact H2 | apply catchPlayer_sameCast].
Qed.

Lemma updateHole_sameCast (dt : float) (s : State) (entry : Z * Z * DugHole) :
  sameCast s (updateHole dt s entry).
Proof.
  destruct entry as [k h]. unfold sameCast, spawnCells.
  rewrite updateHole_player, updateHole_enemies.
  destruct (expired dt h && inBounds (holeX h) (holeY h)); cbn [andb];
    [|split; [reflexivity | intros H; exact H]].
  split.
  - f_equal; [destruct (trappedAt _ _ _); reflexivity|].
    rewrite <- list_fmap_compose. apply list_fmap_ext. intros j en _. cbn.
    destruct (isAlive en && _); [|reflexivity].
    unfold killEnemy. destruct (negb _); reflexivity.
  - intros Hall. apply Forall_fmap. eapply Forall_impl; [exact Hall|].
    intros en Hen. cbn. destruct (isAlive en && _); [|exact Hen].
    unfold killEnemy. destruct (negb _); [exact Hen|]. cbn. exact Hen.
Qed.

Lemma update_sameCast (elapsed : float) (s : State) :
  sameCast s (update elapsed s).
Proof.
  apply (update_preserves (sameCast s)).
  - intros v s0 H. exact H.
  - intros dt s0 H _ _. eapply sameCast_trans; [exact H | apply handleInput_sameCast].
  - intros dt s0 H _ _. eapply sameCast_trans; [exact H | apply updatePlayer_sameCast].
  - intros dt s0 i H. eapply sameCast_trans; [exact H | apply updateEnemy_sameCast].
  - intros dt s0 e H. eapply sameCast_trans; [exact H | apply updateHole_sameCast].
  - intros s0 H. eapply sameCast_trans; [exact H|].
    destruct (checkLevelCompletion_entities s0) as [Hp He].
    apply sameCast_entities; assumption.
  - apply sameCast_refl.
Qed.

Lemma sameCast_shapeOk (s s' : State) : sameCast s s' -> shapeOk s -> shapeOk s'.
Proof.
  intros [Hc Hj] [Hl Hn]. split; [|apply Hj, Hn].
  unfold spawnCells in Hc. apply (f_equal snd) in Hc. cbn [snd] in Hc.
  rewrite <- (length_map startCell), Hc, length_map. exact Hl.
Qed.
Lemma init_from_boot (tape : nat -> Z) (s : State) :
  shapeOk s ->
  init tape s
  = set_specialKeyStates (specialKeyStates s)
      (set_keyStates (keyStates s) (init tape bootState)).
Proof.
  intros [Hl Hj]. unfold init, initLevel.
  destruct s as [p en lvl holes go gw lc ks sks col cc tc sc lv gt rt rp].
  cbn [enemies] in Hl, Hj. cbn [specialKeyStates keyStates].
  destruct en as [|e1 [|e2 [|e3 [|e4 en]]]]; try discriminate Hl.
  apply Forall_cons in Hj as [H1 Hj]. apply Forall_cons in Hj as [H2 Hj].
  apply Forall_cons in Hj as [H3 _].
  destruct e1 as [x1 y1 vx1 vy1 j1 c1 r1 f1 fr1 t1 tt1 a1 rt1 sx1 sy1].
  destruct e2 as [x2 y2 vx2 vy2 j2 c2 r2 f2 fr2 t2 tt2 a2 rt2 sx2 sy2].
  destruct e3 as [x3 y3 vx3 vy3 j3 c3 r3 f3 fr3 t3 tt3 a3 rt3 sx3 sy3].
  cbn [isJumping] in H1, H2, H3. subst j1 j2 j3.
  generalize (scanLayout levelLayout) as a. intros a.
  cbv -[fadd fsub fmul fdiv fneg fabs feqb fltb fleb i2f flit TILE_SIZE
        randomStartVx enemyStart scanLevel scanCollectibles scanTotal
        scanPlayerStart scanEnemyStarts].
  reflexivity.
Qed.

Lemma bootState_shapeOk : shapeOk bootState.
Proof. split; [reflexivity|]. cbn. repeat constructor. Qed.

Lemma init_shapeOk (tape : nat -> Z) (s : State) :
  shapeOk s ->
  shapeOk (init tape s)
  /\ spawnCells (init tape s) = ((9, 2), [(1, 2); (2, 2); (3, 2)]).
Proof.
  intros Hs. rewrite (init_from_boot tape s Hs).
  assert (length (enemies (init tape bootState)) = numEnemies) as Hl
    by (vm_compute; reflexivity).
  assert (map isJumping (enemies (init tape bootState)) = [false; false; false])
    as Hm by (vm_compute; reflexivity).
  assert (spawnCells (init tape bootState) = ((9, 2), [(1, 2); (2, 2); (3, 2)]))
    as Hc by (vm_compute; reflexivity).
  revert Hl Hm Hc. generalize (init tape bootState) as s0. intros s0 Hl Hm Hc.
  split; [split|].
  - exact Hl.
  - cbn [enemies set_specialKeyStates set_keyStates].
    revert Hm. generalize (enemies s0) as l. intros l Hm.
    destruct l as [|a [|b [|c [|d l]]]]; try discriminate Hm.
    injection Hm as Ha Hb Hc'. repeat constructor; assumption.
  - exact Hc.
Qed.
Lemma reachable_cast (tape : nat -> Z) (evs : list Event) (s : State) :
  run evs (init tape bootState) = Some s ->
  shapeOk s /\ spawnCells s = ((9, 2), [(1, 2); (2, 2); (3, 2)]).
Proof.
  apply (run_preserves
           (fun s => shapeOk s
                     /\ spawnCells s = ((9, 2), [(1, 2); (2, 2); (3, 2)]))).
  - intros e s0 [Hs Hc]. pose proof (update_sameCast e s0) as H.
    split; [exact (sameCast_shapeOk _ _ H Hs)|].
    destruct H as [-> _]. exact Hc.
  - intros v s0 H. exact H.
  - intros v s0 H. exact H.
  - intros tape0 s0 [Hs _]. apply init_shapeOk, Hs.
  - apply init_shapeOk, bootState_shapeOk.
Qed.

(** The spawn cells are fixed once the level is loaded, and the cast
    keeps its size: a tick changes neither the spawn cell of the player
    or of any enemy nor the number of enemies.  In every state a session
    reaches from program start there are three enemies, none of them
    jumping, the player's spawn cell is (9, 2) and the enemies' are
    (1, 2), (2, 2) and (3, 2). *)
Theorem spawn_cells_fixed :
  (forall elapsed s,
     spawnCells (update elapsed s) = spawnCells s
     /\ length (enemies (update elapsed s)) = length (enemies s))
  /\ (forall tape evs s,
        run evs (init tape bootState) = Some s ->
        length (enemies s) = 3%nat
        /\ Forall (fun en => isJumping en = false) (enemies s)
        /\ startCell (player s) = (9, 2)
        /\ map startCell (enemies s) = [(1, 2); (2, 2); (3, 2)]).
Proof.
  split.
  - intros elapsed s. destruct (update_sameCast elapsed s) as [Hc _].
    split; [exact Hc|].
    unfold spawnCells in Hc. apply (f_equal snd) in Hc. cbn [snd] in Hc.
    rewrite <- (length_map startCell), Hc, length_map. reflexivity.
  - intros tape evs s Hrun.
    destruct (reachable_cast tape evs s Hrun) as [[Hl Hj] Hc].
    unfold spawnCells in Hc.
    pose proof (f_equal fst Hc) as Hp. pose proof (f_equal snd Hc) as He.
    cbn [fst snd] in Hp, He.
    split; [exact Hl|]. split; [exact Hj|]. split; [exact Hp | exact He].
Qed.

Lemma spawn_cells_fixed_witness :
  length (enemies playedState) = 3%nat
  /\ startCell (player playedState) = (9, 2).
Proof.
  destruct spawn_cells_fixed as [_ Hrun].
  assert (run sampleRun (init (fun _ => 0) bootState) = Some playedState) as Hplayed
    by (vm_compute; reflexivity).
  destruct (Hrun _ _ _ Hplayed) as (Hl & _ & Hp & _).
  split; assumption.
Defined.

(** ** Lives along a session *)

Lemma update_sessionOk (elapsed : float) (s : State) :
  sessionOk s -> sessionOk (update elapsed s) /\ lives (update elapsed s) <= lives s.
Proof.
  intros Hs. rewrite update_stages. cbv zeta.
  generalize (clampDelta elapsed) as dt. intros dt.
  destruct (gameOver s) eqn:Ho; cbn [negb andb]; [split; [exact Hs | cbn; lia]|].
  destruct (gameWon s); cbn [negb]; [split; [exact Hs | cbn; lia]|].
  assert (sessionOk (set_gameTime (gameTime s + dt)%f32 s)) as H0 by exact Hs.
  pose proof (running_tick_session dt _ H0 Ho) as H. cbv zeta in H.
  destruct H as (H1 & _ & H2). split; [exact H1 | exact H2].
Qed.

(** In every state a session reaches from program start, resets
    included, the lives lie between 0 and 3 and the game is over exactly
    when none is left. *)
Theorem lives_bounded_in_session (tape : nat -> Z) (evs : list Event) (s : State) :
  run evs (init tape bootState) = Some s ->
  0 <= lives s <= INITIAL_LIVES /\ (gameOver s = true <-> lives s = 0).
Proof.
  intros Hrun.
  assert (sessionOk s /\ lives s <= INITIAL_LIVES) as [[H0 Hg] H3].
  { revert Hrun.
    apply (run_preserves (fun s => sessionOk s /\ lives s <= INITIAL_LIVES)).
    - intros e s0 [Hs Hl]. destruct (update_sessionOk e s0 Hs) as [Hs' Hl'].
      split; [exact Hs' | lia].
    - intros v s0 H. exact H.
    - intros v s0 H. exact H.
    - intros tape0 s0 _.
      destruct (init_board tape0 s0) as (_ & _ & _ & _ & _ & Ho & _ & Hl).
      unfold sessionOk. rewrite Ho, Hl. unfold INITIAL_LIVES.
      split; [split; [lia | reflexivity] | lia].
    - destruct (init_board tape bootState) as (_ & _ & _ & _ & _ & Ho & _ & Hl).
      unfold sessionOk. rewrite Ho, Hl. unfold INITIAL_LIVES.
      split; [split; [lia | reflexivity] | lia]. }
  split; [lia|]. rewrite Hg. rewrite Z.leb_le. lia.
Qed.

Lemma lives_bounded_in_session_witness : 0 <= lives playedState <= INITIAL_LIVES.
Proof.
  apply (lives_bounded_in_session (fun _ => 0) sampleRun playedState).
  vm_compute. reflexivity.
Defined.
(** ** The key array *)

Lemma updatePhysics_keys (r : EntityRef) (dt : float) (s : State) :
  keyStates (updatePhysics r dt s) = keyStates s.
Proof.
  destruct (updatePhysics_writes r dt s) as (l & g & ->). destruct r; reflexivity.
Qed.

Lemma collectLoop_keys (cx cy : Z) (l : list (Z * Z)) (s : State) :
  keyStates (foldl (collectAt cx cy) s l) = keyStates s.
Proof.
  revert s. induction l as [|d l IH]; intros s; [reflexivity|].
  cbn [foldl]. rewrite IH. unfold collectAt. destruct d.
  break_conditions; reflexivity.
Qed.

Lemma checkExitReached_keys (s : State) :
  keyStates (checkExitReached s) = keyStates s.
Proof. unfold checkExitReached. break_conditions; reflexivity. Qed.

Lemma updatePlayer_keys (dt : float) (s : State) :
  keyStates (updatePlayer dt s) = keyStates s.
Proof.
  unfold updatePlayer. destruct (negb _); [reflexivity|]. cbv zeta.
  rewrite checkExitReached_keys, collectLoop_keys. apply updatePhysics_keys.
Qed.

Lemma updateEnemy_keys (dt : float) (s : State) (i : nat) :
  keyStates (updateEnemy dt s i) = keyStates s.
Proof.
  unfold updateEnemy, rand.
  destruct (negb (isAlive _)).
  - destruct (_ <=? _)%f32; reflexivity.
  - destruct (isTrapped _); [apply updatePhysics_keys|].
    match goal with
    | |- keyStates (if touchesPlayer ?s2 i then _ else _) = _ =>
        assert (keyStates s2 = keyStates s) as H2
          by (rewrite updatePhysics_keys; cbn [setEntity keyStates set_enemies];
              reflexivity);
        revert H2; generalize s2
    end.
    intros s2 H2.
    destruct (touchesPlayer _ i); [|exact H2].
    destruct (_ && _); [|exact H2].
    rewrite <- H2. unfold catchPlayer, rand. destruct (_ <=? 0); reflexivity.
Qed.

Lemma updateHole_keys (dt : float) (s : State) (entry : Z * Z * DugHole) :
  keyStates (updateHole dt s entry) = keyStates s.
Proof.
  unfold updateHole, refillHole. destruct entry as [k h].
  break_conditions; reflexivity.
Qed.

Lemma handleInput_keys_length (dt : float) (s : State) :
  length (keyStates (handleInput dt s)) = length (keyStates s).
Proof.
  unfold handleInput. destruct (_ || _); [reflexivity|].
  generalize (handleMovement s) as p. intros p.
  unfold tryDig, digHole.
  break_conditions; cbn; rewrite ?length_insert; reflexivity.
Qed.

Lemma update_keys_length (elapsed : float) (s : State) :
  length (keyStates (update elapsed s)) = length (keyStates s).
Proof.
  apply (update_preserves
           (fun s' => length (keyStates s') = length (keyStates s))).
  - intros v s0 H. exact H.
  - intros dt s0 H _ _. rewrite handleInput_keys_length. exact H.
  - intros dt s0 H _ _. rewrite updatePlayer_keys. exact H.
  - intros dt s0 i H. rewrite updateEnemy_keys. exact H.
  - intros dt s0 e H. rewrite updateHole_keys. exact H.
  - intros s0 H. rewrite <- H. unfold checkLevelCompletion, revealExitLadder.
    destruct (_ && _ && _); reflexivity.
  - reflexivity.
Qed.

Lemma init_keys (tape : nat -> Z) (s : State) :
  keyStates (init tape s) = keyStates s.
Proof. reflexivity. Qed.

Lemma step_keys_length (ev : Event) (s s' : State) :
  step ev s = Some s' -> length (keyStates s') = length (keyStates s).
Proof.
  destruct ev as [elapsed | key tape | key | key | key]; cbn [step].
  - intros [= <-]. apply update_keys_length.
  - unfold keyboardDown, resetGame.
    destruct (key =? 27)%nat; [discriminate|].
    destruct (_ && _); intros [= <-]; rewrite ?init_keys; cbn [keyStates set_keyStates];
      apply length_insert.
  - intros [= <-]. apply length_insert.
  - intros [= <-]. reflexivity.
  - intros [= <-]. reflexivity.
Qed.

Lemma run_keys_length (evs : list Event) (s s' : State) :
  run evs s = Some s' -> length (keyStates s') = length (keyStates s).
Proof.
  revert s. induction evs as [|ev evs IH]; intros s; cbn [run].
  - intros [= <-]. reflexivity.
  - destruct (step ev s) as [s1|] eqn:Hstep; [|discriminate].
    intros Hrun. rewrite (IH s1 Hrun). exact (step_keys_length ev s s1 Hstep).
Qed.

(** ** The reset *)

(** ESC, and only ESC, ends the program.  While the game is running a
    key press records the key and does nothing else, whatever the key.
    In a session, once the game is lost or won, pressing r or R starts
    the game afresh: the result is the state of a program start with the
    new random sequence, except that the two key arrays are kept, with
    the r recorded as down: lives, score, counters, flags, registry,
    grid, collectibles and every entity are those of the start. *)
Theorem reset_restarts_the_game (key : nat) (tape' : nat -> Z) :
  (forall s, keyboardDown key tape' s = None <-> key = 27%nat)
  /\ (forall s,
        key <> 27%nat -> gameOver s = false -> gameWon s = false ->
        keyboardDown key tape' s
        = Some (set_keyStates (<[tolower key := true]> (keyStates s)) s))
  /\ (forall tape evs s,
        run evs (init tape bootState) = Some s ->
        key = 114%nat \/ key = 82%nat ->
        gameOver s = true \/ gameWon s = true ->
        keyboardDown key tape' s
        = Some (set_specialKeyStates (specialKeyStates s)
                  (set_keyStates (<[KEY_R := true]> (keyStates s))
                     (init tape' bootState)))).
Proof.
  split; [|split].
  - intros s. unfold keyboardDown. destruct (key =? 27)%nat eqn:Hk.
    + apply Nat.eqb_eq in Hk. split; [intros _; exact Hk | reflexivity].
    + apply Nat.eqb_neq in Hk. destruct (_ && _); split; [discriminate | contradiction
                                                          | discriminate | contradiction].
  - intros s Hk Ho Hw. unfold keyboardDown.
    apply Nat.eqb_neq in Hk. rewrite Hk.
    cbn [gameOver gameWon set_keyStates]. rewrite Ho, Hw. reflexivity.
  - intros tape evs s Hrun Hkey Hend.
    destruct (reachable_cast tape evs s Hrun) as [Hshape _].
    assert (length (keyStates s) = 256%nat) as Hlen.
    { rewrite (run_keys_length evs _ s Hrun), init_keys. reflexivity. }
    assert (tolower key = KEY_R /\ (key =? 27)%nat = false) as [Hlow Hk]
      by (destruct Hkey as [-> | ->]; split; reflexivity).
    unfold keyboardDown, resetGame. rewrite Hk, Hlow.
    cbn [gameOver gameWon keyStates set_keyStates].
    assert (gameOver s || gameWon s = true) as ->
      by (destruct Hend as [-> | ->]; [reflexivity | apply orb_true_r]).
    assert (keyDown (<[KEY_R := true]> (keyStates s)) KEY_R = true) as ->.
    { unfold keyDown. rewrite list_lookup_insert_eq; [reflexivity|].
      rewrite Hlen. unfold KEY_R. lia. }
    cbn [andb]. f_equal. apply (init_from_boot tape'). exact Hshape.
Qed.

Lemma reset_restarts_the_game_witness :
  lives lostState = 0
  /\ exists s', keyboardDown 114 (fun _ => 0) lostState = Some s'
                /\ lives s' = 3 /\ gameOver s' = false.
Proof.
  destruct (reset_restarts_the_game 114 (fun _ => 0)) as (_ & _ & Hreset).
  assert (run lostRun (init (fun _ => 0) bootState) = Some lostState) as Hrun
    by (vm_compute; reflexivity).
  assert (gameOver lostState = true) as Hover by (vm_compute; reflexivity).
  split; [vm_compute; reflexivity|].
  eexists. split; [exact (Hreset _ _ _ Hrun (or_introl eq_refl) (or_introl Hover))|].
  split; reflexivity.
Defined.
(** ** Positions and cells *)

Lemma columns_elem (gx : Z) : 0 <= gx < GRID_WIDTH -> In gx columns.
Proof.
  intros H. unfold columns. rewrite <- (Z2Nat.id gx) by lia.
  apply in_map, in_seq. unfold GRID_WIDTH in *. lia.
Qed.

Lemma rows_elem (gy : Z) : 0 <= gy < GRID_HEIGHT -> In gy rows.
Proof.
  intros H. unfold rows. rewrite <- (Z2Nat.id gy) by lia.
  apply in_map, in_seq. unfold GRID_HEIGHT in *. lia.
Qed.

(** A check made for every column, or row, of the grid. *)
Lemma for_columns (p : Z -> bool) :
  forallb p columns = true -> forall gx, 0 <= gx < GRID_WIDTH -> p gx = true.
Proof.
  intros Hall gx Hgx. exact (proj1 (forallb_forall p columns) Hall gx (columns_elem gx Hgx)).
Qed.

Lemma for_rows (p : Z -> bool) :
  forallb p rows = true -> forall gy, 0 <= gy < GRID_HEIGHT -> p gy = true.
Proof.
  intros Hall gy Hgy. exact (proj1 (forallb_forall p rows) Hall gy (rows_elem gy Hgy)).
Qed.

(** The column of the three sample points used by the source, for an
    entity centred in column [gx] by a capture. *)
Lemma captured_column (gx : Z) :
  0 <= gx < GRID_WIDTH ->
  let x := (i2f gx * TILE_SIZE + (TILE_SIZE - TILE_SIZE * flit 8 10) / i2f 2)%f32 in
  getGridX (x + TILE_SIZE * flit 4 10)%f32 = gx
  /\ getGridX (x + TILE_SIZE * flit 8 10 / i2f 2)%f32 = gx
  /\ getGridX x = gx.
Proof.
  intros Hgx. cbv zeta.
  pose proof (for_columns
    (fun gx =>
       let x := (i2f gx * TILE_SIZE + (TILE_SIZE - TILE_SIZE * flit 8 10) / i2f 2)%f32 in
       (getGridX (x + TILE_SIZE * flit 4 10)%f32 =? gx)
       && (getGridX (x + TILE_SIZE * flit 8 10 / i2f 2)%f32 =? gx)
       && (getGridX x =? gx))
    ltac:(vm_compute; reflexivity) gx Hgx) as H.
  cbv zeta in H. apply andb_prop in H as [H H3]. apply andb_prop in H as [H1 H2].
  apply Z.eqb_eq in H1, H2, H3. repeat split; assumption.
Qed.

Lemma spawn_column (gx : Z) :
  0 <= gx < GRID_WIDTH ->
  let x := (i2f gx * TILE_SIZE + TILE_SIZE * flit 1 10)%f32 in
  getGridX (x + TILE_SIZE * flit 4 10)%f32 = gx
  /\ getGridX (x + TILE_SIZE * flit 8 10 / i2f 2)%f32 = gx
  /\ getGridX x = gx.
Proof.
  intros Hgx. cbv zeta.
  pose proof (for_columns
    (fun gx =>
       let x := (i2f gx * TILE_SIZE + TILE_SIZE * flit 1 10)%f32 in
       (getGridX (x + TILE_SIZE * flit 4 10)%f32 =? gx)
       && (getGridX (x + TILE_SIZE * flit 8 10 / i2f 2)%f32 =? gx)
       && (getGridX x =? gx))
    ltac:(vm_compute; reflexivity) gx Hgx) as H.
  cbv zeta in H. apply andb_prop in H as [H H3]. apply andb_prop in H as [H1 H2].
  apply Z.eqb_eq in H1, H2, H3. repeat split; assumption.
Qed.

Lemma floor_row (gy : Z) :
  0 <= gy < GRID_HEIGHT ->
  let y := (i2f gy * TILE_SIZE)%f32 in
  getGridY y = gy /\ getGridY (y + i2f 1)%f32 = gy
  /\ getGridY (y - i2f 1)%f32 = gy - 1.
Proof.
  intros Hgy. cbv zeta.
  pose proof (for_rows
    (fun gy =>
       let y := (i2f gy * TILE_SIZE)%f32 in
       (getGridY y =? gy) && (getGridY (y + i2f 1)%f32 =? gy)
       && (getGridY (y - i2f 1)%f32 =? gy - 1))
    ltac:(vm_compute; reflexivity) gy Hgy) as H.
  cbv zeta in H. apply andb_prop in H as [H H3]. apply andb_prop in H as [H1 H2].
  apply Z.eqb_eq in H1, H2, H3. repeat split; assumption.
Qed.
(** An entity captured by a hole is found there by every later test.
    For a cell inside the grid, the entity [trapInHole] returns is
    trapped, at rest, and stands in that cell for each of the cell
    computations of the source: the one of the trapped branch of the
    physics and of the refill ([trapCell], [trappedAt]), the one of the
    hole test ([feetCell]) and the one of the dig keys ([digCell]). *)
Theorem captured_entity_is_found (e : Entity) (gx gy : Z) (h : DugHole) :
  inBounds gx gy = true ->
  let e' := trapInHole e gx gy h in
  isTrapped e' = true /\ vx e' = i2f 0 /\ vy e' = i2f 0
  /\ trapCell e' = (gx, gy) /\ trappedAt gx gy e' = true
  /\ feetCell e' = (gx, gy) /\ digCell e' = (gx, gy).
Proof.
  intros Hin. apply inBounds_true in Hin as [Hx Hy]. cbv zeta.
  destruct (captured_column gx Hx) as (Hx1 & Hx2 & _). cbv zeta in Hx1, Hx2.
  destruct (floor_row gy Hy) as (Hy1 & Hy2 & _). cbv zeta in Hy1, Hy2.
  assert (isTrapped (trapInHole e gx gy h) = true
          /\ vx (trapInHole e gx gy h) = i2f 0 /\ vy (trapInHole e gx gy h) = i2f 0
          /\ posX (trapInHole e gx gy h)
             = (i2f gx * TILE_SIZE + (TILE_SIZE - TILE_SIZE * flit 8 10) / i2f 2)%f32
          /\ posY (trapInHole e gx gy h) = (i2f gy * TILE_SIZE)%f32)
    as (Ht & Hvx & Hvy & Hpx & Hpy)
    by (unfold trapInHole; destruct (_ <? _)%f32; repeat split).
  assert (trapCell (trapInHole e gx gy h) = (gx, gy)) as Hcell
    by (unfold trapCell; rewrite Hpx, Hpy, Hx1, Hy1; reflexivity).
  split; [exact Ht|]. split; [exact Hvx|]. split; [exact Hvy|].
  split; [exact Hcell|]. split; [|split].
  - apply trappedAt_trapCell. split; [exact Ht | exact Hcell].
  - unfold feetCell. rewrite Hpx, Hpy, Hx2, Hy2. reflexivity.
  - exact Hcell.
Qed.

Lemma captured_entity_is_found_witness :
  trapCell (player trappedState) = (7, 1)
  /\ trappedAt 7 1 (player trappedState) = true.
Proof.
  assert (player trappedState
          = trapInHole (beforeHoleCheck ThePlayer frameTime fallingState)
              7 1 {| holeX := 7; holeY := 1; timer := i2f 7; originalType := BRICK |})
    as -> by (vm_compute; reflexivity).
  destruct (captured_entity_is_found
              (beforeHoleCheck ThePlayer frameTime fallingState)
              7 1 {| holeX := 7; holeY := 1; timer := i2f 7; originalType := BRICK |}
              eq_refl) as (_ & _ & _ & Hc & Ht & _).
  split; assumption.
Defined.
(** ** Respawns *)

Lemma randomStartVx_cases (drawn : Z) :
  randomStartVx drawn = (ENEMY_SPEED / i2f 2)%f32
  \/ randomStartVx drawn = (- (ENEMY_SPEED / i2f 2))%f32.
Proof.
  unfold randomStartVx. destruct (Z.rem drawn 2 =? 0); [left | right];
    vm_compute; reflexivity.
Qed.

(** A respawn puts the entity into its spawn cell.  For a spawn cell
    inside the grid, the enemy [respawnEnemy] returns is alive, free,
    neither climbing nor falling nor on a rope, and stands in its spawn
    cell, moving left or right at half the enemy speed; the player
    [initPlayer] returns stands in its spawn cell, at rest; and after a
    catch that leaves a life, the player stands in its spawn cell again,
    at rest and free, one life poorer. *)
Theorem respawn_at_spawn_cell :
  (forall drawn en,
     inBounds (startGridX en) (startGridY en) = true ->
     let en' := respawnEnemy drawn en in
     digCell en' = startCell en /\ feetCell en' = startCell en
     /\ startCell en' = startCell en
     /\ isAlive en' = true /\ isTrapped en' = false
     /\ isClimbing en' = false /\ isOnRope en' = false /\ isFalling en' = false
     /\ vy en' = i2f 0
     /\ (vx en' = (ENEMY_SPEED / i2f 2)%f32
         \/ vx en' = (- (ENEMY_SPEED / i2f 2))%f32))
  /\ (forall p,
        inBounds (startGridX p) (startGridY p) = true ->
        digCell (initPlayer p) = startCell p
        /\ vx (initPlayer p) = i2f 0 /\ vy (initPlayer p) = i2f 0
        /\ isAlive (initPlayer p) = true)
  /\ (forall i s,
        inBounds (startGridX (player s)) (startGridY (player s)) = true ->
        1 < lives s ->
        let s' := catchPlayer i s in
        lives s' = lives s - 1 /\ gameOver s' = gameOver s
        /\ digCell (player s') = startCell (player s)
        /\ vx (player s') = i2f 0 /\ vy (player s') = i2f 0
        /\ isTrapped (player s') = false /\ isFalling (player s') = false).
Proof.
  split; [|split].
  - intros drawn en Hin. apply inBounds_true in Hin as [Hx Hy]. cbv zeta.
    destruct (spawn_column _ Hx) as (Hx1 & Hx2 & _). cbv zeta in Hx1, Hx2.
    destruct (floor_row _ Hy) as (Hy1 & Hy2 & _). cbv zeta in Hy1, Hy2.
    split; [|split].
    + unfold digCell, respawnEnemy. cbn. rewrite Hx1, Hy1. reflexivity.
    + unfold feetCell, respawnEnemy. cbn. rewrite Hx2, Hy2. reflexivity.
    + repeat split. exact (randomStartVx_cases drawn).
  - intros p Hin. apply inBounds_true in Hin as [Hx Hy].
    destruct (spawn_column _ Hx) as (Hx1 & _). cbv zeta in Hx1.
    destruct (floor_row _ Hy) as (Hy1 & _). cbv zeta in Hy1.
    split; [|repeat split].
    unfold digCell, initPlayer. cbn. rewrite Hx1, Hy1. reflexivity.
  - intros i s Hin Hl. apply inBounds_true in Hin as [Hx Hy]. cbv zeta.
    destruct (spawn_column _ Hx) as (Hx1 & _). cbv zeta in Hx1.
    destruct (floor_row _ Hy) as (Hy1 & _). cbv zeta in Hy1.
    unfold catchPlayer, rand. cbn [lives set_lives].
    destruct (lives s - 1 <=? 0) eqn:Hle; [apply Z.leb_le in Hle; lia|].
    cbv zeta. cbn [lives gameOver player setEntity set_enemies set_player set_randPos
                   set_lives].
    split; [reflexivity|]. split; [reflexivity|].
    split; [|repeat split].
    unfold digCell. cbn. rewrite Hx1, Hy1. reflexivity.
Qed.

Lemma respawn_at_spawn_cell_witness :
  digCell (respawnEnemy 0 (getEntity (TheEnemy 0) startState)) = (1, 2)
  /\ lives (catchPlayer 0 startState) = 2
  /\ digCell (player (catchPlayer 0 startState)) = (9, 2).
Proof.
  destruct respawn_at_spawn_cell as (Hen & _ & Hcatch).
  destruct (Hen 0 (getEntity (TheEnemy 0) startState) eq_refl) as (H1 & _).
  destruct (Hcatch 0%nat startState eq_refl eq_refl) as (H2 & _ & H3 & _).
  split; [exact H1|]. split; [exact H2 | exact H3].
Defined.
(** ** The pursuit *)

Lemma chase_cases (diffX speed : float) (cl cr : bool) :
  (chase diffX speed cl cr = speed
   /\ (diffX >? TILE_SIZE * flit 2 10)%f32 = true /\ cr = true)
  \/ (chase diffX speed cl cr = (- speed)%f32
      /\ (diffX <? (- TILE_SIZE) * flit 2 10)%f32 = true /\ cl = true)
  \/ chase diffX speed cl cr = i2f 0.
Proof.
  unfold chase.
  destruct (_ && cr) eqn:H1.
  - left. apply andb_prop in H1 as [H1 H2]. repeat split; assumption.
  - destruct (_ && cl) eqn:H2.
    + right; left. apply andb_prop in H2 as [H2 H3]. repeat split; assumption.
    + right; right. reflexivity.
Qed.

Lemma decideEnemy_cases (s : State) (en : Entity) :
  let diffX := (posX (player s) - posX en)%f32 in
  posX (decideEnemy s en).2 = posX en
  /\ isOnRope (decideEnemy s en).2 = isOnRope en
  /\ ((wantsToClimb (decideEnemy s en).1 = true
       /\ desiredVX (decideEnemy s en).1 = i2f 0
       /\ (desiredVY (decideEnemy s en).1 = CLIMB_SPEED
           \/ desiredVY (decideEnemy s en).1 = (- CLIMB_SPEED)%f32))
      \/ (wantsToClimb (decideEnemy s en).1 = false
          /\ desiredVY (decideEnemy s en).1 = i2f 0
          /\ exists speed cl cr,
               (speed = ENEMY_SPEED \/ speed = ROPE_SPEED
                \/ speed = (ENEMY_SPEED / i2f 2)%f32)
               /\ desiredVX (decideEnemy s en).1 = chase diffX speed cl cr)).
Proof.
  cbv zeta. unfold decideEnemy.
  repeat match goal with
         | |- context [if ?b then _ else _] =>
             lazymatch b with
             | context [chase] => fail
             | _ => destruct b eqn:?
             end
         end;
    cbn [fst snd posX isOnRope set_isFalling set_vy set_posY wantsToClimb desiredVX
         desiredVY];
    (split; [reflexivity|]; split; [first [reflexivity | assumption]|]);
    first [ left; split; [reflexivity|]; split; [reflexivity|];
            first [left; reflexivity | right; reflexivity]
          | right; split; [reflexivity|]; split; [reflexivity|];
            eexists _, _, _; split; [|reflexivity];
            first [ left; reflexivity | right; left; reflexivity
                  | right; right; reflexivity ] ].
Qed.

Lemma avoidHazard_cases (s : State) (enemyX enemyY : float) (onRope : bool)
    (en : Entity) (it : Intent) :
  avoidHazard s enemyX enemyY onRope en it = i2f 0
  \/ avoidHazard s enemyX enemyY onRope en it = desiredVX it.
Proof.
  unfold avoidHazard. break_conditions; first [left; reflexivity | right; reflexivity].
Qed.

Lemma pursuit_speed_signs (speed : float) :
  speed = ENEMY_SPEED \/ speed = ROPE_SPEED \/ speed = (ENEMY_SPEED / i2f 2)%f32 ->
  (speed >? i2f 0)%f32 = true /\ (speed <? i2f 0)%f32 = false
  /\ (speed <>? i2f 0)%f32 = true
  /\ (- speed >? i2f 0)%f32 = false /\ (- speed <? i2f 0)%f32 = true
  /\ (- speed <>? i2f 0)%f32 = true.
Proof.
  intros [-> | [-> | ->]]; vm_compute; repeat split.
Qed.

(** What the AI makes of an enemy.  [steerEnemy] never moves the enemy
    sideways itself; its on-rope flag is the rope test at its position.
    An enemy that climbs has no horizontal speed and climbs at the climb
    speed, up or down; one that does not climb has no vertical speed.
    Its horizontal speed is 0 or, in either direction, the enemy speed,
    half of it, or the rope speed.  And it only ever walks towards the
    player: to the right only if the player is more than a fifth of a
    tile further right, to the left only if more than a fifth of a tile
    further left, facing the way it walks. *)
Theorem enemy_walks_towards_player (s : State) (en : Entity) :
  let en' := steerEnemy s en in
  let diffX := (posX (player s) - posX en)%f32 in
  posX en' = posX en
  /\ isOnRope en' = checkOnRope s en
  /\ (isClimbing en' = true ->
      vx en' = i2f 0
      /\ (vy en' = CLIMB_SPEED \/ vy en' = (- CLIMB_SPEED)%f32))
  /\ (isClimbing en' = false -> vy en' = i2f 0)
  /\ (exists speed,
        (speed = i2f 0 \/ speed = ENEMY_SPEED \/ speed = ROPE_SPEED
         \/ speed = (ENEMY_SPEED / i2f 2)%f32)
        /\ (vx en' = speed \/ vx en' = (- speed)%f32))
  /\ ((vx en' >? i2f 0)%f32 = true ->
      (diffX >? TILE_SIZE * flit 2 10)%f32 = true /\ faceRight en' = true)
  /\ ((vx en' <? i2f 0)%f32 = true ->
      (diffX <? (- TILE_SIZE) * flit 2 10)%f32 = true /\ faceRight en' = false).
Proof.
  cbv zeta. unfold steerEnemy.
  pose proof (decideEnemy_cases s (set_isOnRope (checkOnRope s en) en)) as Hd.
  cbv zeta in Hd. cbn [posX isOnRope set_isOnRope] in Hd.
  destruct (decideEnemy s (set_isOnRope (checkOnRope s en) en)) as [it en1].
  cbn [fst snd] in Hd. destruct Hd as (Hx & Hr & Hit).
  pose proof (avoidHazard_cases s (posX en) (posY en) (checkOnRope s en) en1 it)
    as Hav.
  revert Hav. generalize (avoidHazard s (posX en) (posY en) (checkOnRope s en) en1 it)
    as v. intros v Hav.
  assert (forall w : float, (w <>? i2f 0)%f32 = true \/ w = i2f 0 ->
          posX (if (w <>? i2f 0)%f32
                then set_faceRight (w >? i2f 0)%f32
                       (set_isClimbing (wantsToClimb it)
                          (set_vy (desiredVY it) (set_vx w en1)))
                else set_isClimbing (wantsToClimb it)
                       (set_vy (desiredVY it) (set_vx w en1))) = posX en1
          /\ isOnRope (if (w <>? i2f 0)%f32
                      then set_faceRight (w >? i2f 0)%f32
                             (set_isClimbing (wantsToClimb it)
                                (set_vy (desiredVY it) (set_vx w en1)))
                      else set_isClimbing (wantsToClimb it)
                             (set_vy (desiredVY it) (set_vx w en1))) = isOnRope en1
          /\ isClimbing (if (w <>? i2f 0)%f32
                        then set_faceRight (w >? i2f 0)%f32
                               (set_isClimbing (wantsToClimb it)
                                  (set_vy (desiredVY it) (set_vx w en1)))
                        else set_isClimbing (wantsToClimb it)
                               (set_vy (desiredVY it) (set_vx w en1)))
             = wantsToClimb it
          /\ vy (if (w <>? i2f 0)%f32
                then set_faceRight (w >? i2f 0)%f32
                       (set_isClimbing (wantsToClimb it)
                          (set_vy (desiredVY it) (set_vx w en1)))
                else set_isClimbing (wantsToClimb it)
                       (set_vy (desiredVY it) (set_vx w en1))) = desiredVY it
          /\ vx (if (w <>? i2f 0)%f32
                then set_faceRight (w >? i2f 0)%f32
                       (set_isClimbing (wantsToClimb it)
                          (set_vy (desiredVY it) (set_vx w en1)))
                else set_isClimbing (wantsToClimb it)
                       (set_vy (desiredVY it) (set_vx w en1))) = w
          /\ ((w <>? i2f 0)%f32 = true ->
              faceRight (if (w <>? i2f 0)%f32
                         then set_faceRight (w >? i2f 0)%f32
                                (set_isClimbing (wantsToClimb it)
                                   (set_vy (desiredVY it) (set_vx w en1)))
                         else set_isClimbing (wantsToClimb it)
                                (set_vy (desiredVY it) (set_vx w en1)))
              = (w >? i2f 0)%f32)) as Hfields.
  { intros w _. destruct (w <>? i2f 0)%f32; repeat split; intros H; discriminate H. }
  assert ((i2f 0 >? i2f 0)%f32 = false /\ (i2f 0 <? i2f 0)%f32 = false) as [Hz1 Hz2]
    by (split; vm_compute; reflexivity).
  assert (v = i2f 0
          \/ (wantsToClimb it = false /\ desiredVY it = i2f 0
              /\ exists speed,
                   (speed = ENEMY_SPEED \/ speed = ROPE_SPEED
                    \/ speed = (ENEMY_SPEED / i2f 2)%f32)
                   /\ ((v = speed
                        /\ (posX (player s) - posX en >? TILE_SIZE * flit 2 10)%f32
                           = true)
                       \/ (v = (- speed)%f32
                           /\ (posX (player s) - posX en
                               <? (- TILE_SIZE) * flit 2 10)%f32 = true))))
    as Hv.
  { destruct Hav as [-> | ->]; [left; reflexivity|].
    destruct Hit as [(_ & -> & _) | (Hw & Hy & speed & cl & cr & Hs & ->)];
      [left; reflexivity|].
    destruct (chase_cases (posX (player s) - posX en)%f32 speed cl cr)
      as [(-> & Hd & _) | [(-> & Hd & _) | ->]]; [right | right | left; reflexivity].
    - split; [exact Hw|]. split; [exact Hy|]. exists speed.
      split; [exact Hs|]. left. split; [reflexivity | exact Hd].
    - split; [exact Hw|]. split; [exact Hy|]. exists speed.
      split; [exact Hs|]. right. split; [reflexivity | exact Hd]. }
  destruct (Hfields v) as (Fx & Fr & Fc & Fy & Fv & Ff).
  { destruct Hv as [-> | (_ & _ & speed & Hs & [[-> _] | [-> _]])];
      [right; reflexivity | left | left];
      destruct (pursuit_speed_signs speed Hs) as (_ & _ & H3 & _ & _ & H6);
      assumption. }
  rewrite Fx, Fr, Fc, Fy, Fv. clear Hfields.
  split; [exact Hx|]. split; [exact Hr|].
  split.
  { intros Hc. destruct Hit as [(_ & Hvx & Hvy) | (Hw & _)]; [|congruence].
    split; [|exact Hvy].
    destruct Hav as [-> | ->]; [reflexivity | exact Hvx]. }
  split.
  { intros Hc. destruct Hit as [(Hw & _) | (_ & Hvy & _)]; [congruence | exact Hvy]. }
  split.
  { destruct Hv as [-> | (_ & _ & speed & Hs & [[-> _] | [-> _]])].
    - exists (i2f 0). split; [left; reflexivity | left; reflexivity].
    - exists speed. split; [right; exact Hs | left; reflexivity].
    - exists speed. split; [right; exact Hs | right; reflexivity]. }
  split.
  - intros Hpos.
    destruct Hv as [-> | (_ & _ & speed & Hs & [[-> Hd] | [-> Hd]])].
    + rewrite Hz1 in Hpos. discriminate Hpos.
    + destruct (pursuit_speed_signs speed Hs) as (H1 & _ & H3 & _).
      split; [exact Hd|]. rewrite (Ff H3). exact H1.
    + destruct (pursuit_speed_signs speed Hs) as (_ & _ & _ & H4 & _).
      rewrite H4 in Hpos. discriminate Hpos.
  - intros Hneg.
    destruct Hv as [-> | (_ & _ & speed & Hs & [[-> Hd] | [-> Hd]])].
    + rewrite Hz2 in Hneg. discriminate Hneg.
    + destruct (pursuit_speed_signs speed Hs) as (_ & H2 & _).
      rewrite H2 in Hneg. discriminate Hneg.
    + destruct (pursuit_speed_signs speed Hs) as (_ & _ & _ & H4 & _ & H6).
      split; [exact Hd|]. rewrite (Ff H6). exact H4.
Qed.
Lemma enemy_walks_towards_player_witness :
  let en := getEntity (TheEnemy 0) playedState in
  let climber := getEntity (TheEnemy 1) lostState in
  ((posX (player playedState) - posX en >? TILE_SIZE * flit 2 10)%f32 = true
   /\ faceRight (steerEnemy playedState en) = true)
  /\ vx (steerEnemy lostState climber) = i2f 0.
Proof.
  cbv zeta. split.
  - pose proof (enemy_walks_towards_player playedState
                  (getEntity (TheEnemy 0) playedState)) as H.
    cbv zeta in H. destruct H as (_ & _ & _ & _ & _ & Hright & _).
    apply Hright. vm_compute. reflexivity.
  - pose proof (enemy_walks_towards_player lostState
                  (getEntity (TheEnemy 1) lostState)) as H.
    cbv zeta in H. destruct H as (_ & _ & Hclimb & _).
    apply Hclimb. vm_compute. reflexivity.
Defined.
(** ** Inside the window *)

Lemma getEntity_updatePhysics (r : EntityRef) (dt : float) (s : State) :
  validRef r s -> getEntity r (updatePhysics r dt s) = physicsEntity r dt s.
Proof.
  intros Hr. destruct (updatePhysics_writes r dt s) as (l & g & ->).
  destruct r as [|i]; [reflexivity|].
  cbn [getEntity setEntity enemies set_enemies set_gameOver set_lives].
  rewrite list_lookup_insert_eq by exact Hr. reflexivity.
Qed.

Lemma spawn_inWindow (gx : Z) :
  0 <= gx < GRID_WIDTH ->
  ((i2f gx * TILE_SIZE + TILE_SIZE * flit 1 10 <? i2f 0)%f32 = false
   /\ (i2f gx * TILE_SIZE + TILE_SIZE * flit 1 10 + TILE_SIZE * flit 8 10
       >? i2f WINDOW_WIDTH)%f32 = false)
  /\ ((i2f gx * TILE_SIZE + (TILE_SIZE - TILE_SIZE * flit 8 10) / i2f 2 <? i2f 0)%f32
      = false
      /\ (i2f gx * TILE_SIZE + (TILE_SIZE - TILE_SIZE * flit 8 10) / i2f 2
          + TILE_SIZE * flit 8 10 >? i2f WINDOW_WIDTH)%f32 = false).
Proof.
  intros Hgx.
  pose proof (for_columns
    (fun gx =>
       negb (i2f gx * TILE_SIZE + TILE_SIZE * flit 1 10 <? i2f 0)%f32
       && negb (i2f gx * TILE_SIZE + TILE_SIZE * flit 1 10 + TILE_SIZE * flit 8 10
                >? i2f WINDOW_WIDTH)%f32
       && negb (i2f gx * TILE_SIZE + (TILE_SIZE - TILE_SIZE * flit 8 10) / i2f 2
                <? i2f 0)%f32
       && negb (i2f gx * TILE_SIZE + (TILE_SIZE - TILE_SIZE * flit 8 10) / i2f 2
                + TILE_SIZE * flit 8 10 >? i2f WINDOW_WIDTH)%f32)
    ltac:(vm_compute; reflexivity) gx Hgx) as H.
  apply andb_prop in H as [H H4]. apply andb_prop in H as [H H3].
  apply andb_prop in H as [H1 H2].
  apply negb_true_iff in H1, H2, H3, H4. repeat split; assumption.
Qed.

Lemma inWindow_posX (e e' : Entity) :
  posX e' = posX e -> inWindow e' = inWindow e.
Proof. intros H. unfold inWindow. rewrite H. reflexivity. Qed.

Lemma staged_same (e e' : Entity) :
  posX e' = posX e -> startCell e' = startCell e -> staged e' = staged e.
Proof.
  intros Hx Hs. unfold staged. rewrite (inWindow_posX e e' Hx).
  unfold startCell in Hs. injection Hs as -> ->. reflexivity.
Qed.

Lemma staged_spawn (e e' : Entity) :
  inBounds (startGridX e) (startGridY e) = true ->
  startCell e' = startCell e ->
  posX e' = (i2f (startGridX e) * TILE_SIZE + TILE_SIZE * flit 1 10)%f32 ->
  staged e' = true.
Proof.
  intros Hin Hs Hx. unfold staged, inWindow.
  unfold startCell in Hs. injection Hs as -> ->. rewrite Hin, Hx.
  apply inBounds_true in Hin as [Hgx _].
  destruct (spawn_inWindow _ Hgx) as [[-> ->] _]. reflexivity.
Qed.

Lemma staged_centred (e e' : Entity) (gx : Z) :
  inBounds (startGridX e) (startGridY e) = true ->
  startCell e' = startCell e ->
  0 <= gx < GRID_WIDTH ->
  posX e' = (i2f gx * TILE_SIZE + (TILE_SIZE - TILE_SIZE * flit 8 10) / i2f 2)%f32 ->
  staged e' = true.
Proof.
  intros Hin Hs Hgx Hx. unfold staged, inWindow.
  unfold startCell in Hs. injection Hs as -> ->. rewrite Hin, Hx.
  destruct (spawn_inWindow _ Hgx) as [_ [-> ->]]. reflexivity.
Qed.

Lemma boundaryChecks_staged (r : EntityRef) (e : Entity) (l : Z) (g : bool) :
  inBounds (startGridX e) (startGridY e) = true ->
  staged (boundaryChecks r e l g).1.1 = true.
Proof.
  intros Hin.
  assert ((i2f 0 <? i2f 0)%f32 = false
          /\ (i2f 0 + TILE_SIZE * flit 8 10 >? i2f WINDOW_WIDTH)%f32 = false
          /\ (i2f WINDOW_WIDTH - TILE_SIZE * flit 8 10 <? i2f 0)%f32 = false
          /\ (i2f WINDOW_WIDTH - TILE_SIZE * flit 8 10 + TILE_SIZE * flit 8 10
              >? i2f WINDOW_WIDTH)%f32 = false) as (C1 & C2 & C3 & C4)
    by (vm_compute; repeat split).
  unfold boundaryChecks.
  set (e1 := if (posX e <? i2f 0)%f32 then set_posX (i2f 0) e else e).
  set (e2 := if (posX e1 + TILE_SIZE * flit 8 10 >? i2f WINDOW_WIDTH)%f32
             then set_posX (i2f WINDOW_WIDTH - TILE_SIZE * flit 8 10)%f32 e1
             else e1).
  assert (startCell e2 = startCell e) as Hs2.
  { unfold e2, e1. break_conditions; reflexivity. }
  assert (staged e2 = true) as H2.
  { unfold staged. pose proof Hs2 as Hs2'. unfold startCell in Hs2'.
    injection Hs2' as -> ->. rewrite Hin, andb_true_r.
    unfold inWindow, e2.
    destruct (posX e1 + TILE_SIZE * flit 8 10 >? i2f WINDOW_WIDTH)%f32 eqn:Hr.
    - cbn [posX set_posX]. rewrite C3, C4. reflexivity.
    - rewrite Hr, andb_true_r. unfold e1.
      destruct (posX e <? i2f 0)%f32 eqn:Hl.
      + cbn [posX set_posX]. rewrite C1. reflexivity.
      + rewrite Hl. reflexivity. }
  clearbody e2. clear e1.
  destruct (_ <? - TILE_SIZE)%f32; [|exact H2]. cbv zeta.
  destruct (isPlayerRef r).
  - destruct (_ <=? 0); cbn [fst].
    + rewrite <- H2. apply staged_same; reflexivity.
    + apply (staged_spawn e); [exact Hin| |].
      * rewrite <- Hs2. reflexivity.
      * cbn [posX startGridX set_isFalling set_vy set_vx set_posY set_posX].
        pose proof Hs2 as Hs2'. unfold startCell in Hs2'. injection Hs2' as -> _.
        reflexivity.
  - cbn [fst]. rewrite <- H2. apply staged_same.
    + unfold killEnemy. destruct (negb _); reflexivity.
    + unfold killEnemy. destruct (negb _); reflexivity.
Qed.

Lemma holeCheck_staged (s : State) (r : EntityRef) (e : Entity) :
  staged e = true -> staged (holeCheck s r e) = true.
Proof.
  intros He. unfold holeCheck.
  set (e1 := if isFalling e && _ && _ then _ else e).
  assert (posX e1 = posX e /\ startCell e1 = startCell e) as [Hx1 Hs1]
    by (unfold e1; break_conditions; split; reflexivity).
  assert (staged e1 = true) as H1 by (rewrite <- He; apply staged_same; assumption).
  clearbody e1.
  destruct (inBounds _ _) eqn:Hin; [|exact H1].
  destruct (dugHoles s !! _) as [h|]; [|exact H1].
  destruct (isFalling e1); [|exact H1].
  destruct (negb (isTrapped e1)); [|exact H1].
  assert (inBounds (startGridX e1) (startGridY e1) = true) as Hsp
    by (unfold staged in H1; apply andb_prop in H1 as [_ Hsp]; exact Hsp).
  apply inBounds_true in Hin as [Hgx _].
  match goal with
  | |- staged (trapInHole e1 ?gx ?gy h) = true =>
      apply (staged_centred e1 (trapInHole e1 gx gy h) gx Hsp);
        [|exact Hgx|]; unfold trapInHole; destruct (_ <? _)%f32; reflexivity
  end.
Qed.

Lemma updateTrapped_staged (s : State) (r : EntityRef) (e : Entity) (dt : float) :
  staged e = true -> staged (updateTrapped s r e dt) = true.
Proof.
  intros He. rewrite <- He. apply staged_same;
    unfold updateTrapped, killEnemy; break_conditions; reflexivity.
Qed.

Lemma physicsEntity_staged (r : EntityRef) (dt : float) (s : State) :
  staged (getEntity r s) = true -> staged (physicsEntity r dt s) = true.
Proof.
  intros He. unfold physicsEntity.
  destruct (isTrapped _); [apply updateTrapped_staged, He|].
  apply holeCheck_staged. unfold beforeHoleCheck. apply boundaryChecks_staged.
  destruct (moveEntity_role s r (getEntity r s) dt) as (Hs & _).
  unfold startCell in Hs. injection Hs as -> ->.
  unfold staged in He. apply andb_prop in He as [_ He]. exact He.
Qed.
Lemma enemy_staged (s : State) (i : nat) :
  validRef (TheEnemy i) s ->
  Forall (fun en => staged en = true) (enemies s) ->
  staged (getEntity (TheEnemy i) s) = true.
Proof.
  intros Hi Hall. cbn [getEntity validRef] in *.
  destruct (enemies s !! i) as [en|] eqn:Hl.
  - exact (proj1 (Forall_lookup _ _) Hall i en Hl).
  - apply lookup_ge_None in Hl. lia.
Qed.

Lemma setEnemy_stageOk (i : nat) (e : Entity) (s : State) :
  stageOk s -> staged e = true -> stageOk (setEntity (TheEnemy i) e s).
Proof.
  intros [Hp He] H. split; [exact Hp|]. cbn. apply Forall_insert; assumption.
Qed.

Lemma updatePhysics_stageOk (r : EntityRef) (dt : float) (s : State) :
  stageOk s -> stageOk (updatePhysics r dt s).
Proof.
  intros [Hp He]. destruct r as [|i].
  - destruct (updatePhysics_writes ThePlayer dt s) as (l & g & ->).
    split; [|exact He]. cbn [setEntity player set_player].
    apply (physicsEntity_staged ThePlayer), Hp.
  - destruct (le_lt_dec (length (enemies s)) i) as [Hout | Hin].
    + destruct (updatePhysics_writes (TheEnemy i) dt s) as (l & g & ->).
      split; [exact Hp|]. cbn. rewrite list_insert_ge by exact Hout. exact He.
    + destruct (updatePhysics_writes (TheEnemy i) dt s) as (l & g & ->).
      apply (setEnemy_stageOk i _ (set_gameOver g (set_lives l s)));
        [split; assumption|].
      apply (physicsEntity_staged (TheEnemy i)), enemy_staged; assumption.
Qed.

Lemma entities_stageOk (s s' : State) :
  player s' = player s -> enemies s' = enemies s -> stageOk s -> stageOk s'.
Proof. unfold stageOk. intros -> ->. intros H; exact H. Qed.

Lemma updatePlayer_stageOk (dt : float) (s : State) :
  stageOk s -> stageOk (updatePlayer dt s).
Proof.
  intros Hs. destruct (isAlive (player s)) eqn:Ha.
  - destruct (updatePlayer_entities dt s Ha) as [Hp He].
    apply (entities_stageOk _ _ Hp He), updatePhysics_stageOk, Hs.
  - unfold updatePlayer. rewrite Ha. exact Hs.
Qed.

Lemma staged_start (e : Entity) :
  staged e = true -> inBounds (startGridX e) (startGridY e) = true.
Proof. unfold staged. intros [_ H]%andb_prop. exact H. Qed.

Lemma catchPlayer_stageOk (i : nat) (s : State) :
  validRef (TheEnemy i) s -> stageOk s -> stageOk (catchPlayer i s).
Proof.
  intros Hi [Hp He]. unfold catchPlayer, rand.
  destruct (_ <=? 0); [split; assumption|]. cbv zeta.
  pose proof (enemy_staged s i Hi He) as Hen.
  split.
  - cbn [player setEntity set_enemies set_player].
    apply (staged_spawn (player s)); [apply staged_start, Hp|reflexivity..].
  - cbn [enemies setEntity set_enemies set_player set_randPos set_lives getEntity].
    apply Forall_insert; [exact He|].
    apply (staged_spawn (default noEntity (enemies s !! i)));
      [apply staged_start, Hen|reflexivity..].
Qed.

Lemma updateEnemy_stageOk (dt : float) (s : State) (i : nat) :
  stageOk s -> stageOk (updateEnemy dt s i).
Proof.
  intros Hs. destruct (le_lt_dec (length (enemies s)) i) as [Hout | Hin].
  { assert (forall e s0, enemies s0 = enemies s ->
              setEntity (TheEnemy i) e s0 = s0) as Hset.
    { intros e s0 H0. cbn. rewrite list_insert_ge by (rewrite H0; exact Hout).
      destruct s0; reflexivity. }
    unfold updateEnemy, rand.
    assert (getEntity (TheEnemy i) s = noEntity) as ->.
    { cbn. rewrite (proj2 (lookup_ge_None _ _) Hout). reflexivity. }
    cbn [isAlive noEntity negb]. cbv zeta.
    destruct (_ <=? _)%f32; rewrite Hset by reflexivity;
      [destruct Hs; split; assumption | exact Hs]. }
  pose proof Hs as [Hp He].
  pose proof (enemy_staged s i Hin He) as Hen.
  unfold updateEnemy, rand.
  destruct (negb (isAlive _)).
  - destruct (_ <=? _)%f32; cbv zeta.
    + match goal with
      | |- stageOk (setEntity (TheEnemy i) ?e ?s1) =>
          apply (setEnemy_stageOk i e s1); [split; assumption|]
      end.
      apply (staged_spawn (getEntity (TheEnemy i) s));
        [apply staged_start, Hen|reflexivity..].
    + apply setEnemy_stageOk; [exact Hs|].
      rewrite <- Hen. apply staged_same; reflexivity.
  - destruct (isTrapped _); [apply updatePhysics_stageOk, Hs|].
    assert (stageOk (setEntity (TheEnemy i)
                       (steerEnemy s (getEntity (TheEnemy i) s)) s)) as H1.
    { apply setEnemy_stageOk; [exact Hs|]. rewrite <- Hen.
      destruct (steerEnemy_frame s (getEntity (TheEnemy i) s)) as (_ & _ & H3 & H4).
      apply staged_same; assumption. }
    assert (validRef (TheEnemy i)
              (updatePhysics (TheEnemy i) dt
                 (setEntity (TheEnemy i)
                    (steerEnemy s (getEntity (TheEnemy i) s)) s))) as Hv.
    { destruct (updatePhysics_writes (TheEnemy i) dt
                  (setEntity (TheEnemy i)
                     (steerEnemy s (getEntity (TheEnemy i) s)) s)) as (l & g & ->).
      cbn. rewrite !length_insert. exact Hin. }
    apply (updatePhysics_stageOk (TheEnemy i) dt) in H1.
    revert H1 Hv.
    generalize (updatePhysics (TheEnemy i) dt
                  (setEntity (TheEnemy i)
                     (steerEnemy s (getEntity (TheEnemy i) s)) s)) as s2.
    intros s2 H2 Hv.
    destruct (touchesPlayer s2 i); [|exact H2].
    destruct (_ && _); [|exact H2]. apply catchPlayer_stageOk; assumption.
Qed.

Lemma updateHole_stageOk (dt : float) (s : State) (entry : Z * Z * DugHole) :
  stageOk s -> stageOk (updateHole dt s entry).
Proof.
  intros [Hp He]. destruct entry as [k h]. split.
  - rewrite updateHole_player. destruct (_ && _ && _); [|exact Hp].
    rewrite <- Hp. apply staged_same; reflexivity.
  - rewrite updateHole_enemies. destruct (_ && _); [|exact He].
    apply Forall_fmap. eapply Forall_impl; [exact He|].
    intros en Hen. cbn. destruct (isAlive en && _); [|exact Hen].
    rewrite <- Hen. apply staged_same; unfold killEnemy; destruct (negb _); reflexivity.
Qed.

Lemma update_stageOk (elapsed : float) (s : State) :
  stageOk s -> stageOk (update elapsed s).
Proof.
  apply (update_preserves stageOk).
  - intros v s0 H. exact H.
  - intros dt s0 [Hp He] _ _.
    destruct (handleInput_frame dt s0)
      as ((Hen & _) & (Hx & _ & _ & _ & _ & _ & Hsx & Hsy) & _).
    cbv zeta in Hen, Hx, Hsx, Hsy. split; [|rewrite Hen; exact He].
    rewrite <- Hp. apply staged_same; [exact Hx|].
    unfold startCell. rewrite Hsx, Hsy. reflexivity.
  - intros dt s0 H _ _. apply updatePlayer_stageOk, H.
  - intros dt s0 i H. apply updateEnemy_stageOk, H.
  - intros dt s0 e H. apply updateHole_stageOk, H.
  - intros s0 H. destruct (checkLevelCompletion_entities s0) as [Hp He].
    exact (entities_stageOk _ _ Hp He H).
Qed.

Lemma init_stageOk (tape : nat -> Z) (s : State) :
  shapeOk s -> stageOk (init tape s).
Proof.
  intros Hs. rewrite (init_from_boot tape s Hs).
  assert (staged (player (init tape bootState)) = true) as Hp
    by (vm_compute; reflexivity).
  assert (forallb staged (enemies (init tape bootState)) = true) as He
    by (vm_compute; reflexivity).
  revert Hp He. generalize (init tape bootState) as s0. intros s0 Hp He.
  split; [exact Hp|]. cbn [enemies set_specialKeyStates set_keyStates].
  apply Forall_forall. intros en Hen.
  apply (proj1 (forallb_forall staged (enemies s0)) He).
  apply list_elem_of_In. exact Hen.
Qed.
Lemma shape_stage_invariant (tape : nat -> Z) (evs : list Event) (s : State) :
  run evs (init tape bootState) = Some s -> shapeOk s /\ stageOk s.
Proof.
  apply (run_preserves (fun s => shapeOk s /\ stageOk s)).
  - intros e s0 [Hs Hw].
    split; [exact (sameCast_shapeOk _ _ (update_sameCast e s0) Hs)|].
    apply update_stageOk, Hw.
  - intros v s0 H. exact H.
  - intros v s0 H. exact H.
  - intros tape0 s0 [Hs _]. split; [apply init_shapeOk, Hs | apply init_stageOk, Hs].
  - split; [apply init_shapeOk, bootState_shapeOk
           | apply init_stageOk, bootState_shapeOk].
Qed.

(** No entity leaves the window sideways.  A physics step of a free
    entity whose spawn cell lies in the grid ends with its box between
    the left and the right edge of the window, wherever it started and
    whatever its speed.  A tick keeps every entity inside the window
    with its spawn cell inside the grid.  So in every state a session
    reaches from program start the player and every enemy have
    0 <= x and x + 0.8 * TILE_SIZE <= WINDOW_WIDTH. *)
Theorem entities_stay_in_window :
  (forall r dt s,
     validRef r s -> isTrapped (getEntity r s) = false ->
     inBounds (startGridX (getEntity r s)) (startGridY (getEntity r s)) = true ->
     inWindow (getEntity r (updatePhysics r dt s)) = true)
  /\ (forall elapsed s, stageOk s -> stageOk (update elapsed s))
  /\ (forall tape evs s,
        run evs (init tape bootState) = Some s ->
        forall e, e = player s \/ e ∈ enemies s ->
        (posX e <? i2f 0)%f32 = false
        /\ (posX e + TILE_SIZE * flit 8 10 >? i2f WINDOW_WIDTH)%f32 = false).
Proof.
  split; [|split].
  - intros r dt s Hr Ht Hin. rewrite (getEntity_updatePhysics r dt s Hr).
    unfold physicsEntity. rewrite Ht.
    assert (staged (holeCheck s r (beforeHoleCheck r dt s)) = true) as H.
    { apply holeCheck_staged. unfold beforeHoleCheck. apply boundaryChecks_staged.
      destruct (moveEntity_role s r (getEntity r s) dt) as (Hs & _).
      unfold startCell in Hs. injection Hs as -> ->. exact Hin. }
    unfold staged in H. apply andb_prop in H as [H _]. exact H.
  - apply update_stageOk.
  - intros tape evs s Hrun e He.
    destruct (shape_stage_invariant tape evs s Hrun) as [_ [Hp Hen]].
    assert (staged e = true) as H.
    { destruct He as [-> | He]; [exact Hp|].
      exact (proj1 (Forall_forall _ _) Hen e He). }
    unfold staged, inWindow in H. apply andb_prop in H as [H _].
    apply andb_prop in H as [H1 H2]. apply negb_true_iff in H1, H2.
    split; assumption.
Qed.

Lemma entities_stay_in_window_witness :
  (posX (player lostState) <? i2f 0)%f32 = false
  /\ inWindow (getEntity ThePlayer (updatePhysics ThePlayer frameTime ropeState))
     = true.
Proof.
  destruct entities_stay_in_window as (Hstep & _ & Hrun).
  assert (run lostRun (init (fun _ => 0) bootState) = Some lostState) as Hlost
    by (vm_compute; reflexivity).
  split.
  - exact (proj1 (Hrun _ _ _ Hlost (player lostState) (or_introl eq_refl))).
  - apply (Hstep ThePlayer frameTime ropeState I); vm_compute; reflexivity.
Defined.
(** ** The level over a session *)

Lemma levelAt_outside (lvl : list (list TileType)) (x y : Z) :
  levelWf lvl -> inBounds x y = false -> levelAt lvl x y = EMPTY.
Proof.
  intros [Hlen Hrows] Hout. unfold levelAt.
  destruct ((0 <=? x) && (0 <=? y)) eqn:Hpos; [|reflexivity].
  apply andb_prop in Hpos as [Hx Hy]. apply Z.leb_le in Hx, Hy.
  assert (GRID_WIDTH <= x \/ GRID_HEIGHT <= y) as Hge.
  { destruct (Z_lt_dec x GRID_WIDTH) as [Hlx|]; [|left; lia].
    destruct (Z_lt_dec y GRID_HEIGHT) as [Hly|]; [|right; lia].
    assert (inBounds x y = true) as Hin by (apply inBounds_true; lia).
    congruence. }
  destruct (lvl !! Z.to_nat y) as [row|] eqn:Hrow; [|reflexivity].
  cbn. destruct (row !! Z.to_nat x) as [t|] eqn:Ht; [|reflexivity].
  exfalso.
  pose proof (lookup_lt_Some _ _ _ Hrow) as Hly.
  pose proof (lookup_lt_Some _ _ _ Ht) as Hlx.
  pose proof (proj1 (Forall_lookup _ _) Hrows _ _ Hrow) as Hw. cbn in Hw.
  rewrite Hlen in Hly. rewrite Hw in Hlx. lia.
Qed.

Lemma startLevel_facts :
  (forall x, levelAt (level startState) x (GRID_HEIGHT - 2) <> LADDER)
  /\ (forall x, levelAt (level startState) x (GRID_HEIGHT - 1) <> EXIT_LADDER)
  /\ levelAt (level startState) (GRID_WIDTH / 2) (GRID_HEIGHT - 2) = EMPTY.
Proof.
  assert (forall y t, 0 <= y < GRID_HEIGHT -> t <> EMPTY ->
            forallb (fun x => negb (levelAt (level startState) x y ==t t)) columns
            = true ->
            forall x, levelAt (level startState) x y <> t) as Hrow.
  { intros y t Hy Ht Hall x.
    destruct (inBounds x y) eqn:Hin.
    - apply inBounds_true in Hin as [Hx _].
      pose proof (for_columns _ Hall x Hx) as H. cbn beta in H.
      apply negb_true_iff, tile_eqb_neq in H. exact H.
    - rewrite (levelAt_outside _ x y startState_levelWf Hin). congruence. }
  split; [|split].
  - apply Hrow; [unfold GRID_HEIGHT; lia | discriminate | vm_compute; reflexivity].
  - apply Hrow; [unfold GRID_HEIGHT; lia | discriminate | vm_compute; reflexivity].
  - vm_compute. reflexivity.
Qed.

Lemma reveal_on_start_level (s : State) :
  levelWf (level s) ->
  (forall x y, levelAt (level s) x y = levelAt (level startState) x y) ->
  forall x y, levelAt (level (revealExitLadder s)) x y = shownLevel true x y.
Proof.
  intros Hwf Hsame x y.
  destruct startLevel_facts as (Hno13 & Hno14 & Hc13).
  assert (levelAt (level (revealExitLadder s)) (GRID_WIDTH / 2) (GRID_HEIGHT - 1)
          = EXIT_LADDER) as Hexit.
  { assert (revealedAbove (level s) (foldl revealAbove (level s) columns))
      as [Hwf1 Hch1].
    { apply revealAbove_loop; [apply columns_in_grid|].
      split; [exact Hwf|]. intros ? ? H. contradiction H. reflexivity. }
    unfold revealExitLadder. cbn [level set_level].
    revert Hwf1 Hch1. generalize (foldl revealAbove (level s) columns) as lvl1.
    intros lvl1 Hwf1 Hch1.
    assert (forall a b, levelAt lvl1 a b = levelAt (level startState) a b) as H1.
    { intros a b. rewrite <- Hsame.
      destruct (decide (levelAt lvl1 a b = levelAt (level s) a b)) as [E | E];
        [exact E|].
      apply Hch1 in E as (_ & _ & Hl & _). rewrite Hsame in Hl.
      destruct (Hno13 a Hl). }
    assert (existsb (fun x0 => levelAt lvl1 x0 (GRID_HEIGHT - 1) ==t EXIT_LADDER)
              columns = false) as ->.
    { apply not_true_is_false. intros Hex. apply existsb_exists in Hex as (a & _ & Ha).
      apply tile_eqb_eq in Ha. rewrite H1 in Ha. exact (Hno14 a Ha). }
    cbn [negb]. rewrite H1, Hc13. cbn [tile_eqb orb].
    rewrite (proj2 (tile_eqb_eq EMPTY EMPTY) eq_refl), orb_true_r.
    apply levelAt_setLevelAt_same; [exact Hwf1 | reflexivity]. }
  unfold shownLevel. cbn [andb].
  destruct ((x =? GRID_WIDTH / 2) && (y =? GRID_HEIGHT - 1)) eqn:Hxy.
  - apply andb_prop in Hxy as [Hx Hy]. apply Z.eqb_eq in Hx, Hy. subst x y.
    exact Hexit.
  - rewrite <- Hsame.
    destruct (decide (levelAt (level (revealExitLadder s)) x y = levelAt (level s) x y))
      as [E | E]; [exact E|].
    destruct (revealExitLadder_changes s x y Hwf) as [_ Hch].
    apply Hch in E as (Hy & _ & [[Hl _] | Hx]).
    + rewrite Hsame in Hl. destruct (Hno13 x Hl).
    + subst x y. rewrite !Z.eqb_refl in Hxy. discriminate Hxy.
Qed.
Lemma completion_stage_levelIs (s4 : State) (c : bool) :
  levelWf (level s4) -> levelComplete s4 = c ->
  (forall x y, levelAt (level s4) x y = shownLevel c x y) ->
  levelIs (checkLevelCompletion s4).
Proof.
  intros Hwf Hc Hlvl.
  destruct (checkLevelCompletion_cases s4) as [[-> _] | (-> & Hfalse & _)].
  - unfold levelIs. rewrite Hc. exact Hlvl.
  - rewrite Hfalse in Hc. subst c.
    destruct (revealExitLadder_frame (set_levelComplete true s4)) as (_ & Hlc & _).
    cbn [levelComplete set_levelComplete] in Hlc.
    pose proof (reveal_on_start_level (set_levelComplete true s4) Hwf Hlvl) as Hrev.
    revert Hlc Hrev. generalize (revealExitLadder (set_levelComplete true s4)) as s5.
    intros s5 Hlc Hrev. unfold levelIs. rewrite Hlc. exact Hrev.
Qed.

Lemma running_tick_levelIs (dt : float) (s : State) :
  gridInv s -> levelIs s ->
  levelIs (checkLevelCompletion
             (updateDigging dt
                (updateEnemies dt (updatePlayer dt (handleInput dt s))))).
Proof.
  intros (Hwf & Hlvl & Hob & Htop) His.
  pose proof (tick_before_refill dt s Hwf) as H3. cbv zeta in H3.
  destruct H3 as (L3 & C3 & W3 & D3).
  pose proof (handleInput_holesOverBrick dt s Hob) as Hob1.
  destruct (handleInput_level dt s) as [L1 _].
  assert (levelWf (level (updateEnemies dt (updatePlayer dt (handleInput dt s)))))
    as Hlvl3 by (rewrite L3; exact Hlvl).
  assert (holesOverBrick (updateEnemies dt (updatePlayer dt (handleInput dt s))))
    as Hob3.
  { intros k h Hk. rewrite L3, <- L1. apply (Hob1 k h).
    rewrite <- D3. exact Hk. }
  destruct (refill_stage_gridInv dt s _ W3 Hlvl3 Hob3 L3)
    as (W4 & Hlvl4 & Hob4 & L4).
  destruct (updateDigging_frame dt
              (updateEnemies dt (updatePlayer dt (handleInput dt s)))) as (C4 & _).
  rewrite C3 in C4.
  revert Hlvl4 L4 C4.
  generalize (updateDigging dt
                (updateEnemies dt (updatePlayer dt (handleInput dt s)))) as s4.
  intros s4 Hlvl4 L4 C4.
  apply (completion_stage_levelIs s4 (levelComplete s) Hlvl4 C4).
  intros x y. rewrite L4. apply His.
Qed.

Lemma update_levelIs (elapsed : float) (s : State) :
  gridInv s -> levelIs s -> levelIs (update elapsed s).
Proof.
  intros Hinv His. rewrite update_stages. cbv zeta.
  destruct (negb (gameOver s) && negb (gameWon s)).
  - exact (running_tick_levelIs (clampDelta elapsed)
             (set_gameTime (gameTime s + clampDelta elapsed)%f32 s) Hinv His).
  - exact His.
Qed.

Lemma init_levelIs (tape : nat -> Z) (s : State) : levelIs (init tape s).
Proof.
  destruct (init_grid tape s) as [Hl _].
  destruct (init_board tape s) as (_ & _ & _ & _ & Hlc & _).
  unfold levelIs. rewrite Hl, Hlc. reflexivity.
Qed.

(** The tile grid over a session.  In every state a session reaches from
    program start, resets included, the grid stores the start level as
    long as the level is not complete, and from then on the start level
    with the exit ladder in the top-centre cell (10, 14): digging,
    refilling, collecting and the enemies never change a stored tile,
    and completing the level changes exactly that one cell.  So an exit
    exists whenever the level is complete. *)
Theorem level_is_start_level_but_exit (tape : nat -> Z) (evs : list Event)
    (s : State) :
  run evs (init tape bootState) = Some s ->
  (forall x y,
     levelAt (level s) x y
     = if levelComplete s && (x =? 10) && (y =? 14) then EXIT_LADDER
       else levelAt (level startState) x y)
  /\ (levelComplete s = true -> levelAt (level s) 10 14 = EXIT_LADDER)
  /\ (forall k h, dugHoles s !! k = Some h ->
        levelAt (level startState) k.1 k.2 = BRICK).
Proof.
  intros Hrun.
  assert (gridInv s /\ levelIs s) as [(_ & _ & Hob & _) His].
  { revert Hrun. apply (run_preserves (fun s => gridInv s /\ levelIs s)).
    - intros e s0 [Hg Hl]. split; [apply update_gridInv, Hg|].
      apply update_levelIs; assumption.
    - intros v s0 H. exact H.
    - intros v s0 H. exact H.
    - intros tape0 s0 _. split; [apply init_gridInv | apply init_levelIs].
    - split; [apply init_gridInv | apply init_levelIs]. }
  split; [exact His|]. split.
  - intros Hc. rewrite His, Hc. reflexivity.
  - intros k h Hk. pose proof (Hob k h Hk) as Hb. rewrite His in Hb.
    unfold shownLevel in Hb. destruct (_ && _ && _); [discriminate Hb | exact Hb].
Qed.

Lemma level_is_start_level_but_exit_witness :
  levelAt (level lostState) 7 1 = BRICK
  /\ levelAt (level playedState) 10 14 = SOLID_BRICK.
Proof.
  assert (run lostRun (init (fun _ => 0) bootState) = Some lostState) as Hlost
    by (vm_compute; reflexivity).
  assert (run sampleRun (init (fun _ => 0) bootState) = Some playedState) as Hplayed
    by (vm_compute; reflexivity).
  destruct (level_is_start_level_but_exit _ _ _ Hlost) as (H1 & _).
  destruct (level_is_start_level_but_exit _ _ _ Hplayed) as (H2 & _).
  split.
  - rewrite H1. assert (levelComplete lostState = false) as ->
      by (vm_compute; reflexivity).
    vm_compute. reflexivity.
  - rewrite H2. assert (levelComplete playedState = false) as ->
      by (vm_compute; reflexivity).
    vm_compute. reflexivity.
Defined.
(** ** A dead enemy *)

(** A dead enemy is out of the game until it respawns.  Its turn in
    [updateEnemies] touches nothing but the enemy itself and, at the
    respawn, the random sequence: the player, its lives, the game-over
    flag and the other enemies stay as they are.  While the respawn
    timer, decremented by the time step, is still positive the enemy
    stays dead where it is; at the first tick in which it is not, the
    enemy is alive again, respawned with the next random draw. *)
Theorem dead_enemy_waits_then_respawns (dt : float) (s : State) (i : nat) :
  validRef (TheEnemy i) s ->
  isAlive (getEntity (TheEnemy i) s) = false ->
  let en := getEntity (TheEnemy i) s in
  let waiting := set_respawnTimer (respawnTimer en - dt)%f32 en in
  let s' := updateEnemy dt s i in
  (player s' = player s /\ lives s' = lives s /\ gameOver s' = gameOver s
   /\ level s' = level s /\ dugHoles s' = dugHoles s
   /\ forall j, j <> i -> enemies s' !! j = enemies s !! j)
  /\ ((respawnTimer en - dt <=? i2f 0)%f32 = false ->
      getEntity (TheEnemy i) s' = waiting
      /\ isAlive waiting = false /\ posX waiting = posX en /\ posY waiting = posY en
      /\ randPos s' = randPos s)
  /\ ((respawnTimer en - dt <=? i2f 0)%f32 = true ->
      getEntity (TheEnemy i) s' = respawnEnemy (randTape s (randPos s)) waiting
      /\ isAlive (getEntity (TheEnemy i) s') = true
      /\ randPos s' = S (randPos s)).
Proof.
  intros Hi Hdead. cbv zeta. unfold updateEnemy, rand. rewrite Hdead. cbn [negb].
  cbn [respawnTimer set_respawnTimer].
  destruct (_ <=? _)%f32; cbv zeta.
  - split; [|split; [discriminate|intros _]].
    + repeat split. intros j Hj. cbn. apply list_lookup_insert_ne. congruence.
    + cbn [getEntity setEntity enemies set_enemies set_randPos randPos].
      rewrite list_lookup_insert_eq by exact Hi. repeat split.
  - split; [|split; [intros _|discriminate]].
    + repeat split. intros j Hj. cbn. apply list_lookup_insert_ne. congruence.
    + cbn [getEntity setEntity enemies set_enemies randPos].
      rewrite list_lookup_insert_eq by exact Hi. repeat split. exact Hdead.
Qed.

Lemma dead_enemy_waits_then_respawns_witness :
  let s := setEntity (TheEnemy 0) (killEnemy (getEntity (TheEnemy 0) startState))
             startState in
  respawnTimer (getEntity (TheEnemy 0) (updateEnemy frameTime s 0))
  = (i2f 3 - frameTime)%f32
  /\ isAlive (getEntity (TheEnemy 0) (updateEnemy (i2f 3) s 0)) = true.
Proof.
  cbv zeta.
  pose proof (dead_enemy_waits_then_respawns frameTime
                (setEntity (TheEnemy 0) (killEnemy (getEntity (TheEnemy 0) startState))
                   startState) 0%nat
                ltac:(vm_compute; lia) ltac:(vm_compute; reflexivity)) as H1.
  pose proof (dead_enemy_waits_then_respawns (i2f 3)
                (setEntity (TheEnemy 0) (killEnemy (getEntity (TheEnemy 0) startState))
                   startState) 0%nat
                ltac:(vm_compute; lia) ltac:(vm_compute; reflexivity)) as H2.
  cbv zeta in H1, H2.
  destruct H1 as (_ & Hwait & _). destruct H2 as (_ & _ & Hback).
  destruct (Hwait ltac:(vm_compute; reflexivity)) as (-> & _).
  destruct (Hback ltac:(vm_compute; reflexivity)) as (_ & Halive & _).
  split; [vm_compute; reflexivity | exact Halive].
Defined.

(** ** Climbing on a rope *)

(** The start state with enemy 0 hanging on the rope of cell (4, 8),
    under the ladder of cell (4, 9), and the player three rows higher. *)
Lemma enemy_climbing_on_rope_example :
  let en := set_posY (i2f 320) (set_posX (i2f 164) (getEntity (TheEnemy 0) startState)) in
  let p := set_posY (i2f 440) (player startState) in
  let s := set_player p (setEntity (TheEnemy 0) en startState) in
  modesOk s
  /\ isClimbing (getEntity (TheEnemy 0) (update frameTime s)) = true
  /\ isOnRope (getEntity (TheEnemy 0) (update frameTime s)) = true.
Proof.
  cbv zeta. split; [|split; vm_compute; reflexivity].
  split; [vm_compute; reflexivity|].
  apply Forall_lookup. intros i e Hi.
  destruct i as [|[|[|i]]]; vm_compute in Hi; try discriminate Hi;
    injection Hi as <-; vm_compute; reflexivity.
Qed.
Lemma handleInput_digs_diagonally_below_witness :
  dugHoles (handleInput frameTime diggerState) = <[(7, 1) := newHole (7, 1)]> ∅
  /\ posX (player (handleInput frameTime diggerState)) = i2f 324.
Proof.
  pose proof (handleInput_digs_diagonally_below frameTime diggerState) as H.
  cbv zeta in H. destruct H as (Hx & _ & _ & _ & Hdig).
  split; [|exact Hx].
  destruct Hdig as [Hsame | (k & Hk & _ & _ & _ & Hnew & _)].
  - exfalso.
    assert (dugHoles (handleInput frameTime diggerState) !! (7, 1)
            = dugHoles diggerState !! (7, 1)) as H by (rewrite Hsame; reflexivity).
    vm_compute in H. discriminate H.
  - rewrite Hnew.
    assert (digCell (player diggerState) = (8, 2)) as Hc by (vm_compute; reflexivity).
    rewrite Hc in Hk. cbn [fst snd] in Hk.
    assert (keyDown (keyStates diggerState) KEY_Q = true) as HQ
      by (vm_compute; reflexivity).
    destruct Hk as [[-> _] | (_ & _ & HQ')]; [reflexivity | congruence].
Defined.
